(** * Event intelligence platform: discovery engines and rate limiter

    A shallow embedding of the Python back end
    ([Backend/services/rate_limiter.py], [Backend/services/twitter_client.py],
    [Backend/engines/attendee_engine.py], [Backend/engines/event_engine.py])
    together with the properties of its discovery, deduplication, scoring
    and quota logic.

    Conventions of the embedding.
    - Python [int] is [Z]; [len] is a [nat] injected into [Z] where the
      source compares it with an [int].
    - Python [str] is [string], read as ASCII text: [lower], [\s], [\w] and
      [\d] are the ASCII restrictions of the Python operations.  The only
      non-ASCII literal of the source, the en dash of the date splitter, is
      its UTF-8 byte sequence.
    - Python [float] scores are exact rationals ([Q]): [0.1] is [1#10].
    - [datetime.now()] is a field of the outside world; a call that raises
      is a computation that yields [None] in the exception monad below.
    - Outside collaborators (HTTP, tweepy, [json], [strptime]) are the
      members of a type class, so every theorem holds for every provider. *)

From Stdlib Require Import ZArith QArith Qminmax Lqa Lia String Ascii List Bool.
From stdpp Require Import base decidable option list strings gmap pretty sorting.

Open Scope string_scope.
Open Scope Z_scope.
Open Scope list_scope.

(** ** Python strings *)

Module PyStr.

Definition chr (n : nat) : string := String (ascii_of_nat n) EmptyString.

(** The double quote and the en dash (U+2013, three bytes in UTF-8). *)
Definition dquote : string := chr 34.
Definition en_dash : string :=
  String (ascii_of_nat 226) (String (ascii_of_nat 128) (chr 147)).

Definition in_range (lo hi : nat) (c : ascii) : bool :=
  let n := nat_of_ascii c in (lo <=? n)%nat && (n <=? hi)%nat.

(** [str.isspace] and the regex class [\s] on ASCII. *)
Definition is_space (c : ascii) : bool := in_range 9 13 c || in_range 28 32 c.
Definition is_digit (c : ascii) : bool := in_range 48 57 c.
Definition is_upper (c : ascii) : bool := in_range 65 90 c.
Definition is_lower (c : ascii) : bool := in_range 97 122 c.
(** The regex class [\w]. *)
Definition is_word (c : ascii) : bool :=
  is_digit c || is_upper c || is_lower c || Ascii.eqb c "_".
(** The regex class [[^\w\s]]. *)
Definition not_word_space (c : ascii) : bool := negb (is_word c || is_space c).
(** The regex dot, which matches anything but a newline. *)
Definition is_dot (c : ascii) : bool := negb (Ascii.eqb c "010").
Definition is_char (a : ascii) (c : ascii) : bool := Ascii.eqb a c.

Definition lower_char (c : ascii) : ascii :=
  if is_upper c then ascii_of_nat (nat_of_ascii c + 32) else c.
(** A literal of a pattern compiled with [re.IGNORECASE]. *)
Definition is_char_i (a : ascii) (c : ascii) : bool :=
  Ascii.eqb (lower_char a) (lower_char c).

Fixpoint lower (s : string) : string :=
  match s with
  | EmptyString => EmptyString
  | String c s' => String (lower_char c) (lower s')
  end.

Definition is_empty (s : string) : bool :=
  match s with EmptyString => true | _ => false end.

Fixpoint lstrip (s : string) : string :=
  match s with
  | EmptyString => EmptyString
  | String c s' => if is_space c then lstrip s' else s
  end.

Fixpoint rstrip (s : string) : string :=
  match s with
  | EmptyString => EmptyString
  | String c s' =>
      let r := rstrip s' in
      if is_space c && is_empty r then EmptyString else String c r
  end.

(** [s.strip()] *)
Definition strip (s : string) : string := rstrip (lstrip s).

Definition push (t : string) (ts : list string) : list string :=
  if is_empty t then ts else t :: ts.

(** The token that starts at the head of [s] and the tokens after it. *)
Fixpoint tokens (s : string) : string * list string :=
  match s with
  | EmptyString => (EmptyString, [])
  | String c s' =>
      let '(t, ts) := tokens s' in
      if is_space c then (EmptyString, push t ts) else (String c t, ts)
  end.

(** [s.split()]: the maximal runs of non-space characters. *)
Definition split_ws (s : string) : list string :=
  let '(t, ts) := tokens s in push t ts.

(** [sub in s] *)
Fixpoint contains (sub s : string) : bool :=
  String.prefix sub s ||
  match s with
  | EmptyString => false
  | String _ s' => contains sub s'
  end.

Definition startswith (s p : string) : bool := String.prefix p s.

(** The piece that starts at the head of [s] and the pieces after it;
    [skip] counts the characters of a separator still to be dropped. *)
Fixpoint split_go (sep s : string) (skip : nat) : string * list string :=
  match s with
  | EmptyString => (EmptyString, [])
  | String c s' =>
      match skip with
      | S k => split_go sep s' k
      | O =>
          if String.prefix sep s
          then let '(p, ps) := split_go sep s' (String.length sep - 1) in
               (EmptyString, p :: ps)
          else let '(p, ps) := split_go sep s' 0 in (String c p, ps)
      end
  end.

(** [s.split(sep)] for a non-empty separator. *)
Definition split_on (sep s : string) : list string :=
  let '(p, ps) := split_go sep s 0 in p :: ps.

Fixpoint join (sep : string) (l : list string) : string :=
  match l with
  | [] => EmptyString
  | [x] => x
  | x :: l' => x +:+ sep +:+ join sep l'
  end.

(** [s.replace(old, new)] for a non-empty [old]. *)
Definition replace (old new s : string) : string := join new (split_on old s).

Fixpoint take_str (n : nat) (s : string) : string :=
  match n, s with
  | S k, String c s' => String c (take_str k s')
  | _, _ => EmptyString
  end.

Definition digit_val (c : ascii) : Z := Z.of_nat (nat_of_ascii c) - 48.

(** [int(s)] for a string of ASCII digits. *)
Definition int_of_digits (s : string) : Z :=
  fold_left (fun acc c => 10 * acc + digit_val c) (list_ascii_of_string s) 0.

(** [str(n)] for an [int]. *)
Definition str_of_int (n : Z) : string := pretty n.

(** *** The fragment of [re] the engines use

    A pattern is a sequence of atoms; matching is Python's backtracking
    search with greedy quantifiers. *)

Inductive atom : Type :=
| One (p : ascii -> bool)      (* a character of the class *)
| Opt (p : ascii -> bool)      (* [p?] *)
| Many0 (p : ascii -> bool)    (* [p*] *)
| Eos.                         (* [$] *)

Definition pattern : Type := list atom.

(** [p+] *)
Definition plus (p : ascii -> bool) : pattern := [One p; Many0 p].

Definition step (p : ascii -> bool) (k : string -> option string)
  (s : string) : option string :=
  match s with
  | String c s' => if p c then k s' else None
  | EmptyString => None
  end.

Definition or_else {A} (x y : option A) : option A :=
  match x with Some _ => x | None => y end.

(** The rest of [s] after the match of [pat] that starts at its head. *)
Fixpoint match_here (pat : pattern) (s : string) : option string :=
  match pat with
  | [] => Some s
  | One p :: pat' => step p (match_here pat') s
  | Opt p :: pat' => or_else (step p (match_here pat') s) (match_here pat' s)
  | Many0 p :: pat' =>
      (fix star (s : string) : option string :=
         match s with
         | String c s' =>
             if p c then or_else (star s') (match_here pat' s)
             else match_here pat' s
         | EmptyString => match_here pat' s
         end) s
  | Eos :: pat' =>
      match s with
      | EmptyString => match_here pat' s
      | String c EmptyString =>
          if Ascii.eqb c "010" then match_here pat' s else None
      | _ => None
      end
  end.

(** [re.search(pat, s)]: text before the leftmost match, the match, and the
    text after it. *)
Fixpoint search (pat : pattern) (s : string) : option (string * string * string) :=
  match match_here pat s with
  | Some r => Some (EmptyString, take_str (String.length s - String.length r) s, r)
  | None =>
      match s with
      | EmptyString => None
      | String c s' =>
          match search pat s' with
          | Some (b, m, a) => Some (String c b, m, a)
          | None => None
          end
      end
  end.

(** [re.sub(pat, repl, s)] for a pattern whose matches are never empty
    (every pattern of the source has a [One] atom). *)
Fixpoint sub_go (pat : pattern) (repl s : string) (skip : nat) : string :=
  match s with
  | EmptyString => EmptyString
  | String c s' =>
      match skip with
      | S k => sub_go pat repl s' k
      | O =>
          match match_here pat s with
          | Some r =>
              match (String.length s - String.length r)%nat with
              | S k => repl +:+ sub_go pat repl s' k
              | O => String c (sub_go pat repl s' 0)
              end
          | None => String c (sub_go pat repl s' 0)
          end
      end
  end.

Definition sub (pat : pattern) (repl s : string) : string := sub_go pat repl s 0.

End PyStr.

(** ** Python dates and times *)

Module PyTime.

(** A naive [datetime] with its calendar fields. *)
Record datetime : Type := mk_datetime {
  year : Z; month : Z; day : Z;
  hour : Z; minute : Z; second : Z; microsecond : Z
}.

Definition is_leap (y : Z) : bool :=
  (y mod 4 =? 0) && (negb (y mod 100 =? 0) || (y mod 400 =? 0)).

Definition days_in_month (y m : Z) : Z :=
  if m =? 2 then (if is_leap y then 29 else 28)
  else if (m =? 4) || (m =? 6) || (m =? 9) || (m =? 11) then 30
  else 31.

(** The argument check of the [datetime] constructor and of [replace]. *)
Definition valid_date (y m d : Z) : bool :=
  (1 <=? y) && (y <=? 9999) && (1 <=? m) && (m <=? 12) &&
  (1 <=? d) && (d <=? days_in_month y m).

(** [datetime(y, m, d)]; [None] is the [ValueError] of an impossible date. *)
Definition mk_date (y m d : Z) : option datetime :=
  if valid_date y m d then Some (mk_datetime y m d 0 0 0 0) else None.

(** [dt.replace(year=y, month=m)] *)
Definition replace_year_month (dt : datetime) (y m : Z) : option datetime :=
  if valid_date y m (day dt)
  then Some (mk_datetime y m (day dt) (hour dt) (minute dt) (second dt) (microsecond dt))
  else None.

Definition replace_year (dt : datetime) (y : Z) : option datetime :=
  replace_year_month dt y (month dt).

Definition replace_month (dt : datetime) (m : Z) : option datetime :=
  replace_year_month dt (year dt) m.

Definition fields (dt : datetime) : list Z :=
  [year dt; month dt; day dt; hour dt; minute dt; second dt; microsecond dt].

Fixpoint lex_ltb (a b : list Z) : bool :=
  match a, b with
  | x :: a', y :: b' => (x <? y) || ((x =? y) && lex_ltb a' b')
  | [], _ :: _ => true
  | _, [] => false
  end.

(** [a < b] and [a <= b] on naive datetimes. *)
Definition ltb (a b : datetime) : bool := lex_ltb (fields a) (fields b).
Definition leb (a b : datetime) : bool := negb (ltb b a).

Definition month_names : list string :=
  ["January"; "February"; "March"; "April"; "May"; "June"; "July";
   "August"; "September"; "October"; "November"; "December"].

(** [n] in decimal, zero-padded on the left to [w] characters. *)
Definition zero_pad (w : nat) (n : Z) : string :=
  let s := PyStr.str_of_int n in
  string_of_list_ascii (repeat "0"%char (w - String.length s)) +:+ s.

(** The [strftime] directives the engines use. *)
Definition fmt_B (dt : datetime) : string :=
  nth (Z.to_nat (month dt - 1)) month_names EmptyString.
(** [%Y] prints the year as it is (years before 1000 are not padded). *)
Definition fmt_Y (dt : datetime) : string := PyStr.str_of_int (year dt).
Definition fmt_m (dt : datetime) : string := zero_pad 2 (month dt).
Definition fmt_d (dt : datetime) : string := zero_pad 2 (day dt).
Definition fmt_H (dt : datetime) : string := zero_pad 2 (hour dt).
Definition fmt_M (dt : datetime) : string := zero_pad 2 (minute dt).

(** Instants on the naive time line, counted in microseconds, for the code
    that only compares datetimes and shifts them by a [timedelta]. *)
Definition instant : Type := Z.
Definition timedelta_minutes (m : Z) : Z := m * 60 * 1000000.
Definition timedelta_seconds (s : Z) : Z := s * 1000000.

End PyTime.

(** ** Computations that read the world and may raise *)

Module Run.

Section Monad.
Context {St : Type}.

(** A computation over the state [St]; [None] is a raised exception. *)
Definition M (A : Type) : Type := St -> option A * St.

Definition ret {A} (a : A) : M A := fun s => (Some a, s).
Definition raise {A} : M A := fun s => (None, s).
Definition bind {A B} (m : M A) (f : A -> M B) : M B :=
  fun s => match m s with
           | (Some a, s') => f a s'
           | (None, s') => (None, s')
           end.
Definition get : M St := fun s => (Some s, s).
Definition modify (f : St -> St) : M unit := fun s => (Some tt, f s).
(** A pure partial function: [None] raises. *)
Definition lift {A} (o : option A) : M A := fun s => (o, s).
(** [try: m  except Exception: return a] *)
Definition try_except {A} (m : M A) (a : A) : M A :=
  fun s => match m s with
           | (Some x, s') => (Some x, s')
           | (None, s') => (Some a, s')
           end.

(** The judgement of the proofs: started in a state of [P], the computation
    ends in a state of [Q a] when it returns [a], and in a state of [E]
    when it raises. *)
Definition triple {A} (P : St -> Prop) (m : M A) (Q : A -> St -> Prop)
  (E : St -> Prop) : Prop :=
  forall st, P st ->
    match m st with
    | (Some a, st') => Q a st'
    | (None, st') => E st'
    end.

End Monad.

Declare Scope run_scope.
Delimit Scope run_scope with run.
Notation "x <- m ;; k" := (bind m (fun x => k))
  (at level 100, m at next level, right associativity) : run_scope.
Notation "m ;;; k" := (bind m (fun _ => k))
  (at level 100, right associativity) : run_scope.

End Run.

(** ** [services/rate_limiter.py] *)

Module RateLimiter.
Import PyTime.

Record LimitInfo : Type := mk_limit {
  limit : Z;
  remaining : Z;
  reset_time : option instant;
  window_minutes : Z
}.

(** The [lock] of the source serialises the calls; each function below is
    one critical section. *)
Record TwitterRateLimiter : Type := mk_limiter {
  rate_limits : gmap string LimitInfo
}.

Definition setup_advanced_limits (self : TwitterRateLimiter) : TwitterRateLimiter :=
  let l := rate_limits self in
  let l := <["search_recent" := mk_limit 60 60 None 15]> l in
  let l := <["post_tweet" := mk_limit 100 100 None 1440]> l in
  let l := <["retweet" := mk_limit 5 5 None 15]> l in
  mk_limiter l.

(** [TwitterRateLimiter()] *)
Definition init : TwitterRateLimiter := setup_advanced_limits (mk_limiter ∅).

(** [check_rate_limit(endpoint)] when the clock reads [now]. *)
Definition check_rate_limit (now : instant) (endpoint : string)
  (self : TwitterRateLimiter) : bool * TwitterRateLimiter :=
  match rate_limits self !! endpoint with
  | None => (true, self)
  | Some limit_info =>
      let w := timedelta_minutes (window_minutes limit_info) in
      (* Initialize reset time if not set *)
      let reset := match reset_time limit_info with
                   | Some r => r
                   | None => now + w
                   end in
      (* Reset if time window passed *)
      let '(rem, reset) := if reset <? now then (limit limit_info, now + w)
                           else (remaining limit_info, reset) in
      let store r := mk_limiter
        (<[endpoint := mk_limit (limit limit_info) r (Some reset)
                                (window_minutes limit_info)]> (rate_limits self)) in
      if 0 <? rem then (true, store (rem - 1)) else (false, store rem)
  end.

Record Status : Type := mk_status {
  st_remaining : Z; st_limit : Z; st_reset_in_minutes : Z; st_window : string
}.

(** [get_limits_status()] when the clock reads [now]. *)
Definition get_limits_status (now : instant) (self : TwitterRateLimiter)
  : gmap string Status :=
  (fun limit_info =>
     let reset_in := match reset_time limit_info with
                     | Some r => Z.max 0 (r - now) / timedelta_minutes 1
                     | None => 0
                     end in
     mk_status (remaining limit_info) (limit limit_info) reset_in
               (PyStr.str_of_int (window_minutes limit_info) +:+ "min"))
  <$> rate_limits self.

(** A sequence of acquisition attempts, one per clock reading. *)
Fixpoint acquire_all (endpoint : string) (times : list instant)
  (self : TwitterRateLimiter) : list bool * TwitterRateLimiter :=
  match times with
  | [] => ([], self)
  | now :: times' =>
      let '(ok, self') := check_rate_limit now endpoint self in
      let '(oks, self'') := acquire_all endpoint times' self' in
      (ok :: oks, self'')
  end.

End RateLimiter.

(** ** Python lists *)

Module PyList.

(** [l[:n]]: a negative [n] counts from the end. *)
Definition slice_to {A} (n : Z) (l : list A) : list A :=
  if n <? 0 then take (Z.to_nat (Z.of_nat (length l) + n)) l
  else take (Z.to_nat n) l.

(** [len(l)] as an [int]. *)
Definition len {A} (l : list A) : Z := Z.of_nat (length l).

Section Sort.
Context {A K : Type} (ltb : K -> K -> bool) (key : A -> K).

(** [x] goes in front of the first element whose key is not larger. *)
Fixpoint insert_desc (x : A) (l : list A) : list A :=
  match l with
  | [] => [x]
  | y :: l' => if ltb (key x) (key y) then y :: insert_desc x l' else x :: l
  end.

(** [l.sort(key=key, reverse=True)].  The built-in sort is stable in both
    directions; this is the stable insertion sort with the same result. *)
Fixpoint sort_desc (l : list A) : list A :=
  match l with
  | [] => []
  | x :: l' => insert_desc x (sort_desc l')
  end.

End Sort.

(** [list(dict.fromkeys(l))]: the first occurrence of each element, in order. *)
Fixpoint dedup_first (seen : gset string) (l : list string) : list string :=
  match l with
  | [] => []
  | x :: l' =>
      if decide (x ∈ seen) then dedup_first seen l'
      else x :: dedup_first ({[x]} ∪ seen) l'
  end.

(** [a < b] on scores. *)
Definition Qltb (a b : Q) : bool := negb (Qle_bool b a).

End PyList.

(** ** [services/twitter_client.py] *)

Module Twitter.
Import PyTime.

(** The objects tweepy hands back. *)
Inductive CreatedAt : Type :=
| AtTime (dt : datetime)      (* a [datetime] *)
| AtText (s : string).        (* anything else, as [str] renders it *)

Record Tweet : Type := mk_tweet {
  id : Z; author_id : Z; text : string; created_at : CreatedAt
}.

Record User : Type := mk_user {
  user_id : Z;
  username : string;
  name : string;
  description : option string;
  location : option string;
  verified : option bool;
  (** [public_metrics.get('followers_count')] *)
  followers : option Z
}.

(** [includes] is [None] when it is falsy or has no ['users']. *)
Record Response : Type := mk_response {
  data : option (list Tweet);
  includes : option (list User)
}.

(** The v2 endpoint and the clock. *)
Class Api : Type := {
  World : Type;
  clock : World -> instant;
  (** [client_v2.search_recent_tweets]; [None] when it raises. *)
  search_recent_tweets : string -> Z -> World -> option Response * World
}.

Record TwitterClient : Type := mk_client {
  (** [client_v2 is not None] *)
  client_v2 : bool;
  rate_limit_remaining : Z;
  last_reset_time : instant;
  total_searches_used : Z
}.

Definition _check_rate_limit (now : instant) (self : TwitterClient)
  : bool * TwitterClient :=
  let time_since_reset := now - last_reset_time self in
  (* Reset every 15 minutes *)
  let self := if timedelta_seconds 900 <=? time_since_reset
              then mk_client (client_v2 self) 60 now 0 else self in
  (negb (rate_limit_remaining self <=? 0), self).

Definition search_recent_tweets_safe `{Api} (query : string) (max_results : Z)
  (self : TwitterClient) (w : World) : option Response * TwitterClient * World :=
  let '(ok, self) := _check_rate_limit (clock w) self in
  if negb ok then (None, self, w)
  else if negb (client_v2 self) then (None, self, w)
  else
    match search_recent_tweets query (Z.min max_results 15) w with
    | (Some response, w') =>
        (Some response,
         mk_client (client_v2 self) (rate_limit_remaining self - 1)
                   (last_reset_time self) (total_searches_used self + 1),
         w')
    | (None, w') => (None, self, w')
    end.

Definition is_operational (self : TwitterClient) : bool := client_v2 self.

(** [TwitterClient()] when the clock reads [now]; [client_ok] tells whether
    [setup_clients] got as far as building the v2 client. *)
Definition init (now : instant) (client_ok : bool) : TwitterClient :=
  mk_client client_ok 60 now 0.

Record UsageStats : Type := mk_stats {
  searches_remaining : Z;
  searches_used : Z;
  searches_limit : Z;
  reset_in_minutes : Z;
  posting_limit : string
}.

(** [get_usage_stats()] when the clock reads [now]; [int] cuts the minutes
    down to a whole number. *)
Definition get_usage_stats (now : instant) (self : TwitterClient) : UsageStats :=
  let time_since_reset := now - last_reset_time self in
  let reset_in := Z.max 0 (timedelta_seconds 900 - time_since_reset) in
  mk_stats (rate_limit_remaining self) (total_searches_used self) 60
           (reset_in / timedelta_seconds 60) "100 posts/24hr".

End Twitter.

(** ** [engines/attendee_engine.py] *)

Module AttendeeEngine.
Import PyStr PyList Run.

Record ResearchAttendee : Type := mk_attendee {
  username : string;
  display_name : string;
  bio : string;
  location : string;
  followers_count : Z;
  verified : bool;
  confidence_score : Q;
  engagement_type : string;
  post_content : string;
  post_date : string;
  post_link : string;
  relevance_score : Q
}.

Definition relevance_threshold : Q := 5 # 100.

Definition stop_words : gset string :=
  list_to_set ["the"; "and"; "or"; "but"; "in"; "on"; "at"; "to"; "for";
               "of"; "with"; "by"; "a"; "an"].

(** [None] is the [IndexError] of [event_name.split()[0]]. *)
Definition _extract_keywords (event_name : string) : option (list string) :=
  let clean_name := sub [One not_word_space] " " event_name in
  let words := split_ws clean_name in
  let keywords :=
    lower <$> filter (fun word => (lower word ∉ stop_words) ∧
                                  (2 < String.length word)%nat) words in
  match keywords with
  | _ :: _ => Some keywords
  | [] => match split_ws event_name with
          | w :: _ => Some [lower w]
          | [] => None
          end
  end.

Definition _clean_event_name (event_name : string) : string :=
  if is_empty event_name then "event"
  else
    let cleaned := sub [One not_word_space] " " event_name in
    let cleaned := strip (sub (plus is_space) " " cleaned) in
    if is_empty cleaned then "event" else cleaned.

Definition any_in (phrases : list string) (text : string) : bool :=
  existsb (fun p => contains p text) phrases.

Definition _detect_engagement_fast (tweet_text : string) : string :=
  let text_lower := lower tweet_text in
  if any_in ["attending"; "going to"; "will be there"] text_lower
  then "confirmed_attendance"
  else if any_in ["excited for"; "can't wait for"] text_lower
  then "excited"
  else "discussing".

Definition count_in (keywords : list string) (text : string) : Z :=
  len (filter (fun keyword => contains keyword text = true) keywords).

Definition _calculate_relevance_score_fast (tweet_text event_name : string)
  : option Q :=
  let text_lower := lower tweet_text in
  let event_lower := lower event_name in
  let score := 0%Q in
  (* Exact match (STRONG) *)
  let score := if contains event_lower text_lower
               then (score + (6 # 10))%Q else score in
  (* Keyword matches (MEDIUM) *)
  keywords ← _extract_keywords event_name;
  let matched_keywords := count_in keywords text_lower in
  let score := (score + Qmin (3 # 10) (inject_Z matched_keywords * (1 # 10)))%Q in
  (* Any engagement signal (WEAK) *)
  let score :=
    if any_in ["attending"; "going to"; "see you at"; "excited for";
               "can't wait for"] text_lower
    then (score + (1 # 10))%Q else score in
  (* Event context words (VERY WEAK) *)
  let score :=
    if any_in ["event"; "concert"; "festival"; "show"; "party"] text_lower
    then (score + (5 # 100))%Q else score in
  Some (Qmin 1 score).

Definition or_empty (o : option string) : string := default EmptyString o.

Definition make_attendee (user : Twitter.User) (tweet : Twitter.Tweet)
  (relevance_score : Q) : ResearchAttendee :=
  let text := Twitter.text tweet in
  mk_attendee
    ("@" +:+ Twitter.username user)
    (Twitter.name user)
    (or_empty (Twitter.description user))
    (or_empty (Twitter.location user))
    (default 0 (Twitter.followers user))
    (default false (Twitter.verified user))
    (7 # 10)
    (_detect_engagement_fast text)
    (if (100 <? String.length text)%nat then take_str 100 text +:+ "..." else text)
    (match Twitter.created_at tweet with
     | Twitter.AtTime dt =>
         PyTime.fmt_Y dt +:+ "-" +:+ PyTime.fmt_m dt +:+ "-" +:+ PyTime.fmt_d dt
         +:+ " " +:+ PyTime.fmt_H dt +:+ ":" +:+ PyTime.fmt_M dt
     | Twitter.AtText s => s
     end)
    ("https://twitter.com/" +:+ Twitter.username user +:+ "/status/"
     +:+ str_of_int (Twitter.id tweet))
    relevance_score.

(** The body of the loop over [tweets.data]. *)
Fixpoint process_data (users_dict : gmap Z Twitter.User) (event_name : string)
  (tweets : list Twitter.Tweet) : option (list ResearchAttendee) :=
  match tweets with
  | [] => Some []
  | tweet :: tweets' =>
      match users_dict !! Twitter.author_id tweet with
      | None => process_data users_dict event_name tweets'
      | Some user =>
          relevance_score ←
            _calculate_relevance_score_fast (Twitter.text tweet) event_name;
          rest ← process_data users_dict event_name tweets';
          (* Include if even slightly relevant *)
          if Qle_bool relevance_threshold relevance_score
          then Some (make_attendee user tweet relevance_score :: rest)
          else Some rest
      end
  end.

Definition _process_tweets_fast (tweets : Twitter.Response) (event_name : string)
  : option (list ResearchAttendee) :=
  match Twitter.includes tweets with
  | None => Some []
  | Some users =>
      let users_dict :=
        foldl (fun d user => <[Twitter.user_id user := user]> d) ∅ users in
      tweets_data ← Twitter.data tweets;
      process_data users_dict event_name tweets_data
  end.

(** One call from the orchestrator to the gateway, kept for the statements
    only: its phase, query and result hint, and [len(all_attendees)] at the
    time of the call. *)
Record Fetch : Type := mk_fetch {
  f_phase : nat; f_query : string; f_hint : Z; f_have : nat
}.

Section Engine.
Context `{Twitter.Api}.

(** The engine owns its client; [issued] and [produced] are the trace of the
    run (the calls made, and the attendees the calls gave back, in order).
    No code reads them. *)
Record St : Type := mk_st {
  twitter_client : Twitter.TwitterClient;
  world : Twitter.World;
  issued : list Fetch;
  produced : list ResearchAttendee
}.

(** The state a run starts in: nothing on the trace yet. *)
Definition start (client : Twitter.TwitterClient) (w : Twitter.World) : St :=
  mk_st client w [] [].

Definition call_search (query : string) (max_results : Z)
  : M (option Twitter.Response) :=
  fun st =>
    let '(r, c, w) :=
      Twitter.search_recent_tweets_safe query max_results
        (twitter_client st) (world st) in
    (Some r, mk_st c w (issued st) (produced st)).

Definition _search_and_process (query event_name : string) (max_results : Z)
  : M (list ResearchAttendee) :=
  (tweets <- call_search query (Z.min max_results 20);;
   match tweets with
   | None => ret []
   | Some tweets =>
       match Twitter.data tweets with
       | None | Some [] => ret []
       | Some _ => lift (_process_tweets_fast tweets event_name)
       end
   end)%run.

Definition _generate_exact_queries (event_name : string)
  (event_date : option string) : list (string * string) :=
  let clean_name := _clean_event_name event_name in
  let quoted := dquote +:+ clean_name +:+ dquote in
  let queries := [("exact", quoted);
                  ("event", quoted +:+ " event");
                  ("concert", quoted +:+ " concert")] in
  match event_date with
  | Some d => if is_empty d then queries
              else queries ++ [("dated", quoted +:+ " " +:+ d)]
  | None => queries
  end.

Definition _generate_smart_keyword_queries (event_name : string)
  : option (list (string * string)) :=
  keywords ← _extract_keywords event_name;
  match keywords with
  | [] => Some []
  | k0 :: ks =>
      let queries :=
        match ks with
        | k1 :: _ => [("keywords", dquote +:+ k0 +:+ " " +:+ k1 +:+ dquote)]
        | [] => []
        end in
      Some (queries ++ [("main_keyword", dquote +:+ k0 +:+ dquote)])
  end.

Definition _generate_broad_queries (event_name : string)
  : option (list (string * string)) :=
  keywords ← _extract_keywords event_name;
  match keywords with
  | [] => Some []
  | k0 :: ks =>
      Some [("broad", k0);
            ("very_broad", k0 +:+ " OR " +:+ match ks with k1 :: _ => k1 | [] => k0 end)]
  end.

(** [all_attendees] and [seen_usernames]. *)
Record Found : Type := mk_found {
  all_attendees : list ResearchAttendee;
  seen_usernames : gset string
}.

(** The loop [for attendee in attendees] of each phase. *)
Definition collect (max_results : Z) (attendees : list ResearchAttendee)
  (found : Found) : Found :=
  foldl (fun found attendee =>
           if decide ((username attendee ∉ seen_usernames found) ∧
                      len (all_attendees found) < max_results)
           then mk_found (all_attendees found ++ [attendee])
                         ({[username attendee]} ∪ seen_usernames found)
           else found)
        found attendees.

Definition note_issue (f : Fetch) : M unit :=
  modify (fun st => mk_st (twitter_client st) (world st)
                          (issued st ++ [f]) (produced st)).

Definition note_result (l : list ResearchAttendee) : M unit :=
  modify (fun st => mk_st (twitter_client st) (world st)
                          (issued st) (produced st ++ l)).

(** The loop [for query_type, query in queries] of a phase; [hint] is the
    result count the phase asks for. *)
Fixpoint run_phase (phase : nat) (hint : Z) (event_name : string)
  (max_results : Z) (queries : list (string * string)) (found : Found)
  : M Found :=
  match queries with
  | [] => ret found
  | (query_type, query) :: queries' =>
      if len (all_attendees found) >=? max_results then ret found
      else
        (note_issue (mk_fetch phase query hint (length (all_attendees found)));;;
         attendees <- _search_and_process query event_name hint;;
         note_result attendees;;;
         run_phase phase hint event_name max_results queries'
                   (collect max_results attendees found))%run
  end.

(** The three phases, before the final sort. *)
Definition find_unsorted (event_name : string) (event_date : option string)
  (max_results : Z) : M Found :=
  ((* PHASE 1: Exact matches *)
   let exact_queries := _generate_exact_queries event_name event_date in
   found <- run_phase 1 (max_results * 3) event_name max_results
                      (take 3 exact_queries) (mk_found [] ∅);;
   (* PHASE 2: Smart keyword expansion (ONLY IF NEEDED) *)
   found <- (if len (all_attendees found) <? max_results
             then keyword_queries <- lift (_generate_smart_keyword_queries event_name);;
                  run_phase 2 (max_results * 2) event_name max_results
                            (take 3 keyword_queries) found
             else ret found);;
   (* PHASE 3: Broad search (LAST RESORT) *)
   if len (all_attendees found) <? max_results
   then broad_queries <- lift (_generate_broad_queries event_name);;
        run_phase 3 max_results event_name max_results
                  (take 2 broad_queries) found
   else ret found)%run.

Definition _guaranteed_find_attendees (event_name : string)
  (event_date : option string) (max_results : Z) : M (list ResearchAttendee) :=
  (found <- find_unsorted event_name event_date max_results;;
   (* Sort by relevance *)
   ret (sort_desc Qltb relevance_score (all_attendees found)))%run.

Definition discover_attendees (event_name : string)
  (event_date : option string) (max_results : Z) : M (list ResearchAttendee) :=
  try_except
    (st <- get;;
     if negb (Twitter.is_operational (twitter_client st)) then ret []
     else
       relevant_attendees <-
         _guaranteed_find_attendees event_name event_date max_results;;
       (* Return exactly requested number *)
       ret (slice_to max_results relevant_attendees))%run
    [].

End Engine.

End AttendeeEngine.

(** ** [engines/event_engine.py] *)

Module EventEngine.
Import PyStr PyList PyTime Run.

Record ResearchEvent : Type := mk_event {
  event_name : string;
  exact_date : string;
  exact_venue : string;
  location : string;
  category : string;
  confidence_score : Q;
  source_url : string;
  posted_by : string;
  hype_score : Q;
  start_datetime : option datetime
}.

(** [event.hype_score = h] *)
Definition set_hype_score (h : Q) (event : ResearchEvent) : ResearchEvent :=
  mk_event (event_name event) (exact_date event) (exact_venue event)
           (location event) (category event) (confidence_score event)
           (source_url event) (posted_by event) h (start_datetime event).

(** A field of a provider record: missing, a scalar (as [str] renders it,
    empty when falsy), or a list. *)
Inductive Field : Type :=
| Absent
| Scalar (s : string)
| Items (l : list string).

Record EventData : Type := mk_data {
  title : Field; date : Field; address : Field; link : Field
}.

(** What [requests.get] and [response.json()] give: an exception, or a
    status code with [data['events_results']] ([None] when the key is
    missing or its value falsy). *)
Inductive SerpResponse : Type :=
| SerpRaised
| SerpStatus (status_code : Z) (events_results : option (list EventData)).

(** The search provider, the clock and the two library parsers. *)
Class Serp : Type := {
  World : Type;
  (** [datetime.now()] *)
  now : World -> datetime * World;
  (** [requests.get("https://serpapi.com/search", params={"q": query, ...})] *)
  requests_get : string -> World -> SerpResponse * World;
  (** [json.loads] of an object with string values; [None] when it raises
      or the value is no such object. *)
  json_loads : string -> option (gmap string string);
  (** [datetime.strptime(s, fmt)]; [None] is its [ValueError]. *)
  strptime : string -> string -> option datetime
}.

Record SmartEventEngine : Type := mk_engine {
  serp_api_key : option string
}.

(** [x] when it is truthy. *)
Definition truthy (x : option string) : option string :=
  match x with
  | Some s => if is_empty s then None else Some s
  | None => None
  end.

Definition _safe_extract (field : Field) : string :=
  match field with
  | Items (x :: _) => x
  | Items [] => EmptyString
  | Scalar s => s
  | Absent => EmptyString
  end.

(** [event_data.get(k, default)] *)
Definition get_default (field : Field) (default : string) : Field :=
  match field with
  | Absent => Scalar default
  | _ => field
  end.

Definition _extract_venue (address : string) : string :=
  if is_empty address then "Various Venues"
  else
    let venue := strip (hd EmptyString (split_on "," address)) in
    if (3 <? String.length venue)%nat then venue else "Various Venues".

Definition _extract_location (address : string) : string :=
  if is_empty address then "Location not specified"
  else
    let parts := split_on "," address in
    if (1 <? length parts)%nat then strip (List.last parts EmptyString)
    else address.

Definition categories_table : list (string * list string) :=
  [("music", ["concert"; "music"; "dj"; "band"; "live music"]);
   ("sports", ["sports"; "game"; "match"; "tournament"]);
   ("arts", ["art"; "theater"; "exhibition"; "gallery"]);
   ("food", ["food"; "drink"; "culinary"; "wine"]);
   ("festival", ["festival"; "cultural"]);
   ("conference", ["conference"; "summit"; "workshop"])].

Definition _classify_event_type (text : string) : string :=
  if is_empty text then "other"
  else
    let text_lower := lower text in
    match List.find (fun '(category, keywords) =>
                       existsb (fun keyword => contains keyword text_lower) keywords)
                    categories_table with
    | Some (category, _) => category
    | None => "other"
    end.

Definition lit_i (s : string) : pattern :=
  (fun c => One (is_char_i c)) <$> list_ascii_of_string s.

(** The patterns of [_clean_event_name], compiled with [re.IGNORECASE]:
    [\s+at\s+.+$], [\s+in\s+.+$], [\s*-\s*.+$], [\s*\|.*$], [\s*@\s*.+$]. *)
Definition patterns_to_remove : list pattern :=
  [plus is_space ++ lit_i "at" ++ plus is_space ++ plus is_dot ++ [Eos];
   plus is_space ++ lit_i "in" ++ plus is_space ++ plus is_dot ++ [Eos];
   [Many0 is_space] ++ lit_i "-" ++ [Many0 is_space] ++ plus is_dot ++ [Eos];
   [Many0 is_space] ++ lit_i "|" ++ [Many0 is_dot; Eos];
   [Many0 is_space] ++ lit_i "@" ++ [Many0 is_space] ++ plus is_dot ++ [Eos]].

Definition _clean_event_name (title : string) : string :=
  if is_empty title then "Event"
  else
    let clean_name :=
      fold_left (fun clean_name pattern => sub pattern EmptyString clean_name)
                patterns_to_remove title in
    let clean_name := strip (sub (plus is_space) " " clean_name) in
    if is_empty clean_name then title else clean_name.

Definition generic_names : list string :=
  ["event"; "events"; "unknown"; "unknown event"].

Definition _is_valid_event (event : ResearchEvent) : bool :=
  if is_empty (event_name event)
     || (String.length (strip (event_name event)) <? 3)%nat
  then false
  else if bool_decide (lower (event_name event) ∈ generic_names) then false
  else true.

(** [None] is the [IndexError] of [event.exact_date.split()[0]]. *)
Definition _create_event_key (event : ResearchEvent) : option string :=
  let normalized_name := sub [One not_word_space] EmptyString (lower (event_name event)) in
  let normalized_name := strip (sub (plus is_space) " " normalized_name) in
  date_part ← (if is_empty (exact_date event) then Some "nodate"
               else head (split_ws (exact_date event)));
  Some (normalized_name +:+ "_" +:+ date_part).

Definition hype_keywords : list string :=
  ["festival"; "concert"; "championship"; "tournament"; "expo";
   "summit"; "conference"; "awards"; "gala"; "premiere"].

Definition prestigious_venues : list string :=
  ["stadium"; "arena"; "center"; "garden"; "hall"].

Definition category_weights : gmap string Q :=
  list_to_map [("music", 3 # 10); ("festival", 4 # 10); ("sports", 35 # 100);
               ("conference", 2 # 10); ("arts", 25 # 100); ("food", 15 # 100)].

(** [for w in words: if w in text: score += step] *)
Definition add_matches (words : list string) (text : string) (step score : Q) : Q :=
  fold_left (fun score w => if contains w text then (score + step)%Q else score)
            words score.

Definition _calculate_hype_score (event : ResearchEvent) : Q :=
  let score := 0%Q in
  let name_lower := lower (event_name event) in
  let score := add_matches hype_keywords name_lower (1 # 10) score in
  let venue_lower := lower (exact_venue event) in
  let score := add_matches prestigious_venues venue_lower (15 # 100) score in
  let score := (score + default (1 # 10) (category_weights !! category event))%Q in
  Qmin 1 score.

Definition _score_events_by_hype (events : list ResearchEvent) : list ResearchEvent :=
  let scored_events :=
    (fun event => set_hype_score (_calculate_hype_score event) event) <$> events in
  sort_desc Qltb hype_score scored_events.

Definition month_abbrs : list string :=
  ["jan"; "feb"; "mar"; "apr"; "may"; "jun"; "jul"; "aug"; "sep"; "oct";
   "nov"; "dec"].

(** The [months] dictionary, in its insertion order. *)
Definition months : list (string * Z) :=
  [("jan", 1); ("january", 1); ("feb", 2); ("february", 2);
   ("mar", 3); ("march", 3); ("apr", 4); ("april", 4);
   ("may", 5); ("jun", 6); ("june", 6); ("jul", 7); ("july", 7);
   ("aug", 8); ("august", 8); ("sep", 9); ("sept", 9); ("september", 9);
   ("oct", 10); ("october", 10); ("nov", 11); ("november", 11);
   ("dec", 12); ("december", 12)].

(** [re.search(r'(\d{1,2})', s)] and its group. *)
Definition day_match (s : string) : option string :=
  match search [One is_digit; Opt is_digit] s with
  | Some (_, m, _) => Some m
  | None => None
  end.

(** [re.search(r'20(\d{2})', s)] and its whole match. *)
Definition year_match (s : string) : option string :=
  match search (lit_i "20" ++ [One is_digit; One is_digit]) s with
  | Some (_, m, _) => Some m
  | None => None
  end.

(** The date portion of ["Sat, Nov 22, 8 – 11 PM"]. *)
Definition date_part (clean_str : string) : option string :=
  p ← split_on "," clean_str !! 1%nat;
  p ← head (split_on en_dash p);
  p ← head (split_on "PM" p);
  p ← head (split_on "AM" p);
  Some (strip p).

(** The loop over [months.items()] of [_parse_date_string].  The source
    reads the clock twice, for the current year and for the comparison; the
    two readings are taken to be one instant, [now]. *)
Fixpoint find_month_day (now : datetime) (clean_str : string)
  (table : list (string * Z)) : option datetime :=
  match table with
  | [] => None
  | (month_name, month_num) :: table' =>
      if contains month_name (lower clean_str) then
        match day_match clean_str with
        | Some m =>
            let day := int_of_digits m in
            (* Use current year or next year if month has passed *)
            let current_year := year now in
            proposed_date ← mk_date current_year month_num day;
            (* If the date is in the past, assume next year *)
            if ltb proposed_date now
            then replace_year proposed_date (current_year + 1)
            else Some proposed_date
        | None => find_month_day now clean_str table'
        end
      else find_month_day now clean_str table'
  end.

(** [_parse_date_string(date_str)] when the clock reads [now]; [None] is
    both the [None] of the source and its caught exceptions. *)
Definition _parse_date_string (now : datetime) (date_str : string)
  : option datetime :=
  if is_empty date_str then None
  else
    let clean_str := strip date_str in
    clean_str ←
      (if contains "," clean_str
          && existsb (fun month => contains month (lower clean_str)) month_abbrs
       then date_part clean_str
       else Some clean_str);
    find_month_day now clean_str months.

Section Engine.
Context `{Serp}.

(** The dictionary-like string a structured date is rendered as. *)
Definition loads_dict (s : string) : option (gmap string string) :=
  if startswith s "{" then json_loads (replace "'" dquote s) else None.

Definition _parse_serpapi_date (now : datetime) (date_info : string)
  : option datetime :=
  if is_empty date_info then None
  else
    let date_str :=
      date_dict ← loads_dict date_info;
      (* Try start_date first, then when *)
      or_else (truthy (date_dict !! "start_date")) (truthy (date_dict !! "when")) in
    match date_str with
    | Some date_str => _parse_date_string now date_str
    | None => _parse_date_string now date_info
    end.

Definition _clean_date_display (raw_date : string) : string :=
  if is_empty raw_date then "Date not specified"
  else
    match loads_dict raw_date with
    | Some date_dict =>
        (* Prefer 'when' field as it's more descriptive *)
        match truthy (date_dict !! "when"), truthy (date_dict !! "start_date") with
        | Some w, _ => w
        | None, Some sd => "Starts: " +:+ sd
        | None, None => raw_date
        end
    | None => raw_date
    end.

Definition _parse_event_data_clean (event_data : EventData) : option ResearchEvent :=
  let title := _safe_extract (title event_data) in
  let raw_date := _safe_extract (get_default (date event_data) "Date not specified") in
  let address := _safe_extract (get_default (address event_data) EmptyString) in
  let link := _safe_extract (get_default (link event_data) EmptyString) in
  if is_empty title || String.eqb title "Unknown Event" then None
  else
    let clean_date_display := _clean_date_display raw_date in
    let clean_name := _clean_event_name title in
    Some (mk_event clean_name clean_date_display (_extract_venue address)
                   (_extract_location address) (_classify_event_type clean_name)
                   (8 # 10) link "Event Search" (5 # 10) None).

Definition user_formats : list string :=
  ["%Y-%m-%d"; "%m/%d/%Y"; "%d/%m/%Y"; "%B %d, %Y"; "%b %d, %Y"; "%m-%d-%Y"].

(** The loop over [months.items()] of [_parse_user_date]. *)
Fixpoint find_user_month (current_year : Z) (clean_date : string)
  (table : list (string * Z)) : option datetime :=
  match table with
  | [] => None
  | (month_name, month_num) :: table' =>
      if contains month_name clean_date then
        let day := match day_match clean_date with
                   | Some m => int_of_digits m
                   | None => 1
                   end in
        let year := match year_match clean_date with
                    | Some m => int_of_digits m
                    | None => current_year
                    end in
        mk_date year month_num day
      else find_user_month current_year clean_date table'
  end.

Definition _parse_user_date (now : datetime) (date_str : string)
  : option datetime :=
  match list_find (fun fmt => is_Some (strptime (strip date_str) fmt)) user_formats with
  | Some (_, fmt) => strptime (strip date_str) fmt
  | None => find_user_month (year now) (strip (lower date_str)) months
  end.

(** The four queries of one month of the range. *)
Definition month_queries (location : string) (current : datetime) : list string :=
  let month_year := fmt_B current +:+ " " +:+ fmt_Y current in
  let month_name := fmt_B current in
  let current_year := str_of_int (year current) in
  ["events " +:+ location +:+ " " +:+ month_year;
   month_name +:+ " events " +:+ location +:+ " " +:+ current_year;
   "upcoming events " +:+ location +:+ " " +:+ month_year;
   "things to do " +:+ location +:+ " " +:+ month_name +:+ " " +:+ current_year].

(** Move to next month; [None] is the [ValueError] of [replace]. *)
Definition next_month (current : datetime) : option datetime :=
  if month current =? 12 then replace_year_month current (year current + 1) 1
  else replace_month current (month current + 1).

(** [while current <= end_dt], with the number of rounds left. *)
Fixpoint month_loop (rounds : nat) (location : string)
  (current end_dt : datetime) : option (list string) :=
  if leb current end_dt then
    match rounds with
    | O => None
    | S rounds' =>
        next ← next_month current;
        rest ← month_loop rounds' location next end_dt;
        Some (month_queries location current ++ rest)
    end
  else Some [].

(** The months from [start_dt] to [end_dt], both included: the loop cannot
    go round more often. *)
Definition month_span (start_dt end_dt : datetime) : nat :=
  Z.to_nat (12 * (year end_dt - year start_dt) + (month end_dt - month start_dt) + 1).

Definition _build_date_specific_queries (location : string)
  (categories : list string) (start_dt end_dt : datetime) : option (list string) :=
  (* Generate queries for each month in range *)
  queries ← month_loop (month_span start_dt end_dt) location start_dt end_dt;
  let start_year := str_of_int (year start_dt) in
  (* Add specific date range queries *)
  let queries := queries ++
    ["events " +:+ location +:+ " " +:+ fmt_B start_dt +:+ " " +:+ fmt_d start_dt
       +:+ " to " +:+ fmt_B end_dt +:+ " " +:+ fmt_d end_dt +:+ " " +:+ fmt_Y end_dt;
     location +:+ " events " +:+ start_year;
     "upcoming events " +:+ location +:+ " " +:+ start_year] in
  (* Add category-specific queries *)
  let queries := queries ++
    mjoin ((fun category =>
              [category +:+ " events " +:+ location +:+ " " +:+ start_year;
               category +:+ " " +:+ location +:+ " " +:+ fmt_B start_dt +:+ " "
                 +:+ fmt_Y start_dt]) <$> categories) in
  (* Remove duplicates *)
  Some (dedup_first ∅ queries).

(** One call to the provider, kept for the statements only: its query and
    [len(all_events)] at the time of the call. *)
Record Fetch : Type := mk_fetch { f_query : string; f_have : nat }.

(** [issued], [produced] and [dated] are the trace of the run: the calls
    made, the valid events the calls gave back, and those of them that
    passed the date filter, in order.  No code reads them. *)
Record St : Type := mk_st {
  world : World;
  issued : list Fetch;
  produced : list ResearchEvent;
  dated : list ResearchEvent
}.

(** The state a run starts in: nothing on the trace yet. *)
Definition start (w : World) : St := mk_st w [] [] [].

Definition in_world {A} (f : World -> A * World) : M A :=
  fun st => let '(a, w) := f (world st) in
            (Some a, mk_st w (issued st) (produced st) (dated st)).

Definition note_issue (f : Fetch) : M unit :=
  modify (fun st => mk_st (world st) (issued st ++ [f]) (produced st) (dated st)).

Definition note_result (l : list ResearchEvent) : M unit :=
  modify (fun st => mk_st (world st) (issued st) (produced st ++ l) (dated st)).

Definition note_dated (event : ResearchEvent) : M unit :=
  modify (fun st => mk_st (world st) (issued st) (produced st) (dated st ++ [event])).

(** The body of the loop over the records of a response: the event of a
    record, when it parses and is valid. *)
Definition parse_valid (event_data : EventData) : option ResearchEvent :=
  event ← _parse_event_data_clean event_data;
  if _is_valid_event event then Some event else None.

(** The events of a response: parsed, valid, at most [limit] records read. *)
Definition events_of (limit : Z) (response : SerpResponse) : list ResearchEvent :=
  match response with
  | SerpStatus status_code (Some events_results) =>
      if status_code =? 200 then omap parse_valid (slice_to limit events_results)
      else []
  | _ => []
  end.

Definition _fetch_serpapi_events (query : string) (limit : Z)
  : M (list ResearchEvent) :=
  (response <- in_world (requests_get query);;
   ret (events_of limit response))%run.

(** [all_events] and [seen_events]. *)
Record Found : Type := mk_found {
  all_events : list ResearchEvent;
  seen_events : gset string
}.

(** STRICT DATE FILTERING *)
Definition in_date_range (start_dt end_dt : datetime)
  (event_start_dt : option datetime) : bool :=
  match event_start_dt with
  | Some dt => leb start_dt dt && leb dt end_dt
  | None => false
  end.

(** The loop [for event in events].  The clock is read once for each
    event, before its date is parsed. *)
Fixpoint filter_events (start_dt end_dt : datetime)
  (events : list ResearchEvent) (found : Found) : M Found :=
  match events with
  | [] => ret found
  | event :: events' =>
      (t <- in_world now;;
       (* Parse event date properly *)
       let event_start_dt := _parse_serpapi_date t (exact_date event) in
       found <-
         (if in_date_range start_dt end_dt event_start_dt then
            note_dated event;;;
            event_key <- lift (_create_event_key event);;
            if decide (event_key ∈ seen_events found) then ret found
            else ret (mk_found (all_events found ++ [event])
                               ({[event_key]} ∪ seen_events found))
          else ret found);;
       filter_events start_dt end_dt events' found)%run
  end.

(** The loop [for query in queries]. *)
Fixpoint fetch_loop (start_dt end_dt : datetime) (max_results : Z)
  (queries : list string) (found : Found) : M Found :=
  match queries with
  | [] => ret found
  | query :: queries' =>
      if len (all_events found) >=? max_results * 2 then ret found
      else
        (note_issue (mk_fetch query (length (all_events found)));;;
         events <- _fetch_serpapi_events query 10;;
         note_result events;;;
         found <- filter_events start_dt end_dt events found;;
         fetch_loop start_dt end_dt max_results queries' found)%run
  end.

Definition _fetch_events_with_date_filter (queries : list string)
  (start_dt end_dt : datetime) (max_results : Z) : M (list ResearchEvent) :=
  (found <- fetch_loop start_dt end_dt max_results queries (mk_found [] ∅);;
   ret (all_events found))%run.

Definition discover_events (self : SmartEventEngine) (location : string)
  (start_date end_date : string) (categories : list string) (max_results : Z)
  : M (list ResearchEvent) :=
  try_except
    (if bool_decide (truthy (serp_api_key self) = None) then ret []
     else
       (* Parse user's date range *)
       t <- in_world now;;
       let start_dt := _parse_user_date t start_date in
       t <- in_world now;;
       let end_dt := _parse_user_date t end_date in
       match start_dt, end_dt with
       | Some start_dt, Some end_dt =>
           (* Build date-specific queries *)
           date_queries <-
             lift (_build_date_specific_queries location categories start_dt end_dt);;
           (* Fetch events with date filtering *)
           filtered_events <-
             _fetch_events_with_date_filter date_queries start_dt end_dt max_results;;
           (* Score by hype *)
           let scored_events := _score_events_by_hype filtered_events in
           ret (slice_to max_results scored_events)
       | _, _ => ret []
       end)%run
    [].

End Engine.

End EventEngine.

(** ** Notions the statements use *)

Module Notions.
Import PyStr.

(** The string has no character but white space. *)
Definition all_space (s : string) : bool :=
  forallb is_space (list_ascii_of_string s).

(** The string has no character but punctuation, that is, characters that
    are neither word characters nor white space. *)
Definition all_punctuation (s : string) : bool :=
  forallb not_word_space (list_ascii_of_string s).

(** A canonical event name the validation has to refuse: empty, shorter
    than three characters, or a generic placeholder in any letter case. *)
Definition refused_name (name : string) : Prop :=
  name = EmptyString \/ (String.length name < 3)%nat \/
  lower name ∈ EventEngine.generic_names.

(** Substituting [r] for every character of the class [p]. *)
Fixpoint map_class (p : ascii -> bool) (r : ascii) (s : string) : string :=
  match s with
  | EmptyString => EmptyString
  | String c s' => String (if p c then r else c) (map_class p r s')
  end.

(** The words of the cleaned event name that are keywords: no stop words,
    more than two characters. *)
Definition candidates (event_name : string) : list string :=
  filter (fun word => (lower word ∉ AttendeeEngine.stop_words) ∧
                      (2 < String.length word)%nat)
         (split_ws (sub [One not_word_space] " " event_name)).

(** Deduplication as the specification words it: going through the records
    in order, a record whose key was already seen is rejected, any other
    record is accepted and its key registered. *)
Section FirstSeen.
Context {A K : Type} `{EqDecision K} (key : A -> K).

Fixpoint first_seen_from (seen : list K) (l : list A) : list A :=
  match l with
  | [] => []
  | x :: l' =>
      if decide (key x ∈ seen) then first_seen_from seen l'
      else x :: first_seen_from (key x :: seen) l'
  end.

Definition first_seen (l : list A) : list A := first_seen_from [] l.

End FirstSeen.

(** Records can be compared, so that the distinct ones can be counted. *)
#[export] Instance Q_eq_dec : EqDecision Q.
Proof. solve_decision. Defined.
#[export] Instance datetime_eq_dec : EqDecision PyTime.datetime.
Proof. solve_decision. Defined.
#[export] Instance event_eq_dec : EqDecision EventEngine.ResearchEvent.
Proof. solve_decision. Defined.
#[export] Instance attendee_eq_dec : EqDecision AttendeeEngine.ResearchAttendee.
Proof. solve_decision. Defined.

(** The number of distinct records of a list. *)
Definition distinct {A} `{EqDecision A} (l : list A) : nat :=
  length (remove_dups l).

(** The name part of a deduplication key: the name in lower case, without
    punctuation, its white space collapsed. *)
Definition normalized_name (name : string) : string :=
  strip (sub (plus is_space) " " (sub [One not_word_space] EmptyString (lower name))).

(** The date part of a deduplication key: the first token of the display
    date, or ["nodate"] for an empty date; a date of white space has none. *)
Definition date_token (exact_date : string) : option string :=
  if is_empty exact_date then Some "nodate" else head (split_ws exact_date).

(** The shape of a date text around its day number: no digit before the
    number, one or two digits, no digit right after. *)
Definition no_digit (s : string) : bool :=
  forallb (fun c => negb (is_digit c)) (list_ascii_of_string s).



(** Midnight of a day. *)
Definition midnight (y m d : Z) : PyTime.datetime :=
  PyTime.mk_datetime y m d 0 0 0 0.

(** What the date parser makes of a month and a day when the clock reads
    [now]: the day in the year of [now], or in the next year when that day
    lies before [now]; [None] when there is no such day. *)
Definition resolve (now : PyTime.datetime) (m d : Z) : option PyTime.datetime :=
  proposed_date ← PyTime.mk_date (PyTime.year now) m d;
  if PyTime.ltb proposed_date now
  then PyTime.replace_year proposed_date (PyTime.year now + 1)
  else Some proposed_date.


(** A score of the unit interval. *)
Definition unit_score (q : Q) : Prop := (0 <= q <= 1)%Q.

End Notions.

(** ** What holds along a run *)

Module Invariants.
Import PyList Notions.

Section Attendees.
Import AttendeeEngine.
Context `{Twitter.Api}.

(** The accumulated attendees are the first [max_results] of the attendees
    produced so far, one per user name, and [seen_usernames] holds their
    names. *)
Definition found_inv (max_results : Z) (found : Found)
  (produced : list ResearchAttendee) : Prop :=
  all_attendees found
    = take (Z.to_nat max_results) (first_seen username produced) /\
  forall u, u ∈ seen_usernames found <-> u ∈ username <$> all_attendees found.

(** Every call was made while the target was not reached, and every
    attendee produced has a score of the unit interval. *)
Definition trace_inv (max_results : Z) (issued : list Fetch)
  (produced : list ResearchAttendee) : Prop :=
  Forall (fun f => Z.of_nat (f_have f) < max_results) issued /\
  Forall (fun a => unit_score (relevance_score a)) produced.

(** What a run of the attendee engine returns, read off its trace: the
    first [max_results] attendees of distinct user names, sorted by
    relevance, cut to [max_results]. *)
Definition result_of (max_results : Z) (produced : list ResearchAttendee)
  : list ResearchAttendee :=
  slice_to max_results
    (sort_desc Qltb relevance_score
       (take (Z.to_nat max_results) (first_seen username produced))).

End Attendees.

Section Events.
Import EventEngine.
Context `{Serp}.

(** The hype score written into the event. *)
Definition scored (event : ResearchEvent) : ResearchEvent :=
  set_hype_score (_calculate_hype_score event) event.

(** The accumulated events are the first of each key among the events that
    passed the date filter so far, [seen_events] holds their keys, and
    every such event had a key. *)
Definition e_found_inv (found : Found) (dated : list ResearchEvent) : Prop :=
  all_events found = first_seen _create_event_key dated /\
  (forall k, k ∈ seen_events found <->
             Some k ∈ _create_event_key <$> all_events found) /\
  Forall (fun event => is_Some (_create_event_key event)) dated.

(** Every call was made below the soft cap of twice the target. *)
Definition e_issued_inv (max_results : Z) (issued : list Fetch) : Prop :=
  Forall (fun f => Z.of_nat (f_have f) < max_results * 2) issued.

(** The events produced are valid, and those that passed the date filter
    are among them, in order. *)
Definition e_trace_inv (produced dated : list ResearchEvent) : Prop :=
  Forall (fun event => _is_valid_event event = true) produced /\
  dated `sublist_of` produced.

(** What a run of the event engine returns, read off its trace: the first
    event of each key among those that passed the date filter, scored,
    sorted by hype, cut to [max_results]. *)
Definition e_result_of (max_results : Z) (dated : list ResearchEvent)
  : list ResearchEvent :=
  slice_to max_results
    (_score_events_by_hype (first_seen _create_event_key dated)).

End Events.

End Invariants.

(** ** Further notions the statements use *)

Module Views.
Import PyTime.

(** What a check of the rate limiter makes of the entry of its endpoint:
    the answer and the entry stored back. *)
Definition checked (now : instant) (i : RateLimiter.LimitInfo)
  : bool * RateLimiter.LimitInfo :=
  let w := timedelta_minutes (RateLimiter.window_minutes i) in
  let reset := match RateLimiter.reset_time i with
               | Some r => r
               | None => now + w
               end in
  let '(rem, reset) := if reset <? now then (RateLimiter.limit i, now + w)
                       else (RateLimiter.remaining i, reset) in
  if 0 <? rem
  then (true, RateLimiter.mk_limit (RateLimiter.limit i) (rem - 1) (Some reset)
                (RateLimiter.window_minutes i))
  else (false, RateLimiter.mk_limit (RateLimiter.limit i) rem (Some reset)
                 (RateLimiter.window_minutes i)).

(** What every attendee made from a tweet looks like: the user name behind
    an at sign, the fixed confidence, a relevance from the threshold to one,
    a post of a hundred characters at most (and three dots), and one of the
    three kinds of engagement. *)
Definition attendee_shape (a : AttendeeEngine.ResearchAttendee) : Prop :=
  String.prefix "@" (AttendeeEngine.username a) = true /\
  AttendeeEngine.confidence_score a = 7 # 10 /\
  (AttendeeEngine.relevance_threshold <= AttendeeEngine.relevance_score a <= 1)%Q /\
  (String.length (AttendeeEngine.post_content a) <= 103)%nat /\
  AttendeeEngine.engagement_type a
    ∈ ["confirmed_attendance"; "excited"; "discussing"].

(** The four signals the relevance score looks for in a tweet: the event
    name, a keyword, a phrase of engagement, a word of the event context. *)
Definition shows_signal (tweet_text event_name : string)
  (keywords : list string) : bool :=
  let text_lower := PyStr.lower tweet_text in
  PyStr.contains (PyStr.lower event_name) text_lower
  || (0 <? AttendeeEngine.count_in keywords text_lower)
  || AttendeeEngine.any_in
       ["attending"; "going to"; "see you at"; "excited for"; "can't wait for"]
       text_lower
  || AttendeeEngine.any_in ["event"; "concert"; "festival"; "show"; "party"]
       text_lower.

(** What every event made from a provider record looks like, apart from
    its hype score: a name and a date text that are not empty, a venue of
    more than three characters, one of the seven categories, the fixed
    confidence and source, and no start instant. *)
Definition event_shape (event : EventEngine.ResearchEvent) : Prop :=
  EventEngine.event_name event <> EmptyString /\
  EventEngine.exact_date event <> EmptyString /\
  (3 < String.length (EventEngine.exact_venue event))%nat /\
  EventEngine.category event
    ∈ ["music"; "sports"; "arts"; "food"; "festival"; "conference"; "other"] /\
  EventEngine.confidence_score event = 8 # 10 /\
  EventEngine.posted_by event = "Event Search" /\
  EventEngine.start_datetime event = None.

(** The string without its characters of the class [p]. *)
Fixpoint drop_class (p : ascii -> bool) (s : string) : string :=
  match s with
  | EmptyString => EmptyString
  | String c s' => if p c then drop_class p s' else String c (drop_class p s')
  end.

End Views.

(** ** Two small providers, for the examples *)

Module Mock.
Import PyTime.

(** A search provider that answers its [n]-th call with one event named
    after [n], dated ["Nov 15"], while the clock stands at noon of
    2024-10-05; [strptime] knows the two ends of November 2024. *)
#[export] Instance serp : EventEngine.Serp := {|
  EventEngine.World := nat;
  EventEngine.now := fun w => (mk_datetime 2024 10 5 12 0 0 0, w);
  EventEngine.requests_get := fun query w =>
    (EventEngine.SerpStatus 200
       (Some [EventEngine.mk_data
                (EventEngine.Scalar ("Jazz Night " +:+ PyStr.str_of_int (Z.of_nat w)))
                (EventEngine.Scalar "Nov 15")
                (EventEngine.Items ["City Arena, NYC"])
                EventEngine.Absent]),
     S w);
  EventEngine.json_loads := fun _ => None;
  EventEngine.strptime := fun s fmt =>
    if String.eqb fmt "%Y-%m-%d" then
      if String.eqb s "2024-11-01" then Some (mk_datetime 2024 11 1 0 0 0 0)
      else if String.eqb s "2024-11-30" then Some (mk_datetime 2024 11 30 0 0 0 0)
      else None
    else None
|}.

(** A social-search provider that answers every call with the same two
    tweets of two users. *)
#[export] Instance api : Twitter.Api := {|
  Twitter.World := nat;
  Twitter.clock := fun w => Z.of_nat w;
  Twitter.search_recent_tweets := fun query max_results w =>
    (Some (Twitter.mk_response
             (Some [Twitter.mk_tweet 1 10 "going to Jazz Fest" (Twitter.AtText "today");
                    Twitter.mk_tweet 2 11 "Jazz fest show" (Twitter.AtText "today")])
             (Some [Twitter.mk_user 10 "bob" "Bob" None None None None;
                    Twitter.mk_user 11 "al" "Al" None None None None])),
     S w)
|}.

Definition client : Twitter.TwitterClient := Twitter.mk_client true 60 0 0.

End Mock.

(** A search provider whose [json] reads every structured date as the same
    dictionary, with a display text and a start date that differ; it is no
    instance, so that it is named where it is meant. *)
Module MockDict.
Import PyTime.

Definition serp : EventEngine.Serp := {|
  EventEngine.World := unit;
  EventEngine.now := fun w => (mk_datetime 2024 10 5 12 0 0 0, w);
  EventEngine.requests_get := fun query w => (EventEngine.SerpRaised, w);
  EventEngine.json_loads := fun _ =>
    Some (<["when" := "Fri, Nov 15, 8 PM"]> (<["start_date" := "Dec 1"]> ∅));
  EventEngine.strptime := fun _ _ => None
|}.

End MockDict.

(** * Properties *)

(** ** The rate limiter *)

Module RateLimiterFacts.
Import PyTime RateLimiter.

Lemma check_unconfigured (self : TwitterRateLimiter) (now : instant) (endpoint : string) :
  rate_limits self !! endpoint = None ->
  check_rate_limit now endpoint self = (true, self).
Proof. intros Hnone. unfold check_rate_limit. now rewrite Hnone. Qed.

(** One permitted call inside the window takes one unit of the budget and
    leaves the reset instant alone. *)
Lemma check_within (m : gmap string LimitInfo) (endpoint : string)
  (lim r reset w now : Z) :
  now <= reset -> 0 < r ->
  check_rate_limit now endpoint
    (mk_limiter (<[endpoint := mk_limit lim r (Some reset) w]> m))
  = (true, mk_limiter (<[endpoint := mk_limit lim (r - 1) (Some reset) w]> m)).
Proof.
  intros Hnow Hr. unfold check_rate_limit. cbn [rate_limits].
  rewrite lookup_insert_eq. cbn.
  destruct (Z.ltb_spec reset now) as [Hlt | _]; [lia |].
  destruct (Z.ltb_spec 0 r) as [_ | Hle]; [| lia].
  now rewrite insert_insert_eq.
Qed.

Lemma acquire_within (m : gmap string LimitInfo) (endpoint : string)
  (lim reset w : Z) (times : list instant) :
  Forall (fun t => t <= reset) times ->
  forall r, Z.of_nat (length times) <= r ->
  acquire_all endpoint times
    (mk_limiter (<[endpoint := mk_limit lim r (Some reset) w]> m))
  = (repeat true (length times),
     mk_limiter (<[endpoint := mk_limit lim (r - Z.of_nat (length times)) (Some reset) w]> m)).
Proof.
  induction 1 as [| t times Ht _ IH]; intros r Hr.
  - cbn. now rewrite Z.sub_0_r.
  - cbn [acquire_all length repeat] in *.
    rewrite check_within by lia.
    rewrite IH by lia.
    do 3 f_equal. f_equal. lia.
Qed.

(** A call on a limit whose remaining count is zero is denied and keeps the
    window. *)
Lemma check_exhausted (m : gmap string LimitInfo) (endpoint : string)
  (lim reset w now : Z) :
  now <= reset ->
  check_rate_limit now endpoint
    (mk_limiter (<[endpoint := mk_limit lim 0 (Some reset) w]> m))
  = (false, mk_limiter (<[endpoint := mk_limit lim 0 (Some reset) w]> m)).
Proof.
  intros Hnow. unfold check_rate_limit. cbn [rate_limits].
  rewrite lookup_insert_eq. cbn.
  destruct (Z.ltb_spec reset now) as [Hlt | _]; [lia |].
  rewrite Z.ltb_irrefl. now rewrite insert_insert_eq.
Qed.

(** A call after the reset instant opens a new window with the full budget. *)
Lemma check_after_reset (m : gmap string LimitInfo) (endpoint : string)
  (lim r reset w now : Z) :
  reset < now -> 0 < lim ->
  check_rate_limit now endpoint
    (mk_limiter (<[endpoint := mk_limit lim r (Some reset) w]> m))
  = (true, mk_limiter (<[endpoint := mk_limit lim (lim - 1)
                                      (Some (now + timedelta_minutes w)) w]> m)).
Proof.
  intros Hnow Hlim. unfold check_rate_limit. cbn [rate_limits].
  rewrite lookup_insert_eq. cbn.
  destruct (Z.ltb_spec reset now) as [_ | Hle]; [| lia].
  destruct (Z.ltb_spec 0 lim) as [_ | Hle]; [| lia].
  now rewrite insert_insert_eq.
Qed.

(** The first call on a fresh limiter starts the search window. *)
Lemma check_first_search (t0 : instant) :
  check_rate_limit t0 "search_recent" init
  = (true, mk_limiter (<["search_recent" :=
                           mk_limit 60 59 (Some (t0 + timedelta_minutes 15)) 15]>
                         (rate_limits init))).
Proof.
  unfold check_rate_limit.
  replace (rate_limits init !! "search_recent") with (Some (mk_limit 60 60 None 15))
    by reflexivity.
  cbn [reset_time window_minutes limit remaining].
  destruct (Z.ltb_spec (t0 + timedelta_minutes 15) t0) as [Hlt | _].
  - unfold timedelta_minutes in Hlt. lia.
  - reflexivity.
Qed.

(** C6: on a fresh limiter, with every clock reading of the first 61 calls
    on the search endpoint (capacity 60, window of 15 minutes) inside the
    window the first call opens, the first 60 calls are allowed and the 61st
    is denied; a call after the reset instant of that window is allowed
    again and leaves 59 calls remaining. *)
Theorem search_window_sixty_then_denied
  (t0 : instant) (times : list instant) (t61 t' : instant) :
  length times = 59%nat ->
  Forall (fun t => t <= t0 + timedelta_minutes 15) (times ++ [t61]) ->
  t0 + timedelta_minutes 15 < t' ->
  exists l60 l61 l62 : TwitterRateLimiter,
    acquire_all "search_recent" (t0 :: times) init = (repeat true 60, l60) /\
    check_rate_limit t61 "search_recent" l60 = (false, l61) /\
    check_rate_limit t' "search_recent" l61 = (true, l62) /\
    remaining <$> rate_limits l62 !! "search_recent" = Some 59 /\
    limit <$> rate_limits l62 !! "search_recent" = Some 60.
Proof.
  intros Hlen Hall Hlate.
  apply Forall_app in Hall as [Htimes Ht61].
  apply Forall_inv in Ht61.
  eexists _, _, _.
  cbn [acquire_all]. rewrite check_first_search.
  rewrite (acquire_within _ _ _ _ _ _ Htimes) by lia.
  rewrite Hlen. cbn [Z.of_nat Pos.of_succ_nat Pos.succ Z.sub Z.add Z.opp Z.pos_sub Z.succ_double Z.pred_double Pos.pred_double Z.double].
  split; [reflexivity |].
  rewrite check_exhausted by assumption.
  split; [reflexivity |].
  rewrite check_after_reset by lia.
  split; [reflexivity |].
  cbn [rate_limits]. rewrite lookup_insert_eq. now cbn.
Qed.

Lemma search_window_witness :
  exists l60 l61 l62 : TwitterRateLimiter,
    acquire_all "search_recent" (0 :: repeat 5 59) init = (repeat true 60, l60) /\
    check_rate_limit 7 "search_recent" l60 = (false, l61) /\
    check_rate_limit 900000001 "search_recent" l61 = (true, l62) /\
    remaining <$> rate_limits l62 !! "search_recent" = Some 59 /\
    limit <$> rate_limits l62 !! "search_recent" = Some 60.
Proof.
  apply (search_window_sixty_then_denied 0 (repeat 5 59) 7 900000001).
  - reflexivity.
  - refine (bool_decide_unpack _ _). vm_compute. exact I.
  - vm_compute. reflexivity.
Defined.

(** C9: on an endpoint the limiter has no window for, every attempt of any
    sequence of attempts is allowed, and the limiter, with the remaining
    count and reset instant of every configured window, is left as it was. *)
Theorem unconfigured_endpoint_always_allowed
  (self : TwitterRateLimiter) (endpoint : string) (times : list instant) :
  rate_limits self !! endpoint = None ->
  acquire_all endpoint times self = (repeat true (length times), self).
Proof.
  intros Hnone. induction times as [| t times IH]; [reflexivity |].
  cbn [acquire_all length repeat].
  rewrite check_unconfigured by assumption. now rewrite IH.
Qed.

Lemma unconfigured_endpoint_witness :
  acquire_all "like_tweet" [0; 5; 3] init = ([true; true; true], init).
Proof.
  apply (unconfigured_endpoint_always_allowed init "like_tweet" [0; 5; 3]).
  reflexivity.
Defined.

End RateLimiterFacts.

(** ** Strings *)

Module PyStrFacts.
Import PyStr Notions.

Lemma lower_char_idem (c : ascii) : lower_char (lower_char c) = lower_char c.
Proof. destruct c as [[] [] [] [] [] [] [] []]; reflexivity. Qed.

Lemma lower_idem (s : string) : lower (lower s) = lower s.
Proof.
  induction s as [| c s IH]; [reflexivity |].
  cbn. now rewrite lower_char_idem, IH.
Qed.

Lemma length_lstrip (s : string) : (String.length (lstrip s) <= String.length s)%nat.
Proof.
  induction s as [| c s IH]; cbn; [lia |].
  destruct (is_space c); cbn; lia.
Qed.

Lemma length_rstrip (s : string) : (String.length (rstrip s) <= String.length s)%nat.
Proof.
  induction s as [| c s IH]; cbn; [lia |].
  destruct (is_space c && is_empty (rstrip s)); cbn; lia.
Qed.

Lemma length_strip (s : string) : (String.length (strip s) <= String.length s)%nat.
Proof.
  unfold strip. etransitivity; [apply length_rstrip | apply length_lstrip].
Qed.

Lemma is_empty_true (s : string) : is_empty s = true <-> s = EmptyString.
Proof. destruct s; cbn; split; congruence. Qed.

(** [split] reads a leading space as a separator and anything else as the
    first character of the first token. *)
Lemma split_ws_cons (c : ascii) (s : string) :
  split_ws (String c s) =
  if is_space c then split_ws s
  else String c (tokens s).1 :: (tokens s).2.
Proof.
  unfold split_ws. cbn [tokens].
  destruct (tokens s) as [t ts]. now destruct (is_space c).
Qed.

Lemma split_ws_nil (s : string) : split_ws s = [] <-> all_space s = true.
Proof.
  unfold all_space. induction s as [| c s IH]; [now cbn |].
  rewrite split_ws_cons. cbn [list_ascii_of_string forallb].
  destruct (is_space c); cbn [andb]; [exact IH |].
  split; discriminate.
Qed.

Lemma sub_one_class (p : ascii -> bool) (r : ascii) (s : string) :
  sub [One p] (String r EmptyString) s = map_class p r s.
Proof.
  unfold sub. induction s as [| c s IH]; [reflexivity |].
  cbn [sub_go match_here step map_class].
  destruct (p c); [| now rewrite IH].
  replace (String.length (String c s) - String.length s)%nat with 1%nat
    by (cbn [String.length]; lia).
  cbn. now rewrite IH.
Qed.

Lemma map_class_all_space (s : string) :
  all_space s = true -> map_class not_word_space " " s = s.
Proof.
  unfold all_space. induction s as [| c s IH]; [reflexivity |].
  cbn [list_ascii_of_string forallb map_class]. intros [Hc Hs]%andb_prop.
  rewrite (IH Hs). unfold not_word_space. rewrite Hc, orb_true_r. reflexivity.
Qed.

End PyStrFacts.

(** ** Keyword extraction *)

Module KeywordFacts.
Import PyStr Notions PyStrFacts AttendeeEngine.

Lemma extract_keywords_eq (event_name : string) :
  _extract_keywords event_name =
  match lower <$> candidates event_name with
  | (_ :: _) as keywords => Some keywords
  | [] => match split_ws event_name with
          | w :: _ => Some [lower w]
          | [] => None
          end
  end.
Proof.
  unfold _extract_keywords, candidates.
  now destruct (lower <$> filter _ _).
Qed.

Lemma candidates_all_space (event_name : string) :
  all_space event_name = true -> candidates event_name = [].
Proof.
  intros Hs. unfold candidates.
  rewrite sub_one_class, (map_class_all_space _ Hs).
  apply split_ws_nil in Hs. now rewrite Hs.
Qed.

Lemma lowercase_fmap (l : list string) : Forall (fun k => lower k = k) (lower <$> l).
Proof. apply Forall_fmap, Forall_forall. intros k _. apply lower_idem. Qed.

(** The function raises exactly on the names without a token. *)
Lemma extract_keywords_None (event_name : string) :
  _extract_keywords event_name = None <-> split_ws event_name = [].
Proof.
  rewrite extract_keywords_eq. split.
  - destruct (lower <$> candidates event_name); [| discriminate].
    now destruct (split_ws event_name).
  - intros Hs. rewrite candidates_all_space by now apply split_ws_nil.
    cbn. now rewrite Hs.
Qed.

(** The claim C10 has it that a name of punctuation only makes the fallback
    raise: the name ["!!!"] is of punctuation only, and the function returns
    the name itself as the only keyword. *)
Lemma punctuation_only_name_is_returned :
  all_punctuation "!!!" = true /\
  candidates "!!!" = [] /\
  _extract_keywords "!!!" = Some ["!!!"].
Proof. repeat split; reflexivity. Qed.

(** C10, amended: for an event name with at least one whitespace-delimited
    token, names of punctuation only included, keyword extraction returns a
    non-empty list of lowercase words, which is the lowercased first token
    of the original name when no word of the cleaned name is a keyword; for
    an event name with no token (empty, or white space only) the fallback
    indexes an empty list and the function raises. *)
Theorem extract_keywords_by_tokens (event_name : string) :
  match split_ws event_name with
  | first :: _ =>
      all_space event_name = false /\
      exists keywords : list string,
        _extract_keywords event_name = Some keywords /\
        keywords <> [] /\
        Forall (fun k => lower k = k) keywords /\
        keywords = match candidates event_name with
                   | [] => [lower first]
                   | words => lower <$> words
                   end
  | [] =>
      all_space event_name = true /\ _extract_keywords event_name = None
  end.
Proof.
  destruct (split_ws event_name) as [| first rest] eqn:Hsplit.
  - split; [now apply split_ws_nil | now apply extract_keywords_None].
  - split.
    { destruct (all_space event_name) eqn:Hs; [| reflexivity].
      apply split_ws_nil in Hs. congruence. }
    rewrite extract_keywords_eq, Hsplit.
    destruct (candidates event_name) as [| w ws] eqn:Hc; cbn [fmap list_fmap].
    + exists [lower first]. repeat split; [discriminate |].
      constructor; [apply lower_idem | constructor].
    + eexists. repeat split; [discriminate |].
      apply (lowercase_fmap (w :: ws)).
Qed.

End KeywordFacts.

(** ** Slices and the stable sort *)

Module PyListFacts.
Import PyList.

Lemma slice_to_prefix {A} (n : Z) (l : list A) : slice_to n l `prefix_of` l.
Proof. unfold slice_to. destruct (n <? 0); apply prefix_take. Qed.

Lemma length_slice_to {A} (n : Z) (l : list A) :
  0 <= n -> Z.of_nat (length (slice_to n l)) <= n.
Proof.
  intros Hn. unfold slice_to.
  destruct (Z.ltb_spec n 0) as [Hneg | _]; [lia |].
  rewrite length_take. lia.
Qed.

Lemma slice_to_nil {A} (n : Z) : slice_to n (@nil A) = [].
Proof. unfold slice_to. destruct (n <? 0); apply take_nil. Qed.

Lemma elem_of_slice_to {A} (n : Z) (l : list A) (x : A) :
  x ∈ slice_to n l -> x ∈ l.
Proof.
  intros Hx. destruct (slice_to_prefix n l) as [k ->].
  apply elem_of_app. now left.
Qed.

Section Sort.
Context {A K : Type} (ltb : K -> K -> bool) (key : A -> K).

Lemma insert_desc_perm (x : A) (l : list A) : insert_desc ltb key x l ≡ₚ x :: l.
Proof.
  induction l as [| y l IH]; [reflexivity |].
  cbn. destruct (ltb (key x) (key y)); [| reflexivity].
  rewrite IH. apply Permutation_swap.
Qed.

Lemma sort_desc_perm (l : list A) : sort_desc ltb key l ≡ₚ l.
Proof.
  induction l as [| x l IH]; [reflexivity |].
  cbn. now rewrite insert_desc_perm, IH.
Qed.

(** The order of the keys: asymmetric, and its complement transitive. *)
Hypothesis ltb_asym : forall a b, ltb a b = true -> ltb b a = false.
Hypothesis geb_trans :
  forall a b c, ltb a b = false -> ltb b c = false -> ltb a c = false.

Lemma insert_desc_sorted (x : A) (l : list A) :
  StronglySorted (fun a b => ltb (key a) (key b) = false) l ->
  StronglySorted (fun a b => ltb (key a) (key b) = false) (insert_desc ltb key x l).
Proof.
  induction 1 as [| y l Hl IH Hy]; cbn.
  - repeat constructor.
  - destruct (ltb (key x) (key y)) eqn:Hxy.
    + constructor; [exact IH |].
      rewrite insert_desc_perm. constructor; [now apply ltb_asym | exact Hy].
    + constructor; [now constructor |].
      constructor; [exact Hxy |].
      eapply Forall_impl; [exact Hy |]. intros z Hz. cbn in Hz. eauto.
Qed.

Lemma sort_desc_sorted (l : list A) :
  StronglySorted (fun a b => ltb (key a) (key b) = false) (sort_desc ltb key l).
Proof.
  induction l as [| x l IH]; cbn; [constructor | now apply insert_desc_sorted].
Qed.

(** Stability: a class of elements no two of which are strictly ordered
    keeps its order. *)
Context (P : A -> Prop) `{!forall x, Decision (P x)}.
Hypothesis P_tied : forall x y, P x -> P y -> ltb (key x) (key y) = false.

Lemma filter_insert_desc (x : A) (l : list A) :
  filter P (insert_desc ltb key x l) = filter P (x :: l).
Proof.
  induction l as [| y l IH]; [reflexivity |].
  cbn [insert_desc]. destruct (ltb (key x) (key y)) eqn:Hxy; [| reflexivity].
  rewrite (filter_cons _ y), IH, !(filter_cons _ x), (filter_cons _ y).
  destruct (decide (P y)) as [Py | Py]; [| reflexivity].
  destruct (decide (P x)) as [Px | Px]; [| reflexivity].
  rewrite (P_tied x y Px Py) in Hxy. discriminate.
Qed.

Lemma filter_sort_desc (l : list A) :
  filter P (sort_desc ltb key l) = filter P l.
Proof.
  induction l as [| x l IH]; [reflexivity |].
  cbn [sort_desc]. now rewrite filter_insert_desc, !filter_cons, IH.
Qed.

End Sort.

Lemma filter_prefix {A} (P : A -> Prop) `{!forall x, Decision (P x)} (l k : list A) :
  l `prefix_of` k -> filter P l `prefix_of` filter P k.
Proof. intros [r ->]. rewrite filter_app. now eexists. Qed.

Lemma StronglySorted_prefix {A} (R : A -> A -> Prop) (l k : list A) :
  l `prefix_of` k -> StronglySorted R k -> StronglySorted R l.
Proof. intros [r ->]. apply StronglySorted_app_1_l. Qed.

Lemma StronglySorted_weaken {A} (R R' : A -> A -> Prop) (l : list A) :
  (forall a b, R a b -> R' a b) -> StronglySorted R l -> StronglySorted R' l.
Proof.
  intros HR. induction 1 as [| x l _ IH Hx]; constructor; [exact IH |].
  eapply Forall_impl; [exact Hx | auto].
Qed.

Lemma Qltb_false (a b : Q) : Qltb a b = false <-> (b <= a)%Q.
Proof.
  unfold Qltb. rewrite negb_false_iff. apply Qle_bool_iff.
Qed.

Lemma Qltb_asym (a b : Q) : Qltb a b = true -> Qltb b a = false.
Proof.
  intros Hab. apply Qltb_false.
  destruct (Qlt_le_dec a b) as [Hlt | Hle]; [now apply Qlt_le_weak |].
  apply Qltb_false in Hle. congruence.
Qed.

Lemma Qgeb_trans (a b c : Q) : Qltb a b = false -> Qltb b c = false -> Qltb a c = false.
Proof. rewrite !Qltb_false. intros Hba Hcb. now apply Qle_trans with b. Qed.

#[export] Instance Qeq_decision (a b : Q) : Decision (a == b)%Q := Qeq_dec a b.

(** A list sorted by score and cut to [n]: the scores go down, and the
    elements of one score stand as they stood in the list. *)
Lemma top_scores {A} (score : A -> Q) (n : Z) (l : list A) :
  let out := slice_to n (sort_desc Qltb score l) in
  StronglySorted (fun a b => (score b <= score a)%Q) out /\
  (forall q : Q, filter (fun x => (score x == q)%Q) out
                 `prefix_of` filter (fun x => (score x == q)%Q) l) /\
  (forall x, x ∈ out -> x ∈ l) /\
  (length out <= length l)%nat.
Proof.
  cbn zeta. repeat split.
  - eapply StronglySorted_prefix; [apply slice_to_prefix |].
    eapply StronglySorted_weaken; [| apply (sort_desc_sorted Qltb score Qltb_asym Qgeb_trans)].
    intros a b Hab. now apply Qltb_false.
  - intros q.
    assert (Htied : forall x y, (score x == q)%Q -> (score y == q)%Q ->
                                Qltb (score x) (score y) = false).
    { intros x y Hx Hy. apply Qltb_false. rewrite Hx, Hy. apply Qle_refl. }
    rewrite <- (filter_sort_desc Qltb score (fun x => (score x == q)%Q) Htied l).
    apply filter_prefix, slice_to_prefix.
  - intros x Hx. apply elem_of_slice_to in Hx.
    now rewrite sort_desc_perm in Hx.
  - etransitivity; [apply prefix_length, slice_to_prefix |].
    now rewrite sort_desc_perm.
Qed.

End PyListFacts.

(** ** Reasoning about runs *)

Module RunFacts.
Import Run.

Section Rules.
Context {St : Type}.
Implicit Types (P E : St -> Prop).

Lemma triple_ret {A} (a : A) (Q : A -> St -> Prop) E :
  triple (Q a) (ret a) Q E.
Proof. intros st HQ. exact HQ. Qed.

Lemma triple_bind {A B} P (m : M A) (Q : A -> St -> Prop)
  (f : A -> M B) (R : B -> St -> Prop) E :
  triple P m Q E -> (forall a, triple (Q a) (f a) R E) ->
  triple P (bind m f) R E.
Proof.
  intros Hm Hf st HP. unfold bind. specialize (Hm st HP).
  destruct (m st) as [[a |] st']; [now apply Hf | exact Hm].
Qed.

Lemma triple_conseq {A} P P' (m : M A) (Q Q' : A -> St -> Prop) E E' :
  (forall st, P' st -> P st) ->
  (forall a st, Q a st -> Q' a st) ->
  (forall st, E st -> E' st) ->
  triple P m Q E -> triple P' m Q' E'.
Proof.
  intros HP HQ HE Hm st HP'. specialize (Hm st (HP st HP')).
  destruct (m st) as [[a |] st']; auto.
Qed.

Lemma triple_lift {A} (o : option A) (Q : A -> St -> Prop) E :
  triple (fun st => match o with Some a => Q a st | None => E st end) (lift o) Q E.
Proof. intros st H. exact H. Qed.

Lemma triple_modify (f : St -> St) (Q : unit -> St -> Prop) E :
  triple (fun st => Q tt (f st)) (modify f) Q E.
Proof. intros st H. exact H. Qed.

Lemma triple_get (Q : St -> St -> Prop) E :
  triple (fun st => Q st st) get Q E.
Proof. intros st H. exact H. Qed.

(** A computation under [try: ... except] always returns. *)
Lemma triple_try_except {A} P (m : M A) (a : A) (Q : A -> St -> Prop) E :
  triple P m Q (Q a) -> triple P (try_except m a) Q E.
Proof.
  intros Hm st HP. unfold try_except. specialize (Hm st HP).
  now destruct (m st) as [[x |] st'].
Qed.

Lemma try_except_returns {A} (m : M A) (a : A) (st : St) :
  exists x st', try_except m a st = (Some x, st').
Proof.
  unfold try_except. destruct (m st) as [[x |] st']; eauto.
Qed.

End Rules.

End RunFacts.

(** ** Deduplication by first occurrence *)

Module FirstSeenFacts.
Import Notions.

Section Facts.
Context {A K : Type} `{EqDecision K} (key : A -> K).

Lemma keys_first_seen_from (seen : list K) (l : list A) (k : K) :
  k ∈ key <$> first_seen_from key seen l <-> (k ∉ seen) /\ k ∈ key <$> l.
Proof.
  revert seen. induction l as [| x l IH]; intros seen; cbn.
  - rewrite elem_of_nil. tauto.
  - destruct (decide (key x ∈ seen)) as [Hin | Hout].
    + rewrite IH, elem_of_cons. split; [tauto |].
      intros [Hk [-> | Hl]]; tauto.
    + cbn. rewrite !elem_of_cons, IH, elem_of_cons. split.
      * intros [-> | [Hk Hl]]; tauto.
      * intros [Hk [-> | Hl]]; [tauto |].
        destruct (decide (k = key x)); tauto.
Qed.

Lemma first_seen_from_snoc (seen : list K) (l : list A) (x : A) :
  first_seen_from key seen (l ++ [x]) =
  first_seen_from key seen l ++
  (if decide (key x ∈ seen \/ key x ∈ key <$> l) then [] else [x]).
Proof.
  revert seen. induction l as [| y l IH]; intros seen; cbn.
  - rewrite (decide_ext (key x ∈ seen ∨ key x ∈ []) (key x ∈ seen)).
    + now destruct (decide (key x ∈ seen)).
    + rewrite elem_of_nil. tauto.
  - destruct (decide (key y ∈ seen)) as [Hin | Hout].
    + rewrite IH. f_equal. apply decide_ext.
      rewrite elem_of_cons. split; [tauto |].
      intros [Hs | [-> | Hl]]; tauto.
    + cbn. rewrite IH. do 2 f_equal. apply decide_ext.
      rewrite !elem_of_cons. tauto.
Qed.

Lemma first_seen_snoc (l : list A) (x : A) :
  first_seen key (l ++ [x]) =
  first_seen key l ++
  (if decide (key x ∈ key <$> first_seen key l) then [] else [x]).
Proof.
  unfold first_seen. rewrite first_seen_from_snoc. f_equal. apply decide_ext.
  rewrite keys_first_seen_from, elem_of_nil. tauto.
Qed.

Lemma first_seen_from_NoDup (seen : list K) (l : list A) :
  NoDup (key <$> first_seen_from key seen l).
Proof.
  revert seen. induction l as [| x l IH]; intros seen; cbn; [constructor |].
  destruct (decide (key x ∈ seen)); [apply IH |].
  cbn. constructor; [| apply IH].
  rewrite keys_first_seen_from, elem_of_cons. tauto.
Qed.

Lemma first_seen_NoDup (l : list A) : NoDup (key <$> first_seen key l).
Proof. apply first_seen_from_NoDup. Qed.

Lemma first_seen_from_sublist (seen : list K) (l : list A) :
  first_seen_from key seen l `sublist_of` l.
Proof.
  revert seen. induction l as [| x l IH]; intros seen; cbn; [constructor |].
  destruct (decide (key x ∈ seen)); [apply sublist_cons | apply sublist_skip]; apply IH.
Qed.

Lemma first_seen_sublist (l : list A) : first_seen key l `sublist_of` l.
Proof. apply first_seen_from_sublist. Qed.

Lemma elem_of_first_seen (l : list A) (x : A) : x ∈ first_seen key l -> x ∈ l.
Proof. intros Hx. eapply elem_of_sublist; [exact Hx | apply first_seen_sublist]. Qed.

(** A record that is kept is the first of its key. *)
Lemma first_seen_from_first (seen : list K) (l : list A) (e : A) :
  e ∈ first_seen_from key seen l ->
  (key e ∉ seen) /\
  exists l1 l2, l = l1 ++ e :: l2 /\ forall x, x ∈ l1 -> key x <> key e.
Proof.
  revert seen. induction l as [| y l IH]; intros seen; cbn.
  - intros He. now apply elem_of_nil in He.
  - destruct (decide (key y ∈ seen)) as [Hin | Hout].
    + intros He. destruct (IH _ He) as (Hk & l1 & l2 & -> & Hl1).
      split; [exact Hk |]. exists (y :: l1), l2. split; [reflexivity |].
      intros x [-> | Hx]%elem_of_cons; [congruence | now apply Hl1].
    + intros [-> | He]%elem_of_cons.
      * split; [exact Hout |]. exists [], l. split; [reflexivity |].
        intros x Hx. now apply elem_of_nil in Hx.
      * destruct (IH _ He) as (Hk & l1 & l2 & -> & Hl1).
        rewrite elem_of_cons in Hk.
        split; [tauto |]. exists (y :: l1), l2. split; [reflexivity |].
        intros x [-> | Hx]%elem_of_cons; [| now apply Hl1].
        intros Heq. apply Hk. now left.
Qed.

Lemma first_seen_first (l : list A) (e : A) :
  e ∈ first_seen key l ->
  exists l1 l2, l = l1 ++ e :: l2 /\ forall x, x ∈ l1 -> key x <> key e.
Proof. intros He. now apply first_seen_from_first in He as [_ He]. Qed.

Lemma first_seen_NoDup_list (l : list A) : NoDup (first_seen key l).
Proof. eapply NoDup_fmap_1, first_seen_NoDup. Qed.

End Facts.

End FirstSeenFacts.

(** ** Scores *)

Module ScoreFacts.
Import PyStr PyList Notions.

Lemma Qmin_unit (q : Q) : (0 <= q)%Q -> unit_score (Qmin 1 q).
Proof.
  intros Hq. split.
  - apply Q.min_glb; [discriminate | exact Hq].
  - apply Q.le_min_l.
Qed.

Lemma Qplus_nonneg (a b : Q) : (0 <= a)%Q -> (0 <= b)%Q -> (0 <= a + b)%Q.
Proof. intros Ha Hb. lra. Qed.

Lemma add_matches_nonneg (words : list string) (text : string) (step score : Q) :
  (0 <= step)%Q -> (0 <= score)%Q ->
  (0 <= EventEngine.add_matches words text step score)%Q.
Proof.
  intros Hstep. unfold EventEngine.add_matches.
  revert score. induction words as [| w words IH]; intros score Hscore; cbn.
  - exact Hscore.
  - apply IH. destruct (contains w text); [| exact Hscore].
    now apply Qplus_nonneg.
Qed.

Lemma category_weight_nonneg (category : string) :
  (0 <= default (1 # 10) (EventEngine.category_weights !! category))%Q.
Proof.
  destruct (EventEngine.category_weights !! category) as [w |] eqn:Hw; cbn.
  - apply elem_of_list_to_map_2 in Hw.
    repeat (apply elem_of_cons in Hw as [[= _ ->] | Hw]; [discriminate |]).
    now apply elem_of_nil in Hw.
  - discriminate.
Qed.

(** The hype score of any event is a score of the unit interval. *)
Lemma hype_score_unit (event : EventEngine.ResearchEvent) :
  unit_score (EventEngine._calculate_hype_score event).
Proof.
  unfold EventEngine._calculate_hype_score. apply Qmin_unit.
  apply Qplus_nonneg.
  - apply add_matches_nonneg; [discriminate |].
    apply add_matches_nonneg; discriminate.
  - apply category_weight_nonneg.
Qed.

Lemma count_in_nonneg (keywords : list string) (text : string) :
  0 <= AttendeeEngine.count_in keywords text.
Proof. unfold AttendeeEngine.count_in, len. lia. Qed.

Lemma keyword_part_nonneg (n : Z) :
  0 <= n -> (0 <= Qmin (3 # 10) (inject_Z n * (1 # 10)))%Q.
Proof.
  intros Hn. apply Q.min_glb; [discriminate |].
  apply Qmult_le_0_compat; [| discriminate].
  change 0%Q with (inject_Z 0). now rewrite <- Zle_Qle.
Qed.

Lemma bonus_nonneg (b : bool) (score step : Q) :
  (0 <= step)%Q -> (0 <= score)%Q ->
  (0 <= (if b then (score + step)%Q else score))%Q.
Proof.
  intros Hstep Hscore. destruct b; [| exact Hscore].
  now apply Qplus_nonneg.
Qed.

(** The relevance score, whenever the function returns one, is a score of
    the unit interval; it returns one unless the event name has no token. *)
Lemma relevance_score_unit (tweet_text event_name : string) :
  match AttendeeEngine._calculate_relevance_score_fast tweet_text event_name with
  | Some score => unit_score score
  | None => split_ws event_name = []
  end.
Proof.
  unfold AttendeeEngine._calculate_relevance_score_fast.
  destruct (AttendeeEngine._extract_keywords event_name) as [keywords |] eqn:Hk; cbn.
  - apply Qmin_unit.
    repeat (apply bonus_nonneg; [discriminate |]).
    apply Qplus_nonneg.
    + apply bonus_nonneg; discriminate.
    + apply keyword_part_nonneg, count_in_nonneg.
  - now apply KeywordFacts.extract_keywords_None.
Qed.

End ScoreFacts.

(** ** Validation of event names *)

Module ValidFacts.
Import PyStr PyList Notions EventEngine.

Lemma valid_not_refused (event : ResearchEvent) :
  _is_valid_event event = true -> ~ refused_name (event_name event).
Proof.
  unfold _is_valid_event, refused_name.
  destruct (is_empty (event_name event)) eqn:Hempty; [discriminate |].
  cbn [orb].
  destruct (Nat.ltb_spec (String.length (strip (event_name event))) 3) as [| Hlen];
    [discriminate |].
  destruct (bool_decide_reflect (lower (event_name event) ∈ generic_names)) as [| Hgen];
    [discriminate |].
  intros _ [Hname | [Hshort | Hgeneric]].
  - rewrite Hname in Hempty. discriminate.
  - pose proof (PyStrFacts.length_strip (event_name event)). lia.
  - exact (Hgen Hgeneric).
Qed.

Lemma refused_invalid (event : ResearchEvent) :
  refused_name (event_name event) -> _is_valid_event event = false.
Proof.
  intros Href. destruct (_is_valid_event event) eqn:Hv; [| reflexivity].
  now apply valid_not_refused in Hv.
Qed.

Section Engine.
Context `{Serp}.

Lemma parse_valid_Some (event_data : EventData) (event : ResearchEvent) :
  parse_valid event_data = Some event ->
  _parse_event_data_clean event_data = Some event /\ _is_valid_event event = true.
Proof.
  unfold parse_valid.
  destruct (_parse_event_data_clean event_data) as [e |]; cbn; [| discriminate].
  destruct (_is_valid_event e) eqn:Hv; [| discriminate].
  intros [= <-]. now split.
Qed.

(** A record whose event is refused is skipped: the other records of the
    response give what they give without it. *)
Lemma parse_valid_skip (event_data : EventData) (event : ResearchEvent)
  (before after : list EventData) :
  _parse_event_data_clean event_data = Some event ->
  refused_name (event_name event) ->
  omap parse_valid (before ++ event_data :: after) =
  omap parse_valid (before ++ after).
Proof.
  intros Hparse Href. rewrite !omap_app. f_equal. cbn.
  unfold parse_valid at 1. rewrite Hparse. cbn.
  now rewrite (refused_invalid _ Href).
Qed.

Lemma events_of_valid (limit : Z) (response : SerpResponse) :
  Forall (fun event => _is_valid_event event = true) (events_of limit response).
Proof.
  unfold events_of. destruct response as [| code [results |]]; try constructor.
  destruct (code =? 200); [| constructor].
  apply Forall_forall. intros event Hin.
  apply list_elem_of_omap in Hin as (d & _ & Hd).
  now apply parse_valid_Some in Hd.
Qed.

End Engine.

End ValidFacts.

(** ** The attendee engine *)

Module AttendeeFacts.
Import PyStr PyList Notions Invariants Run RunFacts FirstSeenFacts AttendeeEngine.

Section Engine.
Context `{Twitter.Api}.

Lemma process_data_good (users_dict : gmap Z Twitter.User) (event_name : string)
  (tweets : list Twitter.Tweet) (l : list ResearchAttendee) :
  process_data users_dict event_name tweets = Some l ->
  Forall (fun a => unit_score (relevance_score a)) l.
Proof.
  revert l. induction tweets as [| tweet tweets IH]; intros l; cbn.
  - intros [= <-]. constructor.
  - destruct (users_dict !! Twitter.author_id tweet) as [user |]; [| apply IH].
    pose proof (ScoreFacts.relevance_score_unit (Twitter.text tweet) event_name) as Hs.
    destruct (_calculate_relevance_score_fast (Twitter.text tweet) event_name)
      as [score |]; cbn; [| discriminate].
    destruct (process_data users_dict event_name tweets) as [rest |]; cbn;
      [| discriminate].
    destruct (Qle_bool relevance_threshold score); intros [= <-].
    + constructor; [exact Hs | now apply IH].
    + now apply IH.
Qed.

Lemma process_tweets_good (tweets : Twitter.Response) (event_name : string)
  (l : list ResearchAttendee) :
  _process_tweets_fast tweets event_name = Some l ->
  Forall (fun a => unit_score (relevance_score a)) l.
Proof.
  unfold _process_tweets_fast.
  destruct (Twitter.includes tweets) as [users |].
  - destruct (Twitter.data tweets) as [tweets_data |]; cbn; [| discriminate].
    apply process_data_good.
  - intros [= <-]. constructor.
Qed.

(** The gateway touches the client and the world, not the trace. *)
Lemma call_search_frame (P : list Fetch -> list ResearchAttendee -> Prop)
  (query : string) (max_results : Z) (E : St -> Prop) :
  triple (fun st => P (issued st) (produced st))
         (call_search query max_results)
         (fun _ st => P (issued st) (produced st)) E.
Proof.
  intros st HP. unfold call_search.
  destruct (Twitter.search_recent_tweets_safe _ _ _ _) as [[r c] w]. exact HP.
Qed.

Lemma search_and_process_spec (P : list Fetch -> list ResearchAttendee -> Prop)
  (query event_name : string) (max_results : Z) :
  triple (fun st => P (issued st) (produced st))
         (_search_and_process query event_name max_results)
         (fun l st => P (issued st) (produced st) /\
                      Forall (fun a => unit_score (relevance_score a)) l)
         (fun st => P (issued st) (produced st)).
Proof.
  unfold _search_and_process.
  eapply triple_bind; [apply call_search_frame |].
  intros [tweets |]; [| intros st HP; cbn; split; [exact HP | constructor]].
  destruct (Twitter.data tweets) as [[| t ts] |] eqn:Hd;
    try (intros st HP; cbn; split; [exact HP | constructor]).
  intros st HP. unfold lift.
  destruct (_process_tweets_fast tweets event_name) as [l |] eqn:Hl; [| exact HP].
  split; [exact HP | now apply process_tweets_good in Hl].
Qed.

Section Target.
Variable max_results : Z.

(** One attendee more in the stream: it is accepted exactly when it is the
    first of its user name and the target is not reached. *)
Lemma collect_step (found : Found) (p : list ResearchAttendee) (a : ResearchAttendee) :
  found_inv max_results found p ->
  found_inv max_results (collect max_results [a] found) (p ++ [a]).
Proof.
  intros [Hall Hseen]. unfold found_inv, collect. cbn [foldl].
  rewrite first_seen_snoc.
  set (F := first_seen username p) in *.
  set (n := Z.to_nat max_results) in *.
  assert (Hfull : len (all_attendees found) < max_results ->
                  all_attendees found = F /\ (length F < n)%nat).
  { unfold len. rewrite Hall, length_take. intros Hlt.
    assert (length F < n)%nat by lia. split; [| assumption].
    apply take_ge. lia. }
  destruct (decide ((username a ∉ seen_usernames found) /\
                    len (all_attendees found) < max_results)) as [[Hnew Hlt] | Hno];
    cbn [all_attendees seen_usernames].
  - destruct (Hfull Hlt) as [HF Hlen]. split.
    + rewrite decide_False by (rewrite <- HF, <- Hseen; exact Hnew).
      rewrite take_ge by (rewrite length_app; cbn; lia). now rewrite HF.
    + intros u. rewrite fmap_app, elem_of_app, elem_of_union, elem_of_singleton.
      cbn. rewrite list_elem_of_singleton, Hseen. tauto.
  - split; [| exact Hseen].
    destruct (decide (username a ∈ username <$> F)) as [Hin | Hout].
    + now rewrite app_nil_r.
    + destruct (Z.lt_ge_cases (len (all_attendees found)) max_results) as [Hlt | Hge].
      * exfalso. apply Hno. split; [| exact Hlt].
        destruct (Hfull Hlt) as [HF _]. now rewrite Hseen, HF.
      * rewrite take_app_le; [exact Hall |].
        unfold len in Hge. rewrite Hall, length_take in Hge. lia.
Qed.

Lemma collect_cons (a : ResearchAttendee) (l : list ResearchAttendee) (found : Found) :
  collect max_results (a :: l) found
  = collect max_results l (collect max_results [a] found).
Proof. reflexivity. Qed.

Lemma collect_inv (attendees : list ResearchAttendee) (found : Found)
  (p : list ResearchAttendee) :
  found_inv max_results found p ->
  found_inv max_results (collect max_results attendees found) (p ++ attendees).
Proof.
  revert found p. induction attendees as [| a l IH]; intros found p Hinv.
  - now rewrite app_nil_r.
  - rewrite collect_cons, (cons_middle a p l), (assoc_L (++)).
    apply IH. now apply collect_step.
Qed.

Ltac by_ret := let st := fresh "st" in let Hst := fresh "Hst" in
                intros st Hst; exact Hst.

Lemma run_phase_spec (phase : nat) (hint : Z) (event_name : string)
  (queries : list (string * string)) (found : Found) :
  triple (fun st => found_inv max_results found (produced st) /\
                    trace_inv max_results (issued st) (produced st))
         (run_phase phase hint event_name max_results queries found)
         (fun found' st => found_inv max_results found' (produced st) /\
                           trace_inv max_results (issued st) (produced st))
         (fun st => trace_inv max_results (issued st) (produced st)).
Proof.
  revert found. induction queries as [| [query_type query] queries IH]; intros found.
  - by_ret.
  - cbn [run_phase].
    destruct (Z.geb_spec (len (all_attendees found)) max_results) as [Hge | Hlt];
      [by_ret |].
    eapply triple_bind.
    { (* the call is noted *)
      instantiate (1 := fun _ st => found_inv max_results found (produced st) /\
                                    trace_inv max_results (issued st) (produced st)).
      intros st [Hf [Hi Hp]]. cbn.
      split; [exact Hf |]. split; [| exact Hp].
      apply Forall_app. split; [exact Hi |]. constructor; [| constructor].
      exact Hlt. }
    intros []. eapply triple_bind.
    { eapply triple_conseq;
        [| | | apply (search_and_process_spec
                        (fun i p => found_inv max_results found p /\
                                    trace_inv max_results i p))].
      - intros st Hst. exact Hst.
      - intros l st Hst. exact Hst.
      - intros st [_ Hst]. exact Hst. }
    intros attendees.
    apply triple_bind with
      (Q := fun _ st =>
              found_inv max_results (collect max_results attendees found) (produced st) /\
              trace_inv max_results (issued st) (produced st));
      [| intros []; apply IH].
    intros st [[Hf [Hi Hp]] Hgood]. cbn.
    split; [now apply collect_inv |].
    split; [exact Hi | apply Forall_app; now split].
Qed.

Lemma find_unsorted_spec (event_name : string) (event_date : option string) :
  triple (fun st => found_inv max_results (mk_found [] ∅) (produced st) /\
                    trace_inv max_results (issued st) (produced st))
         (find_unsorted event_name event_date max_results)
         (fun found st => found_inv max_results found (produced st) /\
                          trace_inv max_results (issued st) (produced st))
         (fun st => trace_inv max_results (issued st) (produced st)).
Proof.
  unfold find_unsorted.
  eapply triple_bind; [apply run_phase_spec |]. intros found1.
  eapply triple_bind.
  { instantiate (1 := fun found st => found_inv max_results found (produced st) /\
                                      trace_inv max_results (issued st) (produced st)).
    destruct (len (all_attendees found1) <? max_results); [| by_ret].
    eapply triple_bind; [| intros qs; apply run_phase_spec].
    intros st Hst. unfold lift.
    destruct (_generate_smart_keyword_queries event_name); [exact Hst | apply Hst]. }
  intros found2.
  destruct (len (all_attendees found2) <? max_results); [| by_ret].
  eapply triple_bind; [| intros qs; apply run_phase_spec].
  intros st Hst. unfold lift.
  destruct (_generate_broad_queries event_name); [exact Hst | apply Hst].
Qed.

Lemma discover_attendees_spec (event_name : string) (event_date : option string)
  (client : Twitter.TwitterClient) (w : Twitter.World) :
  exists l st',
    discover_attendees event_name event_date max_results (start client w)
      = (Some l, st') /\
    trace_inv max_results (issued st') (produced st') /\
    (l = [] \/ l = result_of max_results (produced st')).
Proof.
  assert (Ht : triple (fun st => st = start client w)
                 (discover_attendees event_name event_date max_results)
                 (fun l st => trace_inv max_results (issued st) (produced st) /\
                              (l = [] \/ l = result_of max_results (produced st)))
                 (fun _ => False)).
  { unfold discover_attendees. apply triple_try_except.
    apply triple_bind with (Q := fun st0 st => st = st0 /\ st0 = start client w);
      [intros st ->; now split |].
    intros st0.
    destruct (Twitter.is_operational (twitter_client st0)).
    2: { intros st [-> ->]. cbn. split; [split; constructor | now left]. }
    cbn [negb].
    apply triple_bind with
      (Q := fun l st => trace_inv max_results (issued st) (produced st) /\
                        l = sort_desc Qltb relevance_score
                              (take (Z.to_nat max_results)
                                 (first_seen username (produced st)))).
    - unfold _guaranteed_find_attendees.
      apply triple_bind with
        (Q := fun found st => found_inv max_results found (produced st) /\
                              trace_inv max_results (issued st) (produced st)).
      + eapply triple_conseq; [| | | apply find_unsorted_spec].
        * intros st [-> ->]. cbn. split; [| split; constructor].
          split; [symmetry; apply take_nil |].
          intros u. cbn. rewrite elem_of_empty, elem_of_nil. tauto.
        * intros found st Hst. exact Hst.
        * intros st Hst. split; [exact Hst | now left].
      + intros found st [[Hall _] Ht]. cbn. split; [exact Ht | now rewrite Hall].
    - intros l st [Ht ->]. cbn. split; [exact Ht | now right]. }
  specialize (Ht (start client w) eq_refl).
  destruct (discover_attendees _ _ _ _) as [[l |] st']; [| contradiction].
  exists l, st'. split; [reflexivity | exact Ht].
Qed.

(** A phase puts its own number on the calls it makes. *)
Lemma run_phase_phase (phase : nat) (hint : Z) (event_name : string)
  (queries : list (string * string)) (found : Found) :
  triple (fun st => Forall (fun f => f_phase f = phase) (issued st))
         (run_phase phase hint event_name max_results queries found)
         (fun _ st => Forall (fun f => f_phase f = phase) (issued st))
         (fun st => Forall (fun f => f_phase f = phase) (issued st)).
Proof.
  revert found. induction queries as [| [query_type query] queries IH]; intros found.
  - by_ret.
  - cbn [run_phase].
    destruct (len (all_attendees found) >=? max_results); [by_ret |].
    apply triple_bind with
      (Q := fun _ st => Forall (fun f => f_phase f = phase) (issued st)).
    { intros st Hi. cbn. apply Forall_app. split; [exact Hi |]. now repeat constructor. }
    intros []. eapply triple_bind.
    { eapply triple_conseq;
        [| | | apply (search_and_process_spec
                        (fun i _ => Forall (fun f => f_phase f = phase) i))].
      - intros st Hst. exact Hst.
      - intros l st Hst. exact Hst.
      - intros st Hst. exact Hst. }
    intros attendees.
    apply triple_bind with
      (Q := fun _ st => Forall (fun f => f_phase f = phase) (issued st));
      [| intros []; apply IH].
    intros st [Hi _]. exact Hi.
Qed.

(** When the first phase reaches the target, the run ends where the first
    phase ended: no call of a later phase is made. *)
Lemma first_phase_suffices (event_name : string) (event_date : option string)
  (client : Twitter.TwitterClient) (w : Twitter.World)
  (found1 : Found) (st1 : St) :
  run_phase 1 (max_results * 3) event_name max_results
            (take 3 (_generate_exact_queries event_name event_date))
            (mk_found [] ∅) (start client w) = (Some found1, st1) ->
  max_results <= len (all_attendees found1) ->
  find_unsorted event_name event_date max_results (start client w)
    = (Some found1, st1) /\
  Forall (fun f => f_phase f = 1%nat) (issued st1) /\
  Forall (fun f => f_phase f = 1%nat)
    (issued (discover_attendees event_name event_date max_results
               (start client w)).2).
Proof.
  intros Hrun Hlen.
  assert (Hfind : find_unsorted event_name event_date max_results (start client w)
                  = (Some found1, st1)).
  { assert (Hf : (len (all_attendees found1) <? max_results) = false)
      by now apply Z.ltb_ge.
    unfold find_unsorted, bind. rewrite Hrun, Hf. unfold ret. now rewrite Hf. }
  assert (Hphase : Forall (fun f => f_phase f = 1%nat) (issued st1)).
  { pose proof (run_phase_phase 1 (max_results * 3) event_name
                  (take 3 (_generate_exact_queries event_name event_date))
                  (mk_found [] ∅) (start client w)) as Ht.
    rewrite Hrun in Ht. apply Ht. constructor. }
  repeat split; try assumption.
  unfold discover_attendees, try_except, bind at 1, get.
  destruct (Twitter.is_operational (twitter_client (start client w))); cbn [negb];
    [| constructor].
  unfold bind at 1, _guaranteed_find_attendees, bind at 1. rewrite Hfind.
  exact Hphase.
Qed.

End Target.

End Engine.

End AttendeeFacts.

(** ** The event engine *)

Module EventFacts.
Import PyStr PyList PyTime Notions Invariants Run RunFacts FirstSeenFacts EventEngine.

Ltac by_ret := let st := fresh "st" in let Hst := fresh "Hst" in
               intros st Hst; exact Hst.

Section Engine.
Context `{Serp}.

(** Reading the clock or calling the provider touches the world, not the
    trace. *)
Lemma in_world_frame {A} (f : World -> A * World)
  (P : list Fetch -> list ResearchEvent -> list ResearchEvent -> Prop)
  (E : St -> Prop) :
  triple (fun st => P (issued st) (produced st) (dated st))
         (in_world f)
         (fun _ st => P (issued st) (produced st) (dated st)) E.
Proof.
  intros st HP. unfold in_world. destruct (f (world st)) as [a w]. exact HP.
Qed.

Lemma fetch_serpapi_events_spec (query : string) (limit : Z)
  (P : list Fetch -> list ResearchEvent -> list ResearchEvent -> Prop)
  (E : St -> Prop) :
  triple (fun st => P (issued st) (produced st) (dated st))
         (_fetch_serpapi_events query limit)
         (fun events st => P (issued st) (produced st) (dated st) /\
                           Forall (fun event => _is_valid_event event = true) events)
         E.
Proof.
  unfold _fetch_serpapi_events.
  eapply triple_bind; [apply in_world_frame |].
  intros response st HP. cbn. split; [exact HP | apply ValidFacts.events_of_valid].
Qed.

(** One event more passed the date filter: it is accepted exactly when its
    key is new. *)
Lemma found_step (found : Found) (dated : list ResearchEvent)
  (event : ResearchEvent) (k : string) :
  e_found_inv found dated ->
  _create_event_key event = Some k ->
  e_found_inv
    (if decide (k ∈ seen_events found) then found
     else mk_found (all_events found ++ [event]) ({[k]} ∪ seen_events found))
    (dated ++ [event]).
Proof.
  intros (Hall & Hseen & Hkeys) Hk. unfold e_found_inv.
  rewrite first_seen_snoc, <- Hall, Hk.
  assert (Hd : Forall (fun event => is_Some (_create_event_key event)) (dated ++ [event])).
  { apply Forall_app. split; [exact Hkeys |]. constructor; [| constructor].
    rewrite Hk. now eexists. }
  destruct (decide (k ∈ seen_events found)) as [Hin | Hout].
  - rewrite decide_True by now apply Hseen.
    rewrite app_nil_r. split; [reflexivity | split; [exact Hseen | exact Hd]].
  - rewrite decide_False by (intros Hc; now apply Hseen in Hc).
    cbn [all_events seen_events].
    split; [reflexivity | split; [| exact Hd]].
    intros k'.
    rewrite elem_of_union, elem_of_singleton, Hseen, fmap_app, elem_of_app.
    cbn. rewrite list_elem_of_singleton, Hk. split.
    + intros [-> | Hi]; tauto.
    + intros [Hi | [= ->]]; tauto.
Qed.

Section Range.
Variables (start_dt end_dt : datetime) (max_results : Z).

Lemma filter_events_spec (J : list Fetch -> list ResearchEvent -> Prop)
  (events : list ResearchEvent) (found : Found) :
  triple (fun st => e_found_inv found (dated st) /\
                    (exists pre, produced st = pre ++ events /\
                                 dated st `sublist_of` pre) /\
                    J (issued st) (produced st))
         (filter_events start_dt end_dt events found)
         (fun found' st => e_found_inv found' (dated st) /\
                           dated st `sublist_of` produced st /\
                           J (issued st) (produced st))
         (fun st => J (issued st) (produced st)).
Proof.
  revert found. induction events as [| event events IH]; intros found.
  - intros st (Hf & (pre & Hp & Hs) & HJ). cbn.
    rewrite app_nil_r in Hp. split; [exact Hf |]. split; [now rewrite Hp | exact HJ].
  - cbn [filter_events].
    apply triple_bind with
      (Q := fun _ st => e_found_inv found (dated st) /\
                        (exists pre, produced st = pre ++ event :: events /\
                                     dated st `sublist_of` pre) /\
                        J (issued st) (produced st)).
    { apply (in_world_frame now
               (fun i p d => e_found_inv found d /\
                             (exists pre, p = pre ++ event :: events /\
                                          d `sublist_of` pre) /\
                             J i p)). }
    intros t. cbn zeta.
    apply triple_bind with
      (Q := fun found' st => e_found_inv found' (dated st) /\
                             (exists pre, produced st = pre ++ events /\
                                          dated st `sublist_of` pre) /\
                             J (issued st) (produced st));
      [| intros found'; apply IH].
    destruct (in_date_range start_dt end_dt (_parse_serpapi_date t (exact_date event))).
    + intros st (Hf & (pre & Hp & Hs) & HJ).
      unfold bind, note_dated, modify, lift. cbn.
      destruct (_create_event_key event) as [k |] eqn:Hk; [| exact HJ].
      pose proof (found_step found (dated st) event k Hf Hk) as Hstep.
      assert (Hpre : exists pre', produced st = pre' ++ events /\
                                  dated st ++ [event] `sublist_of` pre').
      { exists (pre ++ [event]). split.
        - now rewrite Hp, <- (assoc_L (++)).
        - now apply sublist_app. }
      destruct (decide (k ∈ seen_events found)); cbn;
        (split; [exact Hstep | split; [exact Hpre | exact HJ]]).
    + intros st (Hf & (pre & Hp & Hs) & HJ). cbn.
      split; [exact Hf |]. split; [| exact HJ].
      exists (pre ++ [event]). split.
      * now rewrite Hp, <- (assoc_L (++)).
      * now apply sublist_inserts_r.
Qed.

Lemma fetch_loop_spec (queries : list string) (found : Found) :
  triple (fun st => e_found_inv found (dated st) /\
                    e_trace_inv (produced st) (dated st) /\
                    e_issued_inv max_results (issued st))
         (fetch_loop start_dt end_dt max_results queries found)
         (fun found' st => e_found_inv found' (dated st) /\
                           e_trace_inv (produced st) (dated st) /\
                           e_issued_inv max_results (issued st))
         (fun st => e_issued_inv max_results (issued st) /\
                    Forall (fun event => _is_valid_event event = true) (produced st)).
Proof.
  revert found. induction queries as [| query queries IH]; intros found.
  - by_ret.
  - cbn [fetch_loop].
    destruct (Z.geb_spec (len (all_events found)) (max_results * 2)) as [Hge | Hlt];
      [by_ret |].
    apply triple_bind with
      (Q := fun _ st => e_found_inv found (dated st) /\
                        e_trace_inv (produced st) (dated st) /\
                        e_issued_inv max_results (issued st)).
    { intros st (Hf & Ht & Hi). cbn.
      split; [exact Hf |]. split; [exact Ht |].
      apply Forall_app. split; [exact Hi |]. constructor; [exact Hlt | constructor]. }
    intros [].
    eapply triple_bind.
    { apply (fetch_serpapi_events_spec query 10
               (fun i p d => e_found_inv found d /\ e_trace_inv p d /\
                             e_issued_inv max_results i)). }
    intros events.
    apply triple_bind with
      (Q := fun _ st => e_found_inv found (dated st) /\
                        (exists pre, produced st = pre ++ events /\
                                     dated st `sublist_of` pre) /\
                        (e_issued_inv max_results (issued st) /\
                         Forall (fun event => _is_valid_event event = true)
                                (produced st))).
    { intros st ((Hf & [Hv Hs] & Hi) & Hev). cbn.
      split; [exact Hf |]. split; [now exists (produced st) |].
      split; [exact Hi | apply Forall_app; now split]. }
    intros [].
    apply triple_bind with
      (Q := fun found' st => e_found_inv found' (dated st) /\
                             e_trace_inv (produced st) (dated st) /\
                             e_issued_inv max_results (issued st));
      [| intros found'; apply IH].
    eapply triple_conseq;
      [| | | apply (filter_events_spec
                      (fun i p => e_issued_inv max_results i /\
                                  Forall (fun event => _is_valid_event event = true) p))].
    + intros st Hst. exact Hst.
    + intros found' st (Hf & Hs & Hi & Hv).
      split; [exact Hf |]. split; [now split | exact Hi].
    + intros st Hst. exact Hst.
Qed.

End Range.

Lemma discover_events_spec (self : SmartEventEngine) (location : string)
  (start_date end_date : string) (categories : list string) (max_results : Z)
  (w : World) :
  exists l st',
    discover_events self location start_date end_date categories max_results (start w)
      = (Some l, st') /\
    e_issued_inv max_results (issued st') /\
    Forall (fun event => _is_valid_event event = true) (produced st') /\
    (l = [] \/
     (l = e_result_of max_results (dated st') /\
      dated st' `sublist_of` produced st' /\
      Forall (fun event => is_Some (_create_event_key event)) (dated st'))).
Proof.
  set (trace_empty := fun st : St => issued st = [] /\ produced st = [] /\ dated st = []).
  set (Qfin := fun (l : list ResearchEvent) (st : St) =>
         e_issued_inv max_results (issued st) /\
         Forall (fun event => _is_valid_event event = true) (produced st) /\
         (l = [] \/
          (l = e_result_of max_results (dated st) /\
           dated st `sublist_of` produced st /\
           Forall (fun event => is_Some (_create_event_key event)) (dated st)))).
  assert (Ht : triple (fun st => st = start w)
                 (discover_events self location start_date end_date categories max_results)
                 Qfin (fun _ => False)).
  { unfold discover_events. apply triple_try_except.
    assert (Hnil : forall P : St -> Prop,
               (forall st, P st -> trace_empty st) ->
               triple P (ret []) Qfin (Qfin [])).
    { intros P HP st Hst. apply HP in Hst as (Hi & Hp & _). cbn.
      split; [rewrite Hi; constructor |].
      split; [rewrite Hp; constructor | now left]. }
    destruct (bool_decide (truthy (serp_api_key self) = None)).
    { apply Hnil. intros st ->. now repeat split. }
    apply triple_bind with (Q := fun _ st => trace_empty st).
    { eapply triple_conseq;
        [| | | apply (in_world_frame now (fun i p d => i = [] /\ p = [] /\ d = []))].
      - intros st ->. now repeat split.
      - intros t st Hst. exact Hst.
      - intros st Hst. exact Hst. }
    intros t1.
    apply triple_bind with (Q := fun _ st => trace_empty st).
    { apply (in_world_frame now (fun i p d => i = [] /\ p = [] /\ d = [])). }
    intros t2. cbn zeta.
    destruct (_parse_user_date t1 start_date) as [sdt |];
      [| apply Hnil; auto].
    destruct (_parse_user_date t2 end_date) as [edt |];
      [| apply Hnil; auto].
    apply triple_bind with (Q := fun _ st => trace_empty st).
    { intros st Hst. unfold lift.
      destruct (_build_date_specific_queries location categories sdt edt).
      - exact Hst.
      - destruct Hst as (Hi & Hp & _). split; [rewrite Hi; constructor |].
        split; [rewrite Hp; constructor | now left]. }
    intros date_queries.
    apply triple_bind with
      (Q := fun filtered st =>
              e_issued_inv max_results (issued st) /\
              e_trace_inv (produced st) (dated st) /\
              Forall (fun event => is_Some (_create_event_key event)) (dated st) /\
              filtered = first_seen _create_event_key (dated st)).
    - unfold _fetch_events_with_date_filter.
      apply triple_bind with
        (Q := fun found st => e_found_inv found (dated st) /\
                              e_trace_inv (produced st) (dated st) /\
                              e_issued_inv max_results (issued st)).
      + eapply triple_conseq; [| | | apply fetch_loop_spec].
        * intros st (Hi & Hp & Hd). rewrite Hi, Hp, Hd. cbn.
          split; [| split; [split; constructor | constructor]].
          split; [reflexivity |]. split; [| constructor].
          intros k. cbn. rewrite elem_of_empty, elem_of_nil. tauto.
        * intros found st Hst. exact Hst.
        * intros st [Hi Hv]. split; [exact Hi |]. split; [exact Hv | now left].
      + intros found st ((Hall & _ & Hkeys) & Ht & Hi). cbn.
        split; [exact Hi |]. split; [exact Ht |]. split; [exact Hkeys | exact Hall].
    - intros filtered st (Hi & [Hv Hs] & Hkeys & ->). cbn.
      split; [exact Hi |]. split; [exact Hv |]. right.
      split; [reflexivity |]. split; [exact Hs | exact Hkeys]. }
  specialize (Ht (start w) eq_refl).
  destruct (discover_events _ _ _ _ _ _ _) as [[l |] st']; [| contradiction].
  exists l, st'. split; [reflexivity | exact Ht].
Qed.

End Engine.

End EventFacts.

(** ** The date parser and the date filter *)

Module DateFacts.
Import PyStr PyList PyTime Notions EventEngine.

#[local] Arguments is_digit : simpl never.

Lemma length_app_str (a b : string) :
  String.length (a +:+ b) = (String.length a + String.length b)%nat.
Proof.
  induction a as [| c a IH]; [reflexivity |].
  simpl. now f_equal.
Qed.



Lemma search_here (pat : pattern) (s r : string) :
  match_here pat s = Some r ->
  search pat s = Some (EmptyString, take_str (String.length s - String.length r) s, r).
Proof. intros Hm. destruct s; cbn [search]; now rewrite Hm. Qed.











(** *** Substrings *)




Lemma lower_app (x y : string) : lower (x +:+ y) = lower x +:+ lower y.
Proof.
  induction x as [| c x IH]; [reflexivity |].
  change (String c x +:+ y) with (String c (x +:+ y)).
  cbn [lower]. now rewrite IH.
Qed.

Lemma lstrip_suffix (s : string) : exists a, s = a +:+ lstrip s.
Proof.
  induction s as [| c s [a IH]]; [now exists EmptyString |].
  cbn [lstrip]. destruct (is_space c).
  - exists (String c a). change (String c a +:+ lstrip s) with (String c (a +:+ lstrip s)).
    now rewrite <- IH.
  - now exists EmptyString.
Qed.

Lemma rstrip_prefix (s : string) : exists b, s = rstrip s +:+ b.
Proof.
  induction s as [| c s [b IH]]; [now exists EmptyString |].
  cbn [rstrip]. destruct (is_space c && is_empty (rstrip s)).
  - now exists (String c s).
  - exists b. change (String c (rstrip s) +:+ b) with (String c (rstrip s +:+ b)).
    now rewrite <- IH.
Qed.





Section Filter.
Context `{Serp}.




End Filter.

End DateFacts.

(** ** The query builder *)

Module QueryFacts.
Import PyStr PyList PyTime Notions EventEngine.

Section Engine.
Context `{Serp}.

Lemma leb_year_month (a b : datetime) :
  leb a b = true -> year a <= year b /\ (year a = year b -> month a <= month b).
Proof.
  unfold leb, ltb, fields. cbn [lex_ltb]. intros Hle.
  apply negb_true_iff, orb_false_elim in Hle as [Hy Hrest].
  apply Z.ltb_ge in Hy. split; [exact Hy |]. intros Heq.
  rewrite Heq, Z.eqb_refl in Hrest. cbn [andb] in Hrest.
  apply orb_false_elim in Hrest as [Hm _]. now apply Z.ltb_ge in Hm.
Qed.

Lemma next_month_span (current next end_dt : datetime) :
  next_month current = Some next ->
  1 <= month current <= 12 ->
  1 <= month next <= 12 /\
  12 * (year end_dt - year next) + (month end_dt - month next)
  = 12 * (year end_dt - year current) + (month end_dt - month current) - 1.
Proof.
  unfold next_month, replace_month, replace_year_month. intros Hnext Hm.
  destruct (Z.eqb_spec (month current) 12) as [H12 | H12].
  - destruct (valid_date _ _ _); [| discriminate].
    injection Hnext as <-. cbn. lia.
  - destruct (valid_date _ _ _); [| discriminate].
    injection Hnext as <-. cbn. lia.
Qed.

(** The rounds counted from the two dates are enough: with more rounds the
    loop gives the same queries, so it never stops for want of rounds. *)
Lemma month_loop_rounds (location : string) (end_dt : datetime)
  (rounds : nat) (current : datetime) (extra : nat) :
  1 <= month current <= 12 -> 1 <= month end_dt <= 12 ->
  (month_span current end_dt <= rounds)%nat ->
  month_loop (rounds + extra) location current end_dt
  = month_loop rounds location current end_dt.
Proof.
  intros Hc He. revert current Hc.
  induction rounds as [| rounds IH]; intros current Hc Hspan.
  - destruct extra as [| extra]; [reflexivity |].
    cbn [Nat.add month_loop].
    destruct (leb current end_dt) eqn:Hle; [| reflexivity].
    apply leb_year_month in Hle. unfold month_span in Hspan. lia.
  - cbn [Nat.add month_loop].
    destruct (leb current end_dt) eqn:Hle; [| reflexivity].
    destruct (next_month current) as [next |] eqn:Hnext; [| reflexivity].
    cbn [mbind option_bind].
    destruct (next_month_span current next end_dt Hnext Hc) as [Hn Heq].
    rewrite IH; [reflexivity | exact Hn |].
    unfold month_span in *. lia.
Qed.

End Engine.

End QueryFacts.

(** ** The discovery runs *)

Module DiscoveryFacts.
Import PyStr PyList PyTime Notions Invariants Run RunFacts FirstSeenFacts PyListFacts.

Lemma NoDup_distinct {A} `{EqDecision A} (l k : list A) :
  NoDup l -> (forall x, x ∈ l -> x ∈ k) -> (length l <= distinct k)%nat.
Proof.
  intros Hl Hsub. unfold distinct. apply submseteq_length, NoDup_submseteq.
  - exact Hl.
  - intros x Hx. apply elem_of_remove_dups. auto.
Qed.

Lemma NoDup_prefix {A} (l k : list A) : l `prefix_of` k -> NoDup k -> NoDup l.
Proof. intros [r ->] Hk. now apply NoDup_app in Hk as [Hl _]. Qed.

Lemma fmap_prefix {A B} (f : A -> B) (l k : list A) :
  l `prefix_of` k -> f <$> l `prefix_of` f <$> k.
Proof. intros [r ->]. rewrite fmap_app. now eexists. Qed.

Section Events.
Import EventEngine.
Context `{Serp}.

Lemma key_scored (event : ResearchEvent) :
  _create_event_key (scored event) = _create_event_key event.
Proof. reflexivity. Qed.

Lemma key_parts (event : ResearchEvent) :
  _create_event_key event =
  (fun token => normalized_name (event_name event) +:+ "_" +:+ token)
    <$> date_token (exact_date event).
Proof.
  unfold _create_event_key, date_token.
  destruct (is_empty (exact_date event)); [reflexivity |].
  now destruct (head (split_ws (exact_date event))).
Qed.

(** The returned events, read off the trace. *)
Lemma e_result_facts (max_results : Z) (dated : list ResearchEvent) :
  let kept := first_seen _create_event_key dated in
  let out := e_result_of max_results dated in
  StronglySorted (fun a b => (hype_score b <= hype_score a)%Q) out /\
  (forall q : Q, filter (fun x => (hype_score x == q)%Q) out
                 `prefix_of` filter (fun x => (hype_score x == q)%Q) (scored <$> kept)) /\
  Forall (fun event => exists e0, e0 ∈ kept /\ event = scored e0) out /\
  (length out <= length kept)%nat /\
  NoDup (_create_event_key <$> out).
Proof.
  cbn zeta. unfold e_result_of, _score_events_by_hype.
  change (fun event => set_hype_score (_calculate_hype_score event) event) with scored.
  set (kept := first_seen _create_event_key dated).
  destruct (top_scores hype_score max_results (scored <$> kept))
    as (Hsorted & Hstable & Hin & Hlen).
  cbn zeta in *. repeat split; try assumption.
  - apply Forall_forall. intros event Hevent.
    apply Hin, list_elem_of_fmap in Hevent as (e0 & -> & He0). now exists e0.
  - now rewrite length_fmap in Hlen.
  - eapply NoDup_prefix; [apply fmap_prefix, slice_to_prefix |].
    rewrite (sort_desc_perm Qltb hype_score (scored <$> kept)).
    rewrite <- list_fmap_compose.
    apply (first_seen_NoDup _create_event_key dated).
Qed.

End Events.

Section Attendees.
Import AttendeeEngine.
Context `{Twitter.Api}.

Lemma a_result_facts (max_results : Z) (produced : list ResearchAttendee) :
  let kept := take (Z.to_nat max_results) (first_seen username produced) in
  let out := result_of max_results produced in
  StronglySorted (fun a b => (relevance_score b <= relevance_score a)%Q) out /\
  (forall q : Q, filter (fun x => (relevance_score x == q)%Q) out
                 `prefix_of` filter (fun x => (relevance_score x == q)%Q) kept) /\
  Forall (fun a => a ∈ produced) out /\
  (length out <= distinct produced)%nat.
Proof.
  cbn zeta. unfold result_of.
  set (kept := take (Z.to_nat max_results) (first_seen username produced)).
  destruct (top_scores relevance_score max_results kept)
    as (Hsorted & Hstable & Hin & Hlen).
  cbn zeta in *.
  assert (Hkept : forall a, a ∈ kept -> a ∈ produced).
  { intros a Ha. apply (elem_of_first_seen username).
    eapply elem_of_sublist; [exact Ha | apply sublist_take]. }
  repeat split; try assumption.
  - apply Forall_forall. intros a Ha. auto.
  - etransitivity; [exact Hlen |].
    apply NoDup_distinct; [| exact Hkept].
    eapply NoDup_prefix; [apply prefix_take |].
    apply (first_seen_NoDup_list username).
Qed.

End Attendees.

Section Claims.
Context {serp : EventEngine.Serp} {api : Twitter.Api}.

(** C1: for a target count [max_results] (a count, so not negative), a
    run of either engine returns at most [max_results] items, at most as
    many items as the provider produced distinct valid records, and no item
    that does not come from a record the provider produced: a returned event
    is a produced event with its hype score written in, a returned attendee
    is a produced attendee. *)
Theorem returned_at_most_target_from_provider (max_results : Z) :
  0 <= max_results ->
  (forall self location start_date end_date categories w,
     exists l st',
       EventEngine.discover_events self location start_date end_date categories
         max_results (EventEngine.start w) = (Some l, st') /\
       len l <= max_results /\
       (length l <= distinct (EventEngine.produced st'))%nat /\
       Forall (fun event => EventEngine._is_valid_event event = true)
              (EventEngine.produced st') /\
       Forall (fun event => exists e0, e0 ∈ EventEngine.produced st' /\
                                       event = scored e0) l) /\
  (forall event_name event_date client w,
     exists l st',
       AttendeeEngine.discover_attendees event_name event_date max_results
         (AttendeeEngine.start client w) = (Some l, st') /\
       len l <= max_results /\
       (length l <= distinct (AttendeeEngine.produced st'))%nat /\
       Forall (fun a => a ∈ AttendeeEngine.produced st') l).
Proof.
  intros Hn. split.
  - intros self location start_date end_date categories w.
    destruct (EventFacts.discover_events_spec self location start_date end_date
                categories max_results w)
      as (l & st' & Hrun & _ & Hvalid & [-> | (-> & Hsub & _)]);
      eexists; exists st'; (split; [exact Hrun |]).
    + repeat split; [unfold len; cbn; lia | cbn; lia | exact Hvalid | constructor].
    + destruct (e_result_facts max_results (EventEngine.dated st'))
        as (_ & _ & Hfrom & Hlen & _). cbn zeta in *.
      assert (Hkept : forall e, e ∈ first_seen EventEngine._create_event_key
                                      (EventEngine.dated st') ->
                                e ∈ EventEngine.produced st').
      { intros e He. eapply elem_of_sublist; [| exact Hsub].
        now apply (elem_of_first_seen EventEngine._create_event_key). }
      repeat split.
      * apply length_slice_to, Hn.
      * etransitivity; [exact Hlen |].
        apply NoDup_distinct; [| exact Hkept].
        apply (first_seen_NoDup_list EventEngine._create_event_key).
      * exact Hvalid.
      * eapply Forall_impl; [exact Hfrom |].
        intros event (e0 & He0 & ->). exists e0. auto.
  - intros event_name event_date client w.
    destruct (AttendeeFacts.discover_attendees_spec max_results event_name
                event_date client w)
      as (l & st' & Hrun & _ & [-> | ->]);
      eexists; exists st'; (split; [exact Hrun |]).
    + repeat split; [unfold len; cbn; lia | cbn; lia | constructor].
    + destruct (a_result_facts max_results (AttendeeEngine.produced st'))
        as (_ & _ & Hfrom & Hlen). cbn zeta in *.
      repeat split; [apply length_slice_to, Hn | exact Hlen | exact Hfrom].
Qed.

(** C2, amended: in a run of the attendee engine every call to the
    provider is made while fewer than [max_results] attendees are
    accumulated, and when the first phase reaches the target, the run makes
    no call of a later phase; in a run of the event engine every call is
    made while fewer than twice [max_results] events are accumulated (the
    soft cap of its loop), so calls may follow after the target itself is
    reached. *)
Theorem queries_stop_at_target_or_soft_cap (max_results : Z) :
  (forall event_name event_date client w,
     Forall (fun f => Z.of_nat (AttendeeEngine.f_have f) < max_results)
       (AttendeeEngine.issued
          (AttendeeEngine.discover_attendees event_name event_date max_results
             (AttendeeEngine.start client w)).2)) /\
  (forall event_name event_date client w found1 st1,
     AttendeeEngine.run_phase 1 (max_results * 3) event_name max_results
       (take 3 (AttendeeEngine._generate_exact_queries event_name event_date))
       (AttendeeEngine.mk_found [] ∅) (AttendeeEngine.start client w)
       = (Some found1, st1) ->
     max_results <= len (AttendeeEngine.all_attendees found1) ->
     Forall (fun f => AttendeeEngine.f_phase f = 1%nat)
       (AttendeeEngine.issued
          (AttendeeEngine.discover_attendees event_name event_date max_results
             (AttendeeEngine.start client w)).2)) /\
  (forall self location start_date end_date categories w,
     Forall (fun f => Z.of_nat (EventEngine.f_have f) < max_results * 2)
       (EventEngine.issued
          (EventEngine.discover_events self location start_date end_date
             categories max_results (EventEngine.start w)).2)).
Proof.
  repeat split.
  - intros event_name event_date client w.
    destruct (AttendeeFacts.discover_attendees_spec max_results event_name
                event_date client w) as (l & st' & -> & [Hi _] & _).
    exact Hi.
  - intros event_name event_date client w found1 st1 Hrun Hlen.
    now apply (AttendeeFacts.first_phase_suffices max_results event_name
                 event_date client w found1 st1).
  - intros self location start_date end_date categories w.
    destruct (EventFacts.discover_events_spec self location start_date end_date
                categories max_results w) as (l & st' & -> & Hi & _).
    exact Hi.
Qed.

(** C3: the events a run returns have pairwise distinct deduplication keys
    (the normalized name, an underscore, and the first token of the display
    date or ["nodate"]), and each of them is the record seen first with its
    key: no record that passed the date filter before it has the same key. *)
Theorem returned_events_have_distinct_keys
  (self : EventEngine.SmartEventEngine) (location start_date end_date : string)
  (categories : list string) (max_results : Z) (w : EventEngine.World) :
  (forall event,
     EventEngine._create_event_key event =
     (fun token => normalized_name (EventEngine.event_name event) +:+ "_" +:+ token)
       <$> date_token (EventEngine.exact_date event)) /\
  exists l st',
    EventEngine.discover_events self location start_date end_date categories
      max_results (EventEngine.start w) = (Some l, st') /\
    NoDup (EventEngine._create_event_key <$> l) /\
    Forall (fun event => is_Some (EventEngine._create_event_key event)) l /\
    Forall (fun event =>
              exists e0 before after,
                event = scored e0 /\
                EventEngine.dated st' = before ++ e0 :: after /\
                Forall (fun x => EventEngine._create_event_key x
                                 <> EventEngine._create_event_key e0) before) l.
Proof.
  split; [apply key_parts |].
  destruct (EventFacts.discover_events_spec self location start_date end_date
              categories max_results w)
    as (l & st' & Hrun & _ & _ & [-> | (-> & _ & Hkeys)]);
    eexists; exists st'; (split; [exact Hrun |]).
  - repeat split; constructor.
  - destruct (e_result_facts max_results (EventEngine.dated st'))
      as (_ & _ & Hfrom & _ & Hnodup). cbn zeta in *.
    split; [exact Hnodup |]. split.
    + eapply Forall_impl; [exact Hfrom |].
      intros event (e0 & He0 & ->). rewrite key_scored.
      apply (elem_of_first_seen EventEngine._create_event_key) in He0.
      now apply (proj1 (Forall_forall _ _) Hkeys).
    + eapply Forall_impl; [exact Hfrom |].
      intros event (e0 & He0 & ->).
      apply (first_seen_first EventEngine._create_event_key) in He0
        as (before & after & Hd & Hfirst).
      exists e0, before, after. repeat split; [exact Hd |].
      now apply Forall_forall.
Qed.


(** C5: the hype score of every event and the relevance score of every
    post text and event name (whenever the function returns one) lie
    between 0 and 1, and so does the score of every event and of every
    attendee a run returns.  Scores are exact rationals here. *)
Theorem scores_in_unit_interval (max_results : Z) :
  (forall event, unit_score (EventEngine._calculate_hype_score event)) /\
  (forall tweet_text event_name,
     match AttendeeEngine._calculate_relevance_score_fast tweet_text event_name with
     | Some score => unit_score score
     | None => split_ws event_name = []
     end) /\
  (forall self location start_date end_date categories w,
     exists l st',
       EventEngine.discover_events self location start_date end_date categories
         max_results (EventEngine.start w) = (Some l, st') /\
       Forall (fun event => unit_score (EventEngine.hype_score event)) l) /\
  (forall event_name event_date client w,
     exists l st',
       AttendeeEngine.discover_attendees event_name event_date max_results
         (AttendeeEngine.start client w) = (Some l, st') /\
       Forall (fun a => unit_score (AttendeeEngine.relevance_score a)) l).
Proof.
  split; [apply ScoreFacts.hype_score_unit |].
  split; [apply ScoreFacts.relevance_score_unit |].
  split.
  - intros self location start_date end_date categories w.
    destruct (EventFacts.discover_events_spec self location start_date end_date
                categories max_results w)
      as (l & st' & Hrun & _ & _ & [-> | (-> & _)]);
      eexists; exists st'; (split; [exact Hrun |]).
    + constructor.
    + destruct (e_result_facts max_results (EventEngine.dated st'))
        as (_ & _ & Hfrom & _). cbn zeta in *.
      eapply Forall_impl; [exact Hfrom |].
      intros event (e0 & _ & ->). apply ScoreFacts.hype_score_unit.
  - intros event_name event_date client w.
    destruct (AttendeeFacts.discover_attendees_spec max_results event_name
                event_date client w)
      as (l & st' & Hrun & [_ Hgood] & [-> | ->]);
      eexists; exists st'; (split; [exact Hrun |]).
    + constructor.
    + destruct (a_result_facts max_results (AttendeeEngine.produced st'))
        as (_ & _ & Hfrom & _). cbn zeta in *.
      eapply Forall_impl; [exact Hfrom |].
      intros a Ha. now apply (proj1 (Forall_forall _ _) Hgood).
Qed.

(** C8: an event whose cleaned name is ["Event"] or ["events"] in any
    letter case, or empty, or shorter than three characters, or a generic
    placeholder, is refused by the validation, whatever its score would be;
    the record is skipped without an error, the other records giving what
    they give without it; and no run returns an event of such a name. *)
Theorem generic_names_never_returned :
  (forall name,
     lower name = "event" \/ lower name = "events" \/
     lower name = "unknown" \/ lower name = "unknown event" \/
     name = EmptyString \/ (String.length name < 3)%nat ->
     refused_name name) /\
  (forall event,
     refused_name (EventEngine.event_name event) ->
     EventEngine._is_valid_event event = false) /\
  (forall event_data event before after,
     EventEngine._parse_event_data_clean event_data = Some event ->
     refused_name (EventEngine.event_name event) ->
     omap EventEngine.parse_valid (before ++ event_data :: after) =
     omap EventEngine.parse_valid (before ++ after)) /\
  (forall self location start_date end_date categories max_results w,
     exists l st',
       EventEngine.discover_events self location start_date end_date categories
         max_results (EventEngine.start w) = (Some l, st') /\
       Forall (fun event => ~ refused_name (EventEngine.event_name event)) l).
Proof.
  split.
  { intros name Hname. unfold refused_name, EventEngine.generic_names.
    destruct Hname as [-> | [-> | [-> | [-> | [-> | Hlen]]]]];
      try (right; right; rewrite ?elem_of_cons; tauto).
    - now left.
    - right. now left. }
  split; [apply ValidFacts.refused_invalid |].
  split; [apply ValidFacts.parse_valid_skip |].
  intros self location start_date end_date categories max_results w.
  destruct (EventFacts.discover_events_spec self location start_date end_date
              categories max_results w)
    as (l & st' & Hrun & _ & Hvalid & [-> | (-> & Hsub & _)]);
    eexists; exists st'; (split; [exact Hrun |]).
  - constructor.
  - destruct (e_result_facts max_results (EventEngine.dated st'))
      as (_ & _ & Hfrom & _). cbn zeta in *.
    eapply Forall_impl; [exact Hfrom |].
    intros event (e0 & He0 & ->).
    change (EventEngine.event_name (scored e0)) with (EventEngine.event_name e0).
    apply ValidFacts.valid_not_refused.
    apply (proj1 (Forall_forall _ _) Hvalid).
    eapply elem_of_sublist; [| exact Hsub].
    now apply (elem_of_first_seen EventEngine._create_event_key).
Qed.

End Claims.

End DiscoveryFacts.

(** ** The claims on the two small providers *)

Module MockFacts.
Import PyStr PyList PyTime Notions Invariants DiscoveryFacts Mock.

Lemma returned_at_most_target_witness :
  (forall self location start_date end_date categories w,
     exists l st',
       EventEngine.discover_events self location start_date end_date categories
         1 (EventEngine.start w) = (Some l, st') /\
       len l <= 1 /\
       (length l <= distinct (EventEngine.produced st'))%nat /\
       Forall (fun event => EventEngine._is_valid_event event = true)
              (EventEngine.produced st') /\
       Forall (fun event => exists e0, e0 ∈ EventEngine.produced st' /\
                                       event = scored e0) l) /\
  (forall event_name event_date client w,
     exists l st',
       AttendeeEngine.discover_attendees event_name event_date 1
         (AttendeeEngine.start client w) = (Some l, st') /\
       len l <= 1 /\
       (length l <= distinct (AttendeeEngine.produced st'))%nat /\
       Forall (fun a => a ∈ AttendeeEngine.produced st') l).
Proof.
  apply (@returned_at_most_target_from_provider Mock.serp Mock.api 1). lia.
Defined.

(** The claim C2 has it that no query follows once the target is reached:
    with the target 1, the event engine makes its second call when one
    event is already accumulated. *)
Lemma event_queries_continue_past_target :
  EventEngine.issued
    (EventEngine.discover_events (EventEngine.mk_engine (Some "key")) "NYC"
       "2024-11-01" "2024-11-30" [] 1 (EventEngine.start 0%nat)).2
  = [EventEngine.mk_fetch "events NYC November 2024" 0;
     EventEngine.mk_fetch "November events NYC 2024" 1].
Proof. vm_compute. reflexivity. Qed.

Lemma queries_stop_witness :
  Forall (fun f => AttendeeEngine.f_phase f = 1%nat)
    (AttendeeEngine.issued
       (AttendeeEngine.discover_attendees "Jazz Fest" None 1
          (AttendeeEngine.start Mock.client 0%nat)).2).
Proof.
  destruct (@queries_stop_at_target_or_soft_cap Mock.serp Mock.api 1)
    as (_ & Hphase & _).
  eapply (Hphase "Jazz Fest" None Mock.client 0%nat).
  - vm_compute. reflexivity.
  - vm_compute. discriminate.
Defined.

Lemma generic_names_witness :
  EventEngine._is_valid_event
    (EventEngine.mk_event "EVENTS" "Nov 15" "Hall" "NYC" "other" (8 # 10)
       EmptyString "Event Search" (5 # 10) None) = false.
Proof.
  destruct (@generic_names_never_returned Mock.serp) as (Hname & Hinvalid & _).
  apply Hinvalid, Hname. cbn. tauto.
Defined.



End MockFacts.

(** ** The rate limiter: every endpoint, and the status report *)

Module QuotaFacts.
Import PyTime RateLimiter RateLimiterFacts Views.

Lemma check_rate_limit_other (now : instant) (endpoint other : string)
  (self : TwitterRateLimiter) :
  other <> endpoint ->
  rate_limits (check_rate_limit now endpoint self).2 !! other
  = rate_limits self !! other.
Proof.
  intros Hne. unfold check_rate_limit.
  destruct (rate_limits self !! endpoint) as [i |]; [| reflexivity].
  destruct (if _ <? now then _ else _) as [rem reset].
  destruct (0 <? rem); cbn; now rewrite lookup_insert_ne.
Qed.

Lemma check_rate_limit_entry (now : instant) (endpoint : string)
  (self : TwitterRateLimiter) (i : LimitInfo) :
  rate_limits self !! endpoint = Some i ->
  check_rate_limit now endpoint self
  = ((checked now i).1,
     mk_limiter (<[endpoint := (checked now i).2]> (rate_limits self))).
Proof.
  intros Hi. unfold check_rate_limit, checked. rewrite Hi.
  destruct (if _ <? now then _ else _) as [rem reset].
  now destruct (0 <? rem).
Qed.

Lemma checked_bounds (now : instant) (i : LimitInfo) :
  0 <= remaining i <= limit i ->
  0 <= remaining (checked now i).2 <= limit (checked now i).2 /\
  limit (checked now i).2 = limit i /\
  window_minutes (checked now i).2 = window_minutes i.
Proof.
  intros Hi. unfold checked.
  destruct (reset_time i) as [r |];
    (destruct (_ <? now); cbn -[Z.ltb]).
  all: try (destruct (Z.ltb_spec 0 (limit i)); cbn; lia).
  all: try (destruct (Z.ltb_spec 0 (remaining i)); cbn; lia).
Qed.

(** X1: a check never takes a count below zero or above its limit, never
    changes a limit or a window, and never adds or drops an endpoint. *)
Theorem check_keeps_counts_within_limits (now : instant) (endpoint : string)
  (self : TwitterRateLimiter) :
  map_Forall (fun _ i => 0 <= remaining i <= limit i) (rate_limits self) ->
  map_Forall (fun _ i => 0 <= remaining i <= limit i)
             (rate_limits (check_rate_limit now endpoint self).2) /\
  (forall e, limit <$> rate_limits (check_rate_limit now endpoint self).2 !! e
             = limit <$> rate_limits self !! e) /\
  (forall e, window_minutes <$> rate_limits (check_rate_limit now endpoint self).2 !! e
             = window_minutes <$> rate_limits self !! e).
Proof.
  intros Hall.
  destruct (rate_limits self !! endpoint) as [i |] eqn:Hi.
  - pose proof (checked_bounds now i (Hall _ _ Hi)) as (Hb & Hl & Hw).
    rewrite (check_rate_limit_entry _ _ _ _ Hi). cbn [snd rate_limits].
    split; [| split].
    + apply map_Forall_insert_2; assumption.
    + intros e. destruct (decide (e = endpoint)) as [-> | Hne].
      * rewrite lookup_insert_eq, Hi. cbn. now rewrite Hl.
      * now rewrite lookup_insert_ne.
    + intros e. destruct (decide (e = endpoint)) as [-> | Hne].
      * rewrite lookup_insert_eq, Hi. cbn. now rewrite Hw.
      * now rewrite lookup_insert_ne.
  - rewrite check_unconfigured by assumption. cbn. auto.
Qed.

Lemma check_keeps_counts_witness :
  map_Forall (fun _ i => 0 <= remaining i <= limit i)
             (rate_limits (check_rate_limit 0 "retweet" init).2) /\
  (forall e, limit <$> rate_limits (check_rate_limit 0 "retweet" init).2 !! e
             = limit <$> rate_limits init !! e) /\
  (forall e, window_minutes <$> rate_limits (check_rate_limit 0 "retweet" init).2 !! e
             = window_minutes <$> rate_limits init !! e).
Proof.
  apply (check_keeps_counts_within_limits 0 "retweet" init).
  refine (bool_decide_unpack _ _). vm_compute. exact I.
Defined.

(** X2: the endpoints have budgets of their own: a check changes no entry
    but that of its endpoint, and two checks on different endpoints give the
    same answers and the same limiter in either order. *)
Theorem checks_on_different_endpoints_commute
  (t1 t2 : instant) (e1 e2 : string) (self : TwitterRateLimiter) :
  e1 <> e2 ->
  rate_limits (check_rate_limit t1 e1 self).2 !! e2 = rate_limits self !! e2 /\
  (check_rate_limit t2 e2 (check_rate_limit t1 e1 self).2).1
    = (check_rate_limit t2 e2 self).1 /\
  (check_rate_limit t1 e1 (check_rate_limit t2 e2 self).2).1
    = (check_rate_limit t1 e1 self).1 /\
  (check_rate_limit t2 e2 (check_rate_limit t1 e1 self).2).2
    = (check_rate_limit t1 e1 (check_rate_limit t2 e2 self).2).2.
Proof.
  intros Hne.
  assert (H12 := check_rate_limit_other t1 e1 e2 self (not_eq_sym Hne)).
  assert (H21 := check_rate_limit_other t2 e2 e1 self Hne).
  split; [exact H12 |].
  destruct (rate_limits self !! e1) as [i1 |] eqn:H1;
    destruct (rate_limits self !! e2) as [i2 |] eqn:H2.
  - rewrite (check_rate_limit_entry t2 e2 _ i2 H12).
    rewrite (check_rate_limit_entry t1 e1 _ i1 H21).
    rewrite (check_rate_limit_entry t1 e1 self i1 H1).
    rewrite (check_rate_limit_entry t2 e2 self i2 H2).
    cbn [fst snd rate_limits]. repeat split.
    f_equal. now apply insert_insert_ne.
  - rewrite (check_rate_limit_entry t1 e1 _ i1 H21).
    rewrite (check_unconfigured _ t2 e2 H12).
    rewrite (check_unconfigured self t2 e2 H2).
    now rewrite (check_rate_limit_entry t1 e1 self i1 H1).
  - rewrite (check_rate_limit_entry t2 e2 _ i2 H12).
    rewrite (check_unconfigured _ t1 e1 H21).
    rewrite (check_unconfigured self t1 e1 H1).
    now rewrite (check_rate_limit_entry t2 e2 self i2 H2).
  - rewrite (check_unconfigured _ t2 e2 H12).
    rewrite (check_unconfigured _ t1 e1 H21).
    rewrite (check_unconfigured self t1 e1 H1).
    now rewrite (check_unconfigured self t2 e2 H2).
Qed.

Lemma checks_commute_witness :
  rate_limits (check_rate_limit 0 "retweet" init).2 !! "post_tweet"
    = rate_limits init !! "post_tweet" /\
  (check_rate_limit 5 "post_tweet" (check_rate_limit 0 "retweet" init).2).1
    = (check_rate_limit 5 "post_tweet" init).1 /\
  (check_rate_limit 0 "retweet" (check_rate_limit 5 "post_tweet" init).2).1
    = (check_rate_limit 0 "retweet" init).1 /\
  (check_rate_limit 5 "post_tweet" (check_rate_limit 0 "retweet" init).2).2
    = (check_rate_limit 0 "retweet" (check_rate_limit 5 "post_tweet" init).2).2.
Proof.
  apply (checks_on_different_endpoints_commute 0 5 "retweet" "post_tweet" init).
  discriminate.
Defined.

(** X3: inside one window, whatever the endpoint and its budget, the
    attempts are allowed until the budget is spent and denied from then on,
    and a denied attempt takes nothing. *)
Theorem attempts_allowed_until_budget_spent
  (m : gmap string LimitInfo) (endpoint : string) (lim reset w : Z)
  (times : list instant) (r : Z) :
  0 <= r ->
  Forall (fun t => t <= reset) times ->
  acquire_all endpoint times
    (mk_limiter (<[endpoint := mk_limit lim r (Some reset) w]> m))
  = (repeat true (Nat.min (Z.to_nat r) (length times))
     ++ repeat false (length times - Z.to_nat r),
     mk_limiter (<[endpoint :=
                     mk_limit lim (r - Z.of_nat (Nat.min (Z.to_nat r) (length times)))
                              (Some reset) w]> m)).
Proof.
  intros Hr Htimes. revert r Hr.
  induction Htimes as [| t times Ht _ IH]; intros r Hr.
  - cbn. rewrite Nat.min_0_r. cbn. now rewrite Z.sub_0_r.
  - cbn [acquire_all length].
    destruct (decide (r = 0)) as [-> | Hpos].
    + rewrite check_exhausted by assumption.
      rewrite (IH 0) by lia. change (Z.to_nat 0) with 0%nat.
      cbn [Nat.min Nat.sub repeat app]. now rewrite Nat.sub_0_r.
    + rewrite check_within by lia.
      rewrite (IH (r - 1)) by lia.
      replace (Z.to_nat r) with (S (Z.to_nat (r - 1))) by lia.
      cbn [Nat.min repeat app Nat.sub]. do 3 f_equal. f_equal. lia.
Qed.

Lemma attempts_allowed_witness :
  acquire_all "retweet" [1; 2; 3; 4; 5; 6]
    (mk_limiter (<["retweet" := mk_limit 5 4 (Some 900000000) 15]> (rate_limits init)))
  = (repeat true (Nat.min (Z.to_nat 4) 6) ++ repeat false (6 - Z.to_nat 4),
     mk_limiter (<["retweet" :=
                     mk_limit 5 (4 - Z.of_nat (Nat.min (Z.to_nat 4) 6))
                              (Some 900000000) 15]> (rate_limits init))).
Proof.
  apply (attempts_allowed_until_budget_spent (rate_limits init) "retweet" 5
           900000000 15 [1; 2; 3; 4; 5; 6] 4).
  - lia.
  - refine (bool_decide_unpack _ _). vm_compute. exact I.
Defined.

(** X4: the status report has one line for each configured endpoint and no
    other; a line shows the count and the limit of its entry, and a wait
    that is never negative, and zero when the entry was never used or its
    window is over. *)
Theorem limits_status_mirrors_limits (now : instant) (self : TwitterRateLimiter)
  (endpoint : string) :
  match rate_limits self !! endpoint with
  | None => get_limits_status now self !! endpoint = None
  | Some i =>
      exists st,
        get_limits_status now self !! endpoint = Some st /\
        st_remaining st = remaining i /\
        st_limit st = limit i /\
        0 <= st_reset_in_minutes st /\
        (reset_time i = None -> st_reset_in_minutes st = 0) /\
        (forall r, reset_time i = Some r -> r <= now -> st_reset_in_minutes st = 0)
  end.
Proof.
  unfold get_limits_status. rewrite lookup_fmap.
  destruct (rate_limits self !! endpoint) as [i |]; [| reflexivity].
  cbn. eexists. split; [reflexivity |]. cbn.
  repeat split.
  - destruct (reset_time i) as [r |]; [| lia].
    apply Z.div_pos; [lia | reflexivity].
  - now intros ->.
  - intros r -> Hr. rewrite Z.max_l by lia. reflexivity.
Qed.

(** X5: a first allowed attempt on an entry, then the status at the same
    instant: one unit less than before, and the whole window to wait. *)
Theorem status_after_first_attempt (now : instant) (endpoint : string)
  (self : TwitterRateLimiter) (i : LimitInfo) :
  rate_limits self !! endpoint = Some i ->
  reset_time i = None ->
  0 < remaining i ->
  0 <= window_minutes i ->
  (check_rate_limit now endpoint self).1 = true /\
  get_limits_status now (check_rate_limit now endpoint self).2 !! endpoint
  = Some (mk_status (remaining i - 1) (limit i) (window_minutes i)
                    (PyStr.str_of_int (window_minutes i) +:+ "min")).
Proof.
  intros Hi Hreset Hrem Hw.
  rewrite (check_rate_limit_entry _ _ _ _ Hi). cbn [fst snd].
  unfold get_limits_status. cbn [rate_limits].
  rewrite lookup_fmap, lookup_insert_eq. unfold checked. rewrite Hreset.
  assert (Hpos : 0 <= timedelta_minutes (window_minutes i))
    by (unfold timedelta_minutes; lia).
  destruct (Z.ltb_spec (now + timedelta_minutes (window_minutes i)) now); [lia |].
  destruct (Z.ltb_spec 0 (remaining i)); [| lia].
  split; [reflexivity |]. cbn. do 2 f_equal.
  replace (now + timedelta_minutes (window_minutes i) - now)
    with (timedelta_minutes (window_minutes i)) by lia.
  rewrite Z.max_r by assumption.
  unfold timedelta_minutes. rewrite Z.mul_1_l.
  replace (window_minutes i * 60 * 1000000)
    with (window_minutes i * (60 * 1000000)) by lia.
  now apply Z.div_mul.
Qed.

Lemma status_after_first_attempt_witness :
  (check_rate_limit 7 "post_tweet" init).1 = true /\
  get_limits_status 7 (check_rate_limit 7 "post_tweet" init).2 !! "post_tweet"
  = Some (mk_status (100 - 1) 100 1440 (PyStr.str_of_int 1440 +:+ "min")).
Proof.
  apply (status_after_first_attempt 7 "post_tweet" init (mk_limit 100 100 None 1440));
    [reflexivity | reflexivity | cbn; lia | cbn; lia].
Defined.

End QuotaFacts.

(** ** The client's own search budget *)

Module TwitterFacts.
Import PyTime Twitter.

Section Client.
Context `{Api}.

(** X6: the client's books stay balanced: from a client whose remaining
    and used searches add up to sixty, as a new client's do, a search leaves
    a client whose counts still add up to sixty, with nothing below zero, so
    that the usage report never shows more searches used than the limit. *)
Theorem search_keeps_budget_balanced (query : string) (max_results : Z)
  (self : TwitterClient) (w : World) :
  0 <= rate_limit_remaining self ->
  0 <= total_searches_used self ->
  rate_limit_remaining self + total_searches_used self = 60 ->
  let self' := (search_recent_tweets_safe query max_results self w).1.2 in
  0 <= rate_limit_remaining self' /\
  0 <= total_searches_used self' /\
  rate_limit_remaining self' + total_searches_used self' = 60 /\
  client_v2 self' = client_v2 self /\
  forall now,
    searches_remaining (get_usage_stats now self')
    + searches_used (get_usage_stats now self')
    = searches_limit (get_usage_stats now self') /\
    0 <= searches_used (get_usage_stats now self')
      <= searches_limit (get_usage_stats now self').
Proof.
  intros Hrem Hused Hsum self'.
  assert (Hmain : 0 <= rate_limit_remaining self' /\
                  0 <= total_searches_used self' /\
                  rate_limit_remaining self' + total_searches_used self' = 60 /\
                  client_v2 self' = client_v2 self).
  { subst self'. unfold search_recent_tweets_safe, _check_rate_limit.
    destruct (timedelta_seconds 900 <=? clock w - last_reset_time self);
      cbn [rate_limit_remaining client_v2 last_reset_time total_searches_used].
    - cbn. destruct (client_v2 self) eqn:Hc; cbn.
      + destruct (search_recent_tweets query (Z.min max_results 15) w) as [[r |] w'];
          cbn; repeat split; solve [lia | congruence].
      + repeat split; solve [lia | congruence].
    - destruct (Z.leb_spec (rate_limit_remaining self) 0); cbn.
      + repeat split; solve [lia | congruence].
      + destruct (client_v2 self) eqn:Hc; cbn.
        * destruct (search_recent_tweets query (Z.min max_results 15) w) as [[r |] w'];
            cbn; repeat split; solve [lia | congruence].
        * repeat split; solve [lia | congruence]. }
  destruct Hmain as (H1 & H2 & H3 & H4).
  split; [exact H1 |]. split; [exact H2 |]. split; [exact H3 |].
  split; [exact H4 |].
  intros now. unfold get_usage_stats. cbn. lia.
Qed.

(** X7: a search asked for while the budget is spent and the window still
    runs gives nothing, and neither the provider nor the client hear of it;
    a search whose call to the provider raises gives nothing and takes
    nothing from the budget. *)
Theorem spent_budget_blocks_search (query : string) (max_results : Z)
  (self : TwitterClient) (w : World) :
  clock w - last_reset_time self < timedelta_seconds 900 ->
  (rate_limit_remaining self <= 0 ->
   search_recent_tweets_safe query max_results self w = (None, self, w)) /\
  (forall w',
     search_recent_tweets query (Z.min max_results 15) w = (None, w') ->
     (search_recent_tweets_safe query max_results self w).1 = (None, self)).
Proof.
  intros Hwin. unfold search_recent_tweets_safe, _check_rate_limit.
  destruct (Z.leb_spec (timedelta_seconds 900) (clock w - last_reset_time self));
    [lia |].
  split.
  - intros Hrem. destruct (Z.leb_spec (rate_limit_remaining self) 0); [| lia].
    reflexivity.
  - intros w' Hcall.
    destruct (rate_limit_remaining self <=? 0); [reflexivity |]. cbn.
    destruct (client_v2 self); [| reflexivity]. cbn. now rewrite Hcall.
Qed.

End Client.

(** X8: the wait the usage report shows is a whole number of minutes from
    zero to fifteen when the clock has not gone back behind the last reset,
    and zero from the last minute of the window on. *)
Theorem usage_stats_wait_bounded (now : instant) (self : TwitterClient) :
  last_reset_time self <= now ->
  0 <= reset_in_minutes (get_usage_stats now self) <= 15 /\
  (timedelta_seconds 840 < now - last_reset_time self ->
   reset_in_minutes (get_usage_stats now self) = 0) /\
  (now = last_reset_time self ->
   reset_in_minutes (get_usage_stats now self) = 15).
Proof.
  intros Hnow. unfold get_usage_stats, timedelta_seconds. cbn.
  split; [| split].
  - split.
    + apply Z.div_pos; lia.
    + apply Z.div_le_upper_bound; lia.
  - intros Hlate. apply Z.div_small. lia.
  - intros ->. rewrite Z.sub_diag, Z.sub_0_r. reflexivity.
Qed.

Lemma usage_stats_wait_witness :
  0 <= reset_in_minutes (get_usage_stats 61000000 (init 0 true)) <= 15 /\
  (timedelta_seconds 840 < 61000000 - last_reset_time (init 0 true) ->
   reset_in_minutes (get_usage_stats 61000000 (init 0 true)) = 0) /\
  (61000000 = last_reset_time (init 0 true) ->
   reset_in_minutes (get_usage_stats 61000000 (init 0 true)) = 15).
Proof.
  apply (usage_stats_wait_bounded 61000000 (init 0 true)). cbn. lia.
Defined.

End TwitterFacts.

(** ** The attendee engine: what a run asks for and what it hands out *)

Module AttendeeMore.
Import PyStr PyList Notions Invariants Views Run RunFacts FirstSeenFacts.
Import PyListFacts AttendeeEngine AttendeeFacts.

Lemma length_take_str (n : nat) (s : string) :
  (String.length (take_str n s) <= n)%nat.
Proof.
  revert s. induction n as [| n IH]; intros [| c s]; cbn; try lia.
  specialize (IH s). lia.
Qed.

Lemma engagement_kinds (tweet_text : string) :
  _detect_engagement_fast tweet_text
    ∈ ["confirmed_attendance"; "excited"; "discussing"].
Proof.
  unfold _detect_engagement_fast.
  destruct (any_in _ _); [set_solver |].
  destruct (any_in _ _); set_solver.
Qed.

Lemma make_attendee_shape (user : Twitter.User) (tweet : Twitter.Tweet) (score : Q) :
  (relevance_threshold <= score <= 1)%Q ->
  attendee_shape (make_attendee user tweet score).
Proof.
  intros Hs. unfold attendee_shape, make_attendee.
  cbn [username confidence_score relevance_score post_content engagement_type].
  split; [| split; [reflexivity | split; [exact Hs | split]]].
  - unfold String.append. cbn. now destruct (Twitter.username user).
  - destruct (Nat.ltb_spec 100 (String.length (Twitter.text tweet)))
      as [Hlong | Hshort].
    + rewrite DateFacts.length_app_str.
      pose proof (length_take_str 100 (Twitter.text tweet)).
      change (String.length "...") with 3%nat. lia.
    + lia.
  - apply engagement_kinds.
Qed.

Lemma process_data_shape (users_dict : gmap Z Twitter.User) (event_name : string)
  (tweets : list Twitter.Tweet) (l : list ResearchAttendee) :
  process_data users_dict event_name tweets = Some l ->
  Forall attendee_shape l /\ (length l <= length tweets)%nat.
Proof.
  revert l. induction tweets as [| tweet tweets IH]; intros l; cbn.
  - intros [= <-]. split; [constructor | cbn; lia].
  - destruct (users_dict !! Twitter.author_id tweet) as [user |].
    2: { intros Hl. destruct (IH _ Hl). split; [assumption | lia]. }
    pose proof (ScoreFacts.relevance_score_unit (Twitter.text tweet) event_name) as Hs.
    destruct (_calculate_relevance_score_fast (Twitter.text tweet) event_name)
      as [score |]; cbn; [| discriminate].
    destruct (process_data users_dict event_name tweets) as [rest |]; cbn;
      [| discriminate].
    destruct (IH rest eq_refl) as [Hrest Hlen].
    destruct (Qle_bool relevance_threshold score) eqn:Hq; intros [= <-].
    + split; [| cbn; lia]. constructor; [| exact Hrest].
      apply make_attendee_shape. apply Qle_bool_iff in Hq.
      split; [exact Hq | apply Hs].
    + split; [exact Hrest | lia].
Qed.

Lemma process_tweets_shape (tweets : Twitter.Response) (event_name : string)
  (l : list ResearchAttendee) :
  _process_tweets_fast tweets event_name = Some l ->
  Forall attendee_shape l /\
  (length l <= length (default [] (Twitter.data tweets)))%nat.
Proof.
  unfold _process_tweets_fast.
  destruct (Twitter.includes tweets) as [users |].
  - destruct (Twitter.data tweets) as [tweets_data |]; cbn; [| discriminate].
    apply process_data_shape.
  - intros [= <-]. split; [constructor | cbn; lia].
Qed.

Section Engine.
Context `{Twitter.Api}.

Ltac by_ret := let st := fresh "st" in let Hst := fresh "Hst" in
               intros st Hst; exact Hst.

(** *** What holds of every attendee a run produces *)

Section Produced.
Variable G : ResearchAttendee -> Prop.
Hypothesis process_G :
  forall tweets event_name l,
    _process_tweets_fast tweets event_name = Some l -> Forall G l.

Lemma search_and_process_produced (query event_name : string) (max_results : Z) :
  triple (fun st => Forall G (produced st))
         (_search_and_process query event_name max_results)
         (fun l st => Forall G (produced st) /\ Forall G l)
         (fun st => Forall G (produced st)).
Proof.
  unfold _search_and_process.
  eapply triple_bind;
    [apply (call_search_frame (fun _ p => Forall G p)) |].
  intros [tweets |]; [| intros st HP; cbn; split; [exact HP | constructor]].
  destruct (Twitter.data tweets) as [[| t ts] |] eqn:Hd;
    try (intros st HP; cbn; split; [exact HP | constructor]).
  intros st HP. unfold lift.
  destruct (_process_tweets_fast tweets event_name) as [l |] eqn:Hl; [| exact HP].
  split; [exact HP | now apply process_G in Hl].
Qed.

Lemma run_phase_produced (phase : nat) (hint : Z) (event_name : string)
  (max_results : Z) (queries : list (string * string)) (found : Found) :
  triple (fun st => Forall G (produced st))
         (run_phase phase hint event_name max_results queries found)
         (fun _ st => Forall G (produced st))
         (fun st => Forall G (produced st)).
Proof.
  revert found. induction queries as [| [query_type query] queries IH]; intros found.
  - by_ret.
  - cbn [run_phase].
    destruct (len (all_attendees found) >=? max_results); [by_ret |].
    apply triple_bind with (Q := fun _ st => Forall G (produced st)); [by_ret |].
    intros []. eapply triple_bind; [apply search_and_process_produced |].
    intros attendees.
    apply triple_bind with (Q := fun _ st => Forall G (produced st));
      [| intros []; apply IH].
    intros st [Hp Hl]. cbn. apply Forall_app. now split.
Qed.

Lemma find_unsorted_produced (event_name : string) (event_date : option string)
  (max_results : Z) :
  triple (fun st => Forall G (produced st))
         (find_unsorted event_name event_date max_results)
         (fun _ st => Forall G (produced st))
         (fun st => Forall G (produced st)).
Proof.
  unfold find_unsorted.
  eapply triple_bind; [apply run_phase_produced |]. intros found1.
  apply triple_bind with (Q := fun _ st => Forall G (produced st)).
  { destruct (len (all_attendees found1) <? max_results); [| by_ret].
    eapply triple_bind; [| intros qs; apply run_phase_produced].
    intros st Hst. unfold lift.
    destruct (_generate_smart_keyword_queries event_name); exact Hst. }
  intros found2.
  destruct (len (all_attendees found2) <? max_results); [| by_ret].
  eapply triple_bind; [| intros qs; apply run_phase_produced].
  intros st Hst. unfold lift.
  destruct (_generate_broad_queries event_name); exact Hst.
Qed.

Lemma discover_attendees_produced (event_name : string)
  (event_date : option string) (max_results : Z) :
  triple (fun st => Forall G (produced st))
         (discover_attendees event_name event_date max_results)
         (fun _ st => Forall G (produced st))
         (fun _ => False).
Proof.
  unfold discover_attendees. apply triple_try_except.
  apply triple_bind with (Q := fun _ st => Forall G (produced st)); [by_ret |].
  intros st0. destruct (negb _); [by_ret |].
  apply triple_bind with (Q := fun _ st => Forall G (produced st)); [| intros; by_ret].
  unfold _guaranteed_find_attendees.
  eapply triple_bind; [apply find_unsorted_produced | intros; by_ret].
Qed.

End Produced.

(** *** How many calls a run makes *)

Lemma run_phase_count (phase : nat) (hint : Z) (event_name : string)
  (max_results : Z) (queries : list (string * string)) (found : Found) (n : nat) :
  triple (fun st => (length (issued st) <= n)%nat)
         (run_phase phase hint event_name max_results queries found)
         (fun _ st => (length (issued st) <= n + length queries)%nat)
         (fun st => (length (issued st) <= n + length queries)%nat).
Proof.
  revert found n. induction queries as [| [query_type query] queries IH];
    intros found n.
  - intros st Hst. cbn. lia.
  - cbn [run_phase].
    destruct (len (all_attendees found) >=? max_results);
      [intros st Hst; cbn; lia |].
    apply triple_bind with (Q := fun _ st => (length (issued st) <= S n)%nat).
    { intros st Hst. cbn. rewrite length_app. cbn. lia. }
    intros []. eapply triple_bind.
    { eapply triple_conseq;
        [| | | apply (search_and_process_spec
                        (fun i _ => (length i <= S n)%nat))].
      - intros st Hst. exact Hst.
      - intros l st Hst. exact Hst.
      - intros st Hst. cbn in Hst |- *. lia. }
    intros attendees.
    apply triple_bind with (Q := fun _ st => (length (issued st) <= S n)%nat).
    { intros st [Hst _]. exact Hst. }
    intros []. eapply triple_conseq; [| | | apply (IH _ (S n))].
    + intros st Hst. exact Hst.
    + intros a st Hst. cbn in Hst |- *. lia.
    + intros st Hst. cbn in Hst |- *. lia.
Qed.

Lemma run_phase_count_le (phase : nat) (hint : Z) (event_name : string)
  (max_results : Z) (queries : list (string * string)) (found : Found)
  (n k : nat) :
  (length queries <= k)%nat ->
  triple (fun st => (length (issued st) <= n)%nat)
         (run_phase phase hint event_name max_results queries found)
         (fun _ st => (length (issued st) <= n + k)%nat)
         (fun st => (length (issued st) <= n + k)%nat).
Proof.
  intros Hk. eapply triple_conseq; [| | | apply (run_phase_count _ _ _ _ _ _ n)].
  - intros st Hst. exact Hst.
  - intros a st Hst. cbn in Hst |- *. lia.
  - intros st Hst. cbn in Hst |- *. lia.
Qed.

Lemma smart_keyword_queries_length (event_name : string)
  (queries : list (string * string)) :
  _generate_smart_keyword_queries event_name = Some queries ->
  (length queries <= 2)%nat.
Proof.
  unfold _generate_smart_keyword_queries.
  destruct (_extract_keywords event_name) as [[| k0 [| k1 ks]] |]; cbn;
    try discriminate; intros [= <-]; cbn; lia.
Qed.

Lemma find_unsorted_count (event_name : string) (event_date : option string)
  (max_results : Z) :
  triple (fun st => issued st = [])
         (find_unsorted event_name event_date max_results)
         (fun _ st => (length (issued st) <= 7)%nat)
         (fun st => (length (issued st) <= 7)%nat).
Proof.
  unfold find_unsorted.
  apply triple_bind with (Q := fun _ st => (length (issued st) <= 3)%nat).
  { eapply triple_conseq;
      [| | | apply (run_phase_count_le _ _ _ _ _ _ 0 3)].
    - intros st Hst. cbn. rewrite Hst. cbn. lia.
    - intros a st Hst. exact Hst.
    - intros st Hst. cbn in Hst. lia.
    - rewrite length_take. lia. }
  intros found1.
  apply triple_bind with (Q := fun _ st => (length (issued st) <= 5)%nat).
  { destruct (len (all_attendees found1) <? max_results);
      [| intros st Hst; cbn; lia].
    apply triple_bind with
      (Q := fun qs st => (length (issued st) <= 3)%nat /\ (length qs <= 2)%nat).
    - intros st Hst. unfold lift.
      destruct (_generate_smart_keyword_queries event_name) as [qs |] eqn:Hqs;
        [| lia].
      split; [exact Hst | now apply smart_keyword_queries_length in Hqs].
    - intros qs st [Hst Hqs].
      assert (Hk : (length (take 3 qs) <= 2)%nat) by (rewrite length_take; lia).
      pose proof (run_phase_count_le 2 (max_results * 2) event_name max_results
                    (take 3 qs) found1 3 2 Hk st Hst) as Hrun.
      destruct (run_phase _ _ _ _ _ _ st) as [[found |] st'];
        cbn in Hrun |- *; lia. }
  intros found2.
  destruct (len (all_attendees found2) <? max_results);
    [| intros st Hst; cbn; lia].
  apply triple_bind with (Q := fun _ st => (length (issued st) <= 5)%nat).
  - intros st Hst. unfold lift.
    destruct (_generate_broad_queries event_name); [exact Hst | lia].
  - intros qs. eapply triple_conseq;
      [| | | apply (run_phase_count_le _ _ _ _ _ _ 5 2)].
    + intros st Hst. exact Hst.
    + intros a st Hst. exact Hst.
    + intros st Hst. exact Hst.
    + rewrite length_take. lia.
Qed.

(** X9: a run of the attendee engine makes seven searches at most: three
    at most in the first phase, and two at most in each of the other two,
    for there are never more than two keyword queries. *)
Theorem at_most_seven_searches (event_name : string) (event_date : option string)
  (max_results : Z) (client : Twitter.TwitterClient) (w : Twitter.World) :
  (length (issued (discover_attendees event_name event_date max_results
                     (start client w)).2) <= 7)%nat.
Proof.
  assert (Ht : triple (fun st => issued st = [])
                 (discover_attendees event_name event_date max_results)
                 (fun _ st => (length (issued st) <= 7)%nat)
                 (fun _ => False)).
  { unfold discover_attendees. apply triple_try_except.
    apply triple_bind with (Q := fun _ st => issued st = []); [by_ret |].
    intros st0. destruct (negb _); [intros st Hst; cbn; rewrite Hst; cbn; lia |].
    apply triple_bind with (Q := fun _ st => (length (issued st) <= 7)%nat);
      [| intros; by_ret].
    unfold _guaranteed_find_attendees.
    eapply triple_bind; [apply find_unsorted_count | intros; by_ret]. }
  specialize (Ht (start client w) eq_refl).
  destruct (discover_attendees _ _ _ _) as [[l |] st']; [exact Ht | contradiction].
Qed.

(** X10: the attendees a run returns have user names that differ from one
    another, and the attendee returned for a user name is the first one the
    searches produced with that name. *)
Theorem returned_attendees_have_distinct_usernames
  (event_name : string) (event_date : option string) (max_results : Z)
  (client : Twitter.TwitterClient) (w : Twitter.World) :
  exists l st',
    discover_attendees event_name event_date max_results (start client w)
      = (Some l, st') /\
    NoDup (username <$> l) /\
    Forall (fun a => exists before after,
                produced st' = before ++ a :: after /\
                Forall (fun x => username x <> username a) before) l.
Proof.
  destruct (discover_attendees_spec max_results event_name event_date client w)
    as (l & st' & Hrun & _ & Hl).
  exists l, st'. split; [exact Hrun |].
  destruct Hl as [-> | ->]; [split; constructor |].
  unfold result_of.
  set (F := first_seen username (produced st')).
  set (kept := take (Z.to_nat max_results) F).
  assert (Hsub : forall a, a ∈ slice_to max_results
                               (sort_desc Qltb relevance_score kept) -> a ∈ F).
  { intros a Ha. apply elem_of_slice_to in Ha.
    rewrite (sort_desc_perm Qltb relevance_score kept) in Ha.
    unfold kept in Ha. exact (elem_of_prefix _ _ _ Ha (prefix_take _ _)). }
  split.
  - apply (DiscoveryFacts.NoDup_prefix
             _ (username <$> sort_desc Qltb relevance_score kept)).
    + apply DiscoveryFacts.fmap_prefix, slice_to_prefix.
    + rewrite (sort_desc_perm Qltb relevance_score kept).
      apply (DiscoveryFacts.NoDup_prefix _ (username <$> F)).
      * apply DiscoveryFacts.fmap_prefix, prefix_take.
      * apply first_seen_NoDup.
  - apply Forall_forall. intros a Ha. apply Hsub in Ha.
    destruct (first_seen_first username _ _ Ha) as (l1 & l2 & Heq & Hfirst).
    exists l1, l2. split; [exact Heq |].
    apply Forall_forall. intros x Hx. apply Hfirst. exact Hx.
Qed.

(** X11: every attendee a run returns has the shape of an attendee made
    from a tweet: the at sign in front of the user name, the confidence of
    0.7, a relevance of 0.05 at least, and a post of 103 characters at
    most; and a response gives one attendee for a tweet at most. *)
Theorem returned_attendees_have_the_shape
  (event_name : string) (event_date : option string) (max_results : Z)
  (client : Twitter.TwitterClient) (w : Twitter.World) :
  (forall tweets name l,
     _process_tweets_fast tweets name = Some l ->
     Forall attendee_shape l /\
     (length l <= length (default [] (Twitter.data tweets)))%nat) /\
  exists l st',
    discover_attendees event_name event_date max_results (start client w)
      = (Some l, st') /\
    Forall attendee_shape l.
Proof.
  split; [apply process_tweets_shape |].
  destruct (discover_attendees_spec max_results event_name event_date client w)
    as (l & st' & Hrun & _ & Hl).
  exists l, st'. split; [exact Hrun |].
  destruct Hl as [-> | ->]; [constructor |].
  pose proof (discover_attendees_produced attendee_shape
                (fun t n l0 Hl0 => proj1 (process_tweets_shape t n l0 Hl0))
                event_name event_date max_results (start client w)) as Hp.
  rewrite Hrun in Hp. specialize (Hp (Forall_nil_2 _)).
  destruct (DiscoveryFacts.a_result_facts max_results (produced st'))
    as (_ & _ & Hfrom & _).
  apply Forall_forall. intros a Ha.
  rewrite Forall_forall in Hfrom, Hp. apply Hp, Hfrom, Ha.
Qed.

Lemma take_3_exact_queries (event_name : string) (event_date : option string) :
  take 3 (_generate_exact_queries event_name event_date)
  = take 3 (_generate_exact_queries event_name None).
Proof.
  unfold _generate_exact_queries.
  destruct event_date as [d |]; [| reflexivity].
  now destruct (is_empty d).
Qed.

(** X12: the date handed to the attendee engine changes nothing: the
    query that carries it is the fourth in its list and the engine takes
    three, so a run with a date is the run without one, call for call. *)
Theorem event_date_changes_nothing (event_name : string)
  (event_date : option string) (max_results : Z) (st : St) :
  take 3 (_generate_exact_queries event_name event_date)
    = take 3 (_generate_exact_queries event_name None) /\
  discover_attendees event_name event_date max_results st
  = discover_attendees event_name None max_results st.
Proof.
  split; [apply take_3_exact_queries |].
  unfold discover_attendees, _guaranteed_find_attendees, find_unsorted.
  now rewrite take_3_exact_queries.
Qed.

End Engine.

(** *** The signals of relevance *)

Lemma keyword_part_cases (n : Z) :
  0 <= n ->
  (n = 0 /\ (Qmin (3 # 10) (inject_Z n * (1 # 10)) == 0)%Q) \/
  (0 < n /\ (1 # 10 <= Qmin (3 # 10) (inject_Z n * (1 # 10)))%Q /\
            (Qmin (3 # 10) (inject_Z n * (1 # 10)) <= 3 # 10)%Q).
Proof.
  intros Hn. destruct (Z.eq_dec n 0) as [-> | Hpos].
  - left. split; [reflexivity | vm_compute; reflexivity].
  - right. split; [lia |]. split.
    + apply Q.min_glb; [lra |].
      assert (1 <= inject_Z n)%Q
        by (change 1%Q with (inject_Z 1); rewrite <- Zle_Qle; lia).
      lra.
    + apply Q.le_min_l.
Qed.

(** X13: a tweet is kept exactly when it shows a signal: the event name,
    a keyword of it, a phrase of engagement or a word of the event context;
    and a tweet with the event name in it scores 0.6 at least. *)
Theorem tweet_kept_iff_it_shows_a_signal
  (tweet_text event_name : string) (keywords : list string) :
  _extract_keywords event_name = Some keywords ->
  exists score,
    _calculate_relevance_score_fast tweet_text event_name = Some score /\
    Qle_bool relevance_threshold score = shows_signal tweet_text event_name keywords /\
    (contains (lower event_name) (lower tweet_text) = true -> (6 # 10 <= score)%Q).
Proof.
  intros Hk. unfold _calculate_relevance_score_fast, shows_signal.
  rewrite Hk. cbn [mbind option_bind].
  eexists. split; [reflexivity |].
  pose proof (ScoreFacts.count_in_nonneg keywords (lower tweet_text)) as Hc.
  destruct (keyword_part_cases _ Hc) as [[H0 Hq] | (Hpos & Hlo & Hhi)].
  - rewrite H0 in *. change (0 <? 0) with false.
    set (q := Qmin (3 # 10) (inject_Z 0 * (1 # 10))) in *.
    unfold relevance_threshold.
    destruct (contains (lower event_name) (lower tweet_text));
      destruct (any_in _ (lower tweet_text));
      destruct (any_in _ (lower tweet_text)); cbn [orb];
      (split; [| intros; try discriminate]);
      try (apply Qle_bool_iff; apply Q.min_glb; lra);
      try (apply Q.min_glb; lra).
    apply not_true_is_false. intros Hle. apply Qle_bool_iff in Hle.
    rewrite Q.min_r in Hle by lra. lra.
  - destruct (Z.ltb_spec 0 (count_in keywords (lower tweet_text))); [| lia].
    set (q := Qmin (3 # 10) (inject_Z _ * (1 # 10))) in *.
    unfold relevance_threshold.
    destruct (contains (lower event_name) (lower tweet_text));
      destruct (any_in _ (lower tweet_text));
      destruct (any_in _ (lower tweet_text)); cbn [orb];
      (split; [| intros; try discriminate]);
      try (apply Qle_bool_iff; apply Q.min_glb; lra);
      try (apply Q.min_glb; lra).
Qed.

End AttendeeMore.

(** ** Dates: what the parsers give, and what the filter makes of it *)

Module DateMore.
Import PyStr PyList PyTime Notions Views Run RunFacts EventEngine DateFacts.

(** The order of the datetimes, field by field. *)
Lemma lex_ltb_le_trans (a b c : list Z) :
  length a = length b -> length b = length c ->
  lex_ltb a c = true -> lex_ltb b c = false -> lex_ltb a b = true.
Proof.
  revert b c. induction a as [| x a IH]; intros [| y b] [| z c]; cbn;
    try discriminate.
  intros [= Hab] [= Hbc] Hac Hbc'.
  destruct (Z.ltb_spec x z), (Z.eqb_spec x z), (Z.ltb_spec y z), (Z.eqb_spec y z),
    (Z.ltb_spec x y), (Z.eqb_spec x y); cbn in *;
    try lia; try discriminate; try reflexivity.
  now apply (IH b c).
Qed.

Lemma ltb_le_trans (a b c : datetime) :
  ltb a c = true -> ltb b c = false -> ltb a b = true.
Proof. unfold ltb. now apply lex_ltb_le_trans. Qed.

Lemma resolve_not_before (now : datetime) (m d : Z) (dt : datetime) :
  resolve now m d = Some dt ->
  ltb dt now = false /\
  (year dt = year now \/ year dt = year now + 1) /\
  dt = midnight (year dt) m d.
Proof.
  unfold resolve, mk_date, replace_year, replace_year_month.
  destruct (valid_date (year now) m d); [| discriminate].
  cbn [mbind option_bind year month day hour minute second microsecond].
  destruct (ltb (mk_datetime (year now) m d 0 0 0 0) now) eqn:Hl.
  - destruct (valid_date (year now + 1) m d); [| discriminate].
    intros [= <-]. cbn [year]. split; [| split; [now right | reflexivity]].
    unfold ltb, fields. cbn [lex_ltb year].
    destruct (Z.ltb_spec (year now + 1) (year now)); [lia |].
    destruct (Z.eqb_spec (year now + 1) (year now)); [lia | reflexivity].
  - intros [= <-]. cbn [year]. split; [exact Hl | split; [now left | reflexivity]].
Qed.

Lemma find_month_day_resolve (now : datetime) (clean_str : string)
  (table : list (string * Z)) (dt : datetime) :
  find_month_day now clean_str table = Some dt ->
  exists m d, resolve now m d = Some dt.
Proof.
  induction table as [| [month_name month_num] table IH]; [discriminate |].
  cbn [find_month_day].
  destruct (contains month_name (lower clean_str)); [| exact IH].
  destruct (day_match clean_str) as [ds |]; [| exact IH].
  intros Hdt. now exists month_num, (int_of_digits ds).
Qed.

Lemma parse_date_string_resolve (now : datetime) (date_str : string) (dt : datetime) :
  _parse_date_string now date_str = Some dt ->
  exists m d, resolve now m d = Some dt.
Proof.
  unfold _parse_date_string. destruct (is_empty date_str); [discriminate |].
  destruct (if _ && _ then _ else _) as [clean_str |]; [| discriminate].
  apply find_month_day_resolve.
Qed.

(** *** The day and the year of a date the user wrote out *)

Lemma lower_char_two (c : ascii) : is_char_i "2" c = true -> is_digit c = true.
Proof.
  destruct c as [[] [] [] [] [] [] [] []]; cbn; intros Hc;
    first [reflexivity | discriminate Hc].
Qed.

Lemma no_digit_no_two (s : string) :
  no_digit s = true ->
  forallb (fun c => negb (is_char_i "2" c)) (list_ascii_of_string s) = true.
Proof.
  unfold no_digit. induction s as [| c s IH]; [reflexivity |].
  cbn [list_ascii_of_string forallb]. intros [Hc Hs]%andb_prop.
  rewrite (IH Hs), andb_true_r.
  destruct (is_char_i "2" c) eqn:H2; [| reflexivity].
  apply lower_char_two in H2. now rewrite H2 in Hc.
Qed.

(** A search whose pattern starts with a character of a class goes past
    the characters that are not of the class. *)
Lemma search_skip (p : ascii -> bool) (pat : pattern) (pre s : string) :
  forallb (fun c => negb (p c)) (list_ascii_of_string pre) = true ->
  search (One p :: pat) (pre +:+ s)
  = match search (One p :: pat) s with
    | Some (b, m, a) => Some (pre +:+ b, m, a)
    | None => None
    end.
Proof.
  induction pre as [| c pre IH]; intros Hpre.
  - change (EmptyString +:+ s) with s.
    destruct (search (One p :: pat) s) as [[[b m] a] |]; reflexivity.
  - cbn [list_ascii_of_string forallb] in Hpre.
    apply andb_prop in Hpre as [Hc Hpre]. apply negb_true_iff in Hc.
    change (String c pre +:+ s) with (String c (pre +:+ s)).
    cbn [search match_here step]. rewrite Hc, (IH Hpre).
    destruct (search (One p :: pat) s) as [[[b m] a] |]; reflexivity.
Qed.

Lemma search_none (p : ascii -> bool) (pat : pattern) (s : string) :
  forallb (fun c => negb (p c)) (list_ascii_of_string s) = true ->
  search (One p :: pat) s = None.
Proof.
  induction s as [| c s IH]; intros Hs; [reflexivity |].
  cbn [list_ascii_of_string forallb] in Hs.
  apply andb_prop in Hs as [Hc Hs]. apply negb_true_iff in Hc.
  cbn [search match_here step]. now rewrite Hc, (IH Hs).
Qed.

(** In front of a year of this century the day pattern takes the first two
    digits of the year. *)
Lemma day_match_year (pre rest : string) :
  no_digit pre = true ->
  day_match (pre +:+ "20" +:+ rest) = Some "20".
Proof.
  intros Hpre. unfold day_match. rewrite (search_skip is_digit _ _ _ Hpre).
  change ("20" +:+ rest) with (String "2" (String "0" rest)).
  rewrite (search_here _ _ rest) by reflexivity.
  cbn [String.length].
  replace (S (S (String.length rest)) - String.length rest)%nat with 2%nat by lia.
  reflexivity.
Qed.

Lemma year_match_year (pre post : string) (d1 d2 : ascii) :
  no_digit pre = true -> is_digit d1 = true -> is_digit d2 = true ->
  year_match (pre +:+ "20" +:+ String d1 (String d2 post))
  = Some (String "2" (String "0" (String d1 (String d2 EmptyString)))).
Proof.
  intros Hpre H1 H2. unfold year_match.
  change (lit_i "20" ++ [One is_digit; One is_digit])
    with [One (is_char_i "2"); One (is_char_i "0"); One is_digit; One is_digit].
  rewrite (search_skip _ _ _ _ (no_digit_no_two _ Hpre)).
  change ("20" +:+ String d1 (String d2 post))
    with (String "2" (String "0" (String d1 (String d2 post)))).
  cbn [search match_here step].
  change (is_char_i "2" "2") with true. change (is_char_i "0" "0") with true.
  cbn iota. rewrite H1, H2. cbn [String.length].
  replace (S (S (S (S (String.length post)))) - String.length post)%nat
    with 4%nat by lia.
  reflexivity.
Qed.

Lemma no_digit_none (s : string) :
  no_digit s = true -> day_match s = None /\ year_match s = None.
Proof.
  intros Hs. unfold day_match, year_match.
  change (lit_i "20" ++ [One is_digit; One is_digit])
    with [One (is_char_i "2"); One (is_char_i "0"); One is_digit; One is_digit].
  rewrite (search_none is_digit _ _ Hs).
  now rewrite (search_none _ _ _ (no_digit_no_two _ Hs)).
Qed.

Section Engine.
Context `{Serp}.

Lemma parse_serpapi_resolve (now : datetime) (date_info : string) (dt : datetime) :
  _parse_serpapi_date now date_info = Some dt ->
  exists m d, resolve now m d = Some dt.
Proof.
  unfold _parse_serpapi_date. destruct (is_empty date_info); [discriminate |].
  destruct (_ ≫= _) as [date_str |]; apply parse_date_string_resolve.
Qed.

Lemma parsed_not_before (now : datetime) (date_info : string) (dt : datetime) :
  _parse_serpapi_date now date_info = Some dt -> ltb dt now = false.
Proof.
  intros Hdt. apply parse_serpapi_resolve in Hdt as (m & d & Hr).
  now apply resolve_not_before in Hr.
Qed.

(** X14: a date the parser gives is midnight of a day of this year or of
    the next, and never lies before the reading of the clock; so a record
    can never pass the filter of a range that ended before the clock
    reading. *)
Theorem parsed_dates_never_before_the_clock (now : datetime) (date_info : string)
  (dt : datetime) :
  _parse_serpapi_date now date_info = Some dt ->
  ltb dt now = false /\
  (year dt = year now \/ year dt = year now + 1) /\
  (hour dt, minute dt, second dt, microsecond dt) = (0, 0, 0, 0) /\
  forall start_dt end_dt,
    ltb end_dt now = true ->
    in_date_range start_dt end_dt (Some dt) = false.
Proof.
  intros Hdt. apply parse_serpapi_resolve in Hdt as (m & d & Hr).
  apply resolve_not_before in Hr as (Hnot & Hyear & Hmid).
  split; [exact Hnot |]. split; [exact Hyear |].
  split; [now rewrite Hmid |].
  intros start_dt end_dt Hend. unfold in_date_range, leb.
  rewrite (ltb_le_trans end_dt dt now Hend Hnot). apply andb_false_r.
Qed.

Lemma filter_events_past (start_dt end_dt : datetime)
  (events : list ResearchEvent) (found : Found) :
  (forall w, ltb end_dt (EventEngine.now w).1 = true) ->
  triple (fun _ => True)
         (filter_events start_dt end_dt events found)
         (fun found' _ => found' = found)
         (fun _ => False).
Proof.
  intros Hpast. induction events as [| event events IH]; [now intros st _ |].
  cbn [filter_events].
  apply triple_bind with (Q := fun t _ => ltb end_dt t = true).
  { intros st _. unfold in_world. specialize (Hpast (world st)).
    now destruct (EventEngine.now (world st)). }
  intros t.
  assert (Hout : in_date_range start_dt end_dt
                   (_parse_serpapi_date t (exact_date event)) = false
                 \/ ltb end_dt t = false).
  { destruct (ltb end_dt t) eqn:Ht; [left | now right].
    destruct (_parse_serpapi_date t (exact_date event)) as [dt |] eqn:Hdt;
      [| reflexivity].
    unfold in_date_range, leb.
    rewrite (ltb_le_trans end_dt dt t Ht (parsed_not_before _ _ _ Hdt)).
    apply andb_false_r. }
  destruct Hout as [-> | Ht].
  - apply triple_bind with (Q := fun found' _ => found' = found);
      [now intros st _ |].
    intros found' st ->. now apply IH.
  - intros st Hst. congruence.
Qed.

Lemma fetch_loop_past (start_dt end_dt : datetime) (max_results : Z)
  (queries : list string) (found : Found) :
  (forall w, ltb end_dt (EventEngine.now w).1 = true) ->
  triple (fun _ => True)
         (fetch_loop start_dt end_dt max_results queries found)
         (fun found' _ => found' = found)
         (fun _ => False).
Proof.
  intros Hpast. induction queries as [| query queries IH]; [now intros st _ |].
  cbn [fetch_loop].
  destruct (len (all_events found) >=? max_results * 2); [now intros st _ |].
  apply triple_bind with (Q := fun _ _ => True); [now intros st _ |].
  intros []. apply triple_bind with (Q := fun _ _ => True).
  { intros st _. unfold _fetch_serpapi_events, bind, in_world.
    now destruct (requests_get query (world st)). }
  intros events. apply triple_bind with (Q := fun _ _ => True); [now intros st _ |].
  intros []. eapply triple_bind; [now apply filter_events_past |].
  intros found' st ->. now apply IH.
Qed.

(** X15: while the clock reads later than the end of the range, the
    fetch with the date filter returns no event, whatever the provider
    answers. *)
Theorem past_range_finds_nothing (queries : list string)
  (start_dt end_dt : datetime) (max_results : Z) (st : St) :
  (forall w, ltb end_dt (EventEngine.now w).1 = true) ->
  (_fetch_events_with_date_filter queries start_dt end_dt max_results st).1
  = Some [].
Proof.
  intros Hpast.
  pose proof (fetch_loop_past start_dt end_dt max_results queries (mk_found [] ∅)
                Hpast st I) as Hloop.
  unfold _fetch_events_with_date_filter, bind.
  destruct (fetch_loop _ _ _ _ _ st) as [[found |] st']; [| contradiction].
  now rewrite Hloop.
Qed.

Lemma find_user_month_unique (current_year : Z) (clean_date : string) (m : Z)
  (table : list (string * Z)) :
  (forall name m', (name, m') ∈ table ->
                   contains name clean_date = true -> m' = m) ->
  (exists name, (name, m) ∈ table /\ contains name clean_date = true) ->
  find_user_month current_year clean_date table
  = mk_date (match year_match clean_date with
             | Some y => int_of_digits y
             | None => current_year
             end)
            m
            (match day_match clean_date with
             | Some ds => int_of_digits ds
             | None => 1
             end).
Proof.
  induction table as [| [name0 m0] table IH]; intros Hall Hex.
  - destruct Hex as (name & Hin & _). now apply elem_of_nil in Hin.
  - cbn [find_user_month].
    destruct (contains name0 clean_date) eqn:Hc.
    + rewrite (Hall name0 m0); [reflexivity | now left | exact Hc].
    + apply IH.
      * intros name m' Hin. apply Hall. now right.
      * destruct Hex as (name & Hin & Hname).
        apply elem_of_cons in Hin as [[= -> ->] | Hin]; [congruence | eauto].
Qed.

Lemma parse_user_date_fallback (now : datetime) (date_str : string) :
  (forall fmt, fmt ∈ user_formats -> strptime (strip date_str) fmt = None) ->
  _parse_user_date now date_str
  = find_user_month (year now) (strip (lower date_str)) months.
Proof.
  intros Hfmt. unfold _parse_user_date.
  destruct (list_find _ user_formats) as [[i fmt] |] eqn:Hfind; [| reflexivity].
  apply list_find_Some in Hfind as (Hi & [x Hx] & _).
  rewrite (Hfmt fmt) in Hx; [discriminate |].
  eapply list_elem_of_lookup_2, Hi.
Qed.

(** X16: a date of the user that none of the six formats reads, and that
    names one month: when a year of this century is the first number in
    it, the day is the twentieth (the first two digits of the year) of that
    month of that year; when there is no digit in it, the day is the first
    of that month of the current year. *)
Theorem month_and_year_reads_as_the_twentieth (now : datetime)
  (date_str : string) (m : Z) :
  (forall fmt, fmt ∈ user_formats -> strptime (strip date_str) fmt = None) ->
  (exists name, (name, m) ∈ months /\
                contains name (strip (lower date_str)) = true) ->
  (forall name m', (name, m') ∈ months ->
                   contains name (strip (lower date_str)) = true -> m' = m) ->
  (forall pre d1 d2 post,
     strip (lower date_str) = pre +:+ "20" +:+ String d1 (String d2 post) ->
     no_digit pre = true -> is_digit d1 = true -> is_digit d2 = true ->
     _parse_user_date now date_str
     = mk_date (2000 + 10 * digit_val d1 + digit_val d2) m 20) /\
  (no_digit (strip (lower date_str)) = true ->
   _parse_user_date now date_str = mk_date (year now) m 1).
Proof.
  intros Hfmt Hex Hall.
  rewrite (parse_user_date_fallback now date_str Hfmt).
  rewrite (find_user_month_unique _ _ m _ Hall Hex).
  split.
  - intros pre d1 d2 post Hshape Hpre H1 H2. rewrite Hshape.
    rewrite (day_match_year pre _ Hpre).
    rewrite (year_match_year pre post d1 d2 Hpre H1 H2).
    change (int_of_digits "20") with 20. f_equal.
    unfold int_of_digits. cbn [list_ascii_of_string fold_left].
    change (digit_val "2") with 2. change (digit_val "0") with 0. lia.
  - intros Hnone. destruct (no_digit_none _ Hnone) as [-> ->]. reflexivity.
Qed.

End Engine.

End DateMore.

(** ** The event engine: queries, keys, scores and shapes *)

Module EventMore.
Import PyStr PyList PyTime Notions Invariants Views Run RunFacts FirstSeenFacts.
Import PyListFacts PyStrFacts EventEngine QueryFacts EventFacts.

(** *** The query builder *)

Lemma dedup_first_spec (seen : gset string) (l : list string) :
  NoDup (dedup_first seen l) /\
  forall x, x ∈ dedup_first seen l <-> x ∈ l /\ x ∉ seen.
Proof.
  revert seen. induction l as [| y l IH]; intros seen; cbn [dedup_first].
  - split; [constructor |]. intros x. rewrite elem_of_nil. tauto.
  - destruct (decide (y ∈ seen)) as [Hin | Hout].
    + destruct (IH seen) as [Hnd Hel]. split; [exact Hnd |].
      intros x. rewrite Hel, elem_of_cons. split.
      * intros [Hx Hs]. split; [now right | exact Hs].
      * intros [[-> | Hx] Hs]; [contradiction | now split].
    + destruct (IH ({[y]} ∪ seen)) as [Hnd Hel]. split.
      * constructor; [| exact Hnd].
        rewrite Hel, elem_of_union, elem_of_singleton. intros [_ Hn].
        apply Hn. now left.
      * intros x. rewrite !elem_of_cons, Hel, elem_of_union, elem_of_singleton.
        destruct (decide (x = y)) as [-> | Hne]; tauto.
Qed.

Lemma valid_date_to_28 (y m d : Z) :
  1 <= y <= 9999 -> 1 <= m <= 12 -> 1 <= d <= 28 -> valid_date y m d = true.
Proof.
  intros Hy Hm Hd. unfold valid_date, days_in_month.
  repeat (apply andb_true_intro; split); try (apply Z.leb_le; lia).
  apply Z.leb_le.
  destruct (m =? 2); [destruct (is_leap y); lia |].
  destruct ((m =? 4) || (m =? 6) || (m =? 9) || (m =? 11)); lia.
Qed.

Lemma next_month_to_28 (current : datetime) :
  1 <= year current <= 9998 -> 1 <= month current <= 12 ->
  1 <= day current <= 28 ->
  exists next,
    next_month current = Some next /\
    day next = day current /\ 1 <= year next /\ 1 <= month next <= 12.
Proof.
  intros Hy Hm Hd. unfold next_month, replace_month, replace_year_month.
  destruct (Z.eqb_spec (month current) 12) as [H12 | H12].
  - rewrite valid_date_to_28 by lia. eexists. split; [reflexivity |]. cbn. lia.
  - rewrite valid_date_to_28 by lia. eexists. split; [reflexivity |]. cbn. lia.
Qed.

Lemma month_loop_total (location : string) (end_dt : datetime) :
  1 <= month end_dt <= 12 -> year end_dt <= 9998 ->
  forall (rounds : nat) (current : datetime),
    (month_span current end_dt <= rounds)%nat ->
    1 <= year current -> 1 <= month current <= 12 -> 1 <= day current <= 28 ->
    exists queries,
      month_loop rounds location current end_dt = Some queries /\
      (leb current end_dt = true ->
       exists rest, queries = month_queries location current ++ rest).
Proof.
  intros He Hye. induction rounds as [| rounds IH];
    intros current Hspan Hy Hm Hd; cbn [month_loop].
  - destruct (leb current end_dt) eqn:Hle.
    + apply leb_year_month in Hle. unfold month_span in Hspan. lia.
    + exists []. split; [reflexivity | discriminate].
  - destruct (leb current end_dt) eqn:Hle.
    2: { exists []. split; [reflexivity | discriminate]. }
    pose proof (leb_year_month _ _ Hle) as [Hyle _].
    destruct (next_month_to_28 current) as (next & Hnext & Hday & Hny & Hnm);
      [lia | lia | lia |].
    rewrite Hnext. cbn [mbind option_bind].
    destruct (next_month_span current next end_dt Hnext Hm) as [_ Heq].
    destruct (IH next) as (rest & Hrest & _);
      [unfold month_span in *; lia | lia | lia | lia |].
    rewrite Hrest. cbn. eexists. split; [reflexivity |].
    intros _. now exists rest.
Qed.

(** X17: for a range that starts on a day up to the 28th, the query
    builder does not raise; its queries differ from one another, the first
    is the query for the month the range starts in, and the queries for the
    year and for each category are among them. *)
Theorem query_builder_gives_distinct_queries (location : string)
  (categories : list string) (start_dt end_dt : datetime) :
  1 <= year start_dt -> year end_dt <= 9998 ->
  1 <= month start_dt <= 12 -> 1 <= month end_dt <= 12 ->
  1 <= day start_dt <= 28 ->
  exists queries,
    _build_date_specific_queries location categories start_dt end_dt
      = Some queries /\
    NoDup queries /\
    (leb start_dt end_dt = true ->
     head queries
     = Some ("events " +:+ location +:+ " " +:+ fmt_B start_dt +:+ " "
             +:+ fmt_Y start_dt)) /\
    (location +:+ " events " +:+ str_of_int (year start_dt)) ∈ queries /\
    forall category,
      category ∈ categories ->
      (category +:+ " events " +:+ location +:+ " "
       +:+ str_of_int (year start_dt)) ∈ queries.
Proof.
  intros Hy Hye Hm Hme Hd. unfold _build_date_specific_queries.
  destruct (month_loop_total location end_dt Hme Hye
              (month_span start_dt end_dt) start_dt (Nat.le_refl _) Hy Hm Hd)
    as (monthly & Hloop & Hfirst).
  rewrite Hloop. cbn [mbind option_bind].
  eexists. split; [reflexivity |].
  match goal with |- NoDup (dedup_first ∅ ?l) /\ _ =>
    set (all := l); destruct (dedup_first_spec ∅ all) as [Hnd Hel]
  end.
  split; [exact Hnd |]. split; [| split].
  - intros Hle. destruct (Hfirst Hle) as [rest ->].
    subst all. unfold month_queries. cbn [app dedup_first].
    rewrite decide_False by apply not_elem_of_empty. reflexivity.
  - apply Hel. split; [| apply not_elem_of_empty]. subst all.
    rewrite !elem_of_app. left. right.
    apply elem_of_cons. right. apply elem_of_cons. now left.
  - intros category Hcat. apply Hel. split; [| apply not_elem_of_empty]. subst all.
    rewrite !elem_of_app. right. apply list_elem_of_join.
    eexists. split;
      [| apply list_elem_of_fmap; eexists; split; [reflexivity | exact Hcat]].
    apply elem_of_cons. now left.
Qed.

Lemma month_span_pos (start_dt end_dt : datetime) :
  leb start_dt end_dt = true ->
  1 <= month start_dt <= 12 -> 1 <= month end_dt <= 12 ->
  exists rounds, month_span start_dt end_dt = S rounds.
Proof.
  intros Hle Hm Hme. apply leb_year_month in Hle.
  exists (Nat.pred (month_span start_dt end_dt)).
  unfold month_span. lia.
Qed.

Section Engine.
Context `{Serp}.

(** X18: a range whose first day does not exist in the month after it
    (the 31st of January, say) makes the query builder raise at its first
    step to the next month, even when the range ends in the month it starts
    in; the discovery then answers with no event and asks the provider
    nothing. *)
Theorem start_day_missing_next_month_aborts (location : string)
  (categories : list string) (start_dt end_dt : datetime) :
  leb start_dt end_dt = true ->
  1 <= month start_dt < 12 -> 1 <= month end_dt <= 12 ->
  days_in_month (year start_dt) (month start_dt + 1) < day start_dt ->
  _build_date_specific_queries location categories start_dt end_dt = None /\
  forall self start_date end_date max_results st t1 w1 t2 w2,
    now (world st) = (t1, w1) -> now w1 = (t2, w2) ->
    _parse_user_date t1 start_date = Some start_dt ->
    _parse_user_date t2 end_date = Some end_dt ->
    discover_events self location start_date end_date categories max_results st
    = (Some [],
       if bool_decide (truthy (serp_api_key self) = None) then st
       else mk_st w2 (issued st) (produced st) (dated st)).
Proof.
  intros Hle Hm Hme Hday.
  assert (Hnext : next_month start_dt = None).
  { unfold next_month, replace_month, replace_year_month.
    destruct (Z.eqb_spec (month start_dt) 12); [lia |].
    unfold valid_date.
    destruct (Z.leb_spec (day start_dt)
                (days_in_month (year start_dt) (month start_dt + 1))); [lia |].
    now rewrite andb_false_r. }
  assert (Hbuild : _build_date_specific_queries location categories start_dt end_dt
                   = None).
  { unfold _build_date_specific_queries.
    destruct (month_span_pos start_dt end_dt Hle) as [rounds ->]; [lia | lia |].
    cbn [month_loop]. now rewrite Hle, Hnext. }
  split; [exact Hbuild |].
  intros self start_date end_date max_results st t1 w1 t2 w2 H1 H2 Hs He.
  unfold discover_events, try_except.
  destruct (bool_decide (truthy (serp_api_key self) = None)); [reflexivity |].
  unfold bind, in_world. rewrite H1. cbn [world]. rewrite H2, Hs, He.
  unfold lift. now rewrite Hbuild.
Qed.

(** X19: without a key, the discovery answers with no event and leaves
    the world as it was; with a start or an end date that does not parse,
    it answers with no event and asks the provider nothing. *)
Theorem no_key_or_no_date_asks_nothing (self : SmartEventEngine)
  (location start_date end_date : string) (categories : list string)
  (max_results : Z) (st : St) :
  (truthy (serp_api_key self) = None ->
   discover_events self location start_date end_date categories max_results st
   = (Some [], st)) /\
  ((forall t, _parse_user_date t start_date = None) \/
   (forall t, _parse_user_date t end_date = None) ->
   exists st',
     discover_events self location start_date end_date categories max_results st
     = (Some [], st') /\
     issued st' = issued st /\ produced st' = produced st /\ dated st' = dated st).
Proof.
  split.
  - intros Hkey. unfold discover_events, try_except.
    now rewrite bool_decide_eq_true_2.
  - intros Hbad. unfold discover_events, try_except.
    destruct (bool_decide (truthy (serp_api_key self) = None));
      [now exists st |].
    unfold bind, in_world.
    destruct (now (world st)) as [t1 w1]. cbn [world].
    destruct (now w1) as [t2 w2].
    destruct Hbad as [Hbad | Hbad].
    + rewrite Hbad. eexists. split; [reflexivity | now cbn].
    + rewrite (Hbad t2).
      destruct (_parse_user_date t1 start_date);
        (eexists; split; [reflexivity | now cbn]).
Qed.

End Engine.

(** *** Scores *)

Lemma sort_desc_sorted_id {A K} (ltb : K -> K -> bool) (key : A -> K) (l : list A) :
  StronglySorted (fun a b => ltb (key a) (key b) = false) l ->
  sort_desc ltb key l = l.
Proof.
  induction 1 as [| x l Hl IH Hx]; [reflexivity |].
  cbn [sort_desc]. rewrite IH.
  destruct l as [| y l]; [reflexivity |].
  cbn [insert_desc]. apply Forall_cons in Hx as [Hxy _]. now rewrite Hxy.
Qed.

Lemma scored_scored (event : ResearchEvent) : scored (scored event) = scored event.
Proof. reflexivity. Qed.

(** X20: scoring by hype changes nothing but the scores and the order:
    its result is a rearrangement of the events with their scores written
    in, and scoring the result again gives the result. *)
Theorem scoring_twice_is_scoring_once (events : list ResearchEvent) :
  _score_events_by_hype events ≡ₚ scored <$> events /\
  length (_score_events_by_hype events) = length events /\
  _score_events_by_hype (_score_events_by_hype events)
  = _score_events_by_hype events.
Proof.
  unfold _score_events_by_hype.
  change (fun event => set_hype_score (_calculate_hype_score event) event)
    with scored.
  pose proof (sort_desc_perm Qltb hype_score (scored <$> events)) as Hperm.
  split; [exact Hperm |]. split.
  - now rewrite Hperm, length_fmap.
  - set (out := sort_desc Qltb hype_score (scored <$> events)) in *.
    assert (Hid : scored <$> out = out).
    { rewrite <- (list_fmap_id out) at 2. apply list_fmap_ext.
      intros i x Hx. apply list_elem_of_lookup_2 in Hx.
      rewrite Hperm in Hx. apply list_elem_of_fmap in Hx as (e & -> & _).
      apply scored_scored. }
    rewrite Hid. apply sort_desc_sorted_id.
    apply sort_desc_sorted; [apply Qltb_asym | apply Qgeb_trans].
Qed.

(** *** Keys *)

Lemma sub_one_drop (p : ascii -> bool) (s : string) :
  sub [One p] EmptyString s = drop_class p s.
Proof.
  unfold sub. induction s as [| c s IH]; [reflexivity |].
  cbn [sub_go match_here step drop_class].
  destruct (p c); [| now rewrite IH].
  replace (String.length (String c s) - String.length s)%nat with 1%nat
    by (cbn [String.length]; lia).
  cbn. now rewrite IH.
Qed.

Lemma drop_class_app (p : ascii -> bool) (a b : string) :
  drop_class p (a +:+ b) = drop_class p a +:+ drop_class p b.
Proof.
  induction a as [| c a IH]; [reflexivity |].
  change (String c a +:+ b) with (String c (a +:+ b)).
  cbn [drop_class]. destruct (p c); [exact IH |].
  change (String c (drop_class p a) +:+ drop_class p b)
    with (String c (drop_class p a +:+ drop_class p b)).
  now rewrite IH.
Qed.

Lemma punctuation_lower (c : ascii) :
  not_word_space c = true -> lower_char c = c.
Proof.
  unfold not_word_space, is_word, lower_char. intros Hc.
  apply negb_true_iff in Hc. destruct (is_upper c); [| reflexivity].
  now rewrite orb_true_r in Hc.
Qed.

(** X21: the key of an event does not see the case of the letters of its
    name, nor a character of punctuation in it: two events with the same
    date text whose names differ by such a character and by case have the
    same key. *)
Theorem event_key_ignores_case_and_punctuation (e1 e2 : ResearchEvent)
  (n1 n2 : string) (c : ascii) :
  exact_date e1 = exact_date e2 ->
  not_word_space c = true ->
  event_name e1 = n1 +:+ String c n2 ->
  lower (event_name e2) = lower (n1 +:+ n2) ->
  _create_event_key e1 = _create_event_key e2.
Proof.
  intros Hdate Hc H1 H2. unfold _create_event_key.
  rewrite Hdate, H2, H1, !sub_one_drop, !DateFacts.lower_app.
  cbn [lower]. rewrite (punctuation_lower c Hc), !drop_class_app.
  cbn [drop_class]. now rewrite Hc.
Qed.

(** *** Shapes *)

Lemma truthy_nonempty (x : option string) (s : string) :
  truthy x = Some s -> s <> EmptyString.
Proof.
  destruct x as [t |]; [| discriminate]. cbn.
  destruct (is_empty t) eqn:He; [discriminate |].
  intros [= <-] ->. discriminate He.
Qed.

Lemma not_empty (s : string) : is_empty s = false -> s <> EmptyString.
Proof. now intros He ->. Qed.

Lemma classify_event_type_kinds (text : string) :
  _classify_event_type text
    ∈ ["music"; "sports"; "arts"; "food"; "festival"; "conference"; "other"].
Proof.
  unfold _classify_event_type. destruct (is_empty text); [set_solver |].
  destruct (List.find _ categories_table) as [[category keywords] |] eqn:Hf;
    [| set_solver].
  apply find_some in Hf as [Hin _]. cbn in Hin.
  repeat (destruct Hin as [[= <- <-] | Hin]; [set_solver |]). contradiction.
Qed.

Lemma extract_venue_length (address : string) :
  (3 < String.length (_extract_venue address))%nat.
Proof.
  unfold _extract_venue. destruct (is_empty address); [cbn; lia |].
  destruct (Nat.ltb_spec 3 (String.length
                              (strip (hd EmptyString (split_on "," address)))));
    [assumption | cbn; lia].
Qed.

Section Shapes.
Context `{Serp}.

Lemma clean_date_display_nonempty (raw_date : string) :
  _clean_date_display raw_date <> EmptyString.
Proof.
  unfold _clean_date_display.
  destruct (is_empty raw_date) eqn:He; [discriminate |].
  destruct (loads_dict raw_date) as [date_dict |]; [| now apply not_empty].
  destruct (truthy (date_dict !! "when")) as [w |] eqn:Hw;
    [now apply truthy_nonempty in Hw |].
  destruct (truthy (date_dict !! "start_date")); [discriminate | now apply not_empty].
Qed.

Lemma parse_event_data_shape (event_data : EventData) (event : ResearchEvent) :
  _parse_event_data_clean event_data = Some event -> event_shape event.
Proof.
  unfold _parse_event_data_clean.
  destruct (is_empty (_safe_extract (title event_data)) || _) eqn:Ht;
    [discriminate |].
  apply orb_false_elim in Ht as [Ht _].
  intros [= <-]. unfold event_shape.
  cbn [event_name exact_date exact_venue category confidence_score posted_by
       start_datetime].
  split; [| split; [apply clean_date_display_nonempty |
            split; [apply extract_venue_length |
            split; [apply classify_event_type_kinds | now repeat split]]]].
  unfold _clean_event_name. rewrite Ht.
  destruct (is_empty (strip _)) eqn:Hc; now apply not_empty.
Qed.

Lemma events_of_shape (limit : Z) (response : SerpResponse) :
  Forall event_shape (events_of limit response).
Proof.
  unfold events_of. destruct response as [| status_code [events_results |]];
    try constructor.
  destruct (status_code =? 200); [| constructor].
  apply Forall_forall. intros event Hin.
  apply list_elem_of_omap in Hin as (event_data & _ & Hparse).
  apply ValidFacts.parse_valid_Some in Hparse as [Hparse _].
  now apply parse_event_data_shape in Hparse.
Qed.

Ltac by_ret := let st := fresh "st" in let Hst := fresh "Hst" in
               intros st Hst; exact Hst.

Lemma filter_events_produced (P : list ResearchEvent -> Prop)
  (start_dt end_dt : datetime) (events : list ResearchEvent) (found : Found) :
  triple (fun st => P (produced st))
         (filter_events start_dt end_dt events found)
         (fun _ st => P (produced st))
         (fun st => P (produced st)).
Proof.
  revert found. induction events as [| event events IH]; intros found; [by_ret |].
  cbn [filter_events].
  eapply triple_bind; [apply (in_world_frame now (fun _ p _ => P p)) |].
  intros t. apply triple_bind with (Q := fun _ st => P (produced st));
    [| intros found'; apply IH].
  destruct (in_date_range _ _ _); [| by_ret].
  apply triple_bind with (Q := fun _ st => P (produced st)); [by_ret |].
  intros []. apply triple_bind with (Q := fun _ st => P (produced st)).
  - intros st Hst. unfold lift. now destruct (_create_event_key event).
  - intros event_key. destruct (decide _); by_ret.
Qed.

Lemma fetch_loop_produced (G : ResearchEvent -> Prop)
  (start_dt end_dt : datetime) (max_results : Z)
  (queries : list string) (found : Found) :
  (forall limit response, Forall G (events_of limit response)) ->
  triple (fun st => Forall G (produced st))
         (fetch_loop start_dt end_dt max_results queries found)
         (fun _ st => Forall G (produced st))
         (fun st => Forall G (produced st)).
Proof.
  intros HG. revert found.
  induction queries as [| query queries IH]; intros found; [by_ret |].
  cbn [fetch_loop].
  destruct (len (all_events found) >=? max_results * 2); [by_ret |].
  apply triple_bind with (Q := fun _ st => Forall G (produced st)); [by_ret |].
  intros []. apply triple_bind
    with (Q := fun events st => Forall G (produced st) /\ Forall G events).
  { intros st Hst. unfold _fetch_serpapi_events, bind, in_world.
    destruct (requests_get query (world st)) as [response w]. cbn.
    split; [exact Hst | apply HG]. }
  intros events.
  apply triple_bind with (Q := fun _ st => Forall G (produced st)).
  { intros st [Hp He]. cbn. apply Forall_app. now split. }
  intros []. eapply triple_bind;
    [apply (filter_events_produced (Forall G)) | intros found'; apply IH].
Qed.

Lemma discover_events_produced (G : ResearchEvent -> Prop)
  (self : SmartEventEngine) (location start_date end_date : string)
  (categories : list string) (max_results : Z) :
  (forall limit response, Forall G (events_of limit response)) ->
  triple (fun st => Forall G (produced st))
         (discover_events self location start_date end_date categories max_results)
         (fun _ st => Forall G (produced st))
         (fun _ => False).
Proof.
  intros HG. unfold discover_events. apply triple_try_except.
  destruct (bool_decide _); [by_ret |].
  eapply triple_bind; [apply (in_world_frame now (fun _ p _ => Forall G p)) |].
  intros t1.
  eapply triple_bind; [apply (in_world_frame now (fun _ p _ => Forall G p)) |].
  intros t2.
  destruct (_parse_user_date t1 start_date) as [start_dt |]; [| by_ret].
  destruct (_parse_user_date t2 end_date) as [end_dt |]; [| by_ret].
  apply triple_bind with (Q := fun _ st => Forall G (produced st)).
  { intros st Hst. unfold lift.
    now destruct (_build_date_specific_queries _ _ _ _). }
  intros date_queries.
  apply triple_bind with (Q := fun _ st => Forall G (produced st));
    [| intros; by_ret].
  unfold _fetch_events_with_date_filter.
  eapply triple_bind; [now apply fetch_loop_produced | intros; by_ret].
Qed.

(** X22: every event made from a provider record, and so every event the
    discovery returns, has a name and a date text that are not empty, a
    venue of more than three characters and one of the seven categories;
    its start instant is never filled in. *)
Theorem returned_events_have_the_shape (self : SmartEventEngine)
  (location start_date end_date : string) (categories : list string)
  (max_results : Z) (w : World) :
  (forall event_data event,
     _parse_event_data_clean event_data = Some event -> event_shape event) /\
  exists l st',
    discover_events self location start_date end_date categories max_results
      (start w) = (Some l, st') /\
    Forall event_shape l.
Proof.
  split; [apply parse_event_data_shape |].
  destruct (discover_events_spec self location start_date end_date categories
              max_results w) as (l & st' & Hrun & _ & _ & Hl).
  exists l, st'. split; [exact Hrun |].
  destruct Hl as [-> | (-> & Hsub & _)]; [constructor |].
  pose proof (discover_events_produced event_shape self location start_date
                end_date categories max_results events_of_shape (start w)) as Hp.
  rewrite Hrun in Hp. specialize (Hp (Forall_nil_2 _)).
  destruct (DiscoveryFacts.e_result_facts max_results (dated st'))
    as (_ & _ & Hfrom & _).
  apply Forall_forall. intros event Hevent.
  rewrite Forall_forall in Hfrom. destruct (Hfrom _ Hevent) as (e0 & He0 & ->).
  apply elem_of_first_seen in He0.
  rewrite Forall_forall in Hp.
  exact (Hp e0 (elem_of_sublist _ _ _ He0 Hsub)).
Qed.


End Shapes.

End EventMore.

(** ** Edges of the two discoveries *)

Module EdgeFacts.
Import PyStr PyList PyTime Notions Invariants Views Run RunFacts PyListFacts.

Section Attendees.
Import AttendeeEngine AttendeeFacts.
Context `{Twitter.Api}.

Ltac by_ret := let st := fresh "st" in let Hst := fresh "Hst" in
               intros st Hst; exact Hst.

Lemma run_phase_reached (phase : nat) (hint : Z) (event_name : string)
  (max_results : Z) (queries : list (string * string)) (found : Found) (st : St) :
  max_results <= len (all_attendees found) ->
  run_phase phase hint event_name max_results queries found st = (Some found, st).
Proof.
  intros Hlen. destruct queries as [| [query_type query] queries]; [reflexivity |].
  cbn [run_phase].
  destruct (Z.geb_spec (len (all_attendees found)) max_results); [reflexivity | lia].
Qed.

Lemma discover_attendees_no_target (event_name : string)
  (event_date : option string) (max_results : Z) (st : St) :
  max_results <= 0 ->
  discover_attendees event_name event_date max_results st = (Some [], st).
Proof.
  intros Hn. unfold discover_attendees, try_except, bind at 1, get.
  destruct (Twitter.is_operational (twitter_client st)); [| reflexivity].
  cbn [negb]. unfold bind at 1, _guaranteed_find_attendees, bind at 1, find_unsorted.
  unfold bind at 1. rewrite run_phase_reached by (unfold len; cbn; lia).
  cbn [all_attendees]. unfold bind at 1.
  destruct (Z.ltb_spec (len (@nil ResearchAttendee)) max_results) as [Hlt | _];
    [unfold len in Hlt; cbn in Hlt; lia |].
  unfold ret at 1. cbn [all_attendees].
  destruct (Z.ltb_spec (len (@nil ResearchAttendee)) max_results) as [Hlt | _];
    [unfold len in Hlt; cbn in Hlt; lia |].
  unfold ret. cbn [all_attendees sort_desc]. now rewrite slice_to_nil.
Qed.

Lemma relevance_of_blank_name (tweet_text event_name : string) :
  split_ws event_name = [] ->
  _calculate_relevance_score_fast tweet_text event_name = None.
Proof.
  intros Hblank. apply KeywordFacts.extract_keywords_None in Hblank.
  unfold _calculate_relevance_score_fast. now rewrite Hblank.
Qed.

Lemma process_data_blank (users_dict : gmap Z Twitter.User) (event_name : string)
  (tweets : list Twitter.Tweet) (l : list ResearchAttendee) :
  split_ws event_name = [] ->
  process_data users_dict event_name tweets = Some l -> l = [].
Proof.
  intros Hblank. induction tweets as [| tweet tweets IH]; cbn [process_data].
  - now intros [= <-].
  - destruct (users_dict !! Twitter.author_id tweet); [| exact IH].
    now rewrite relevance_of_blank_name.
Qed.

Lemma process_tweets_blank (tweets : Twitter.Response) (event_name : string)
  (l : list ResearchAttendee) :
  split_ws event_name = [] ->
  _process_tweets_fast tweets event_name = Some l -> l = [].
Proof.
  intros Hblank. unfold _process_tweets_fast.
  destruct (Twitter.includes tweets) as [users |]; [| now intros [= <-]].
  destruct (Twitter.data tweets) as [tweets_data |]; cbn; [| discriminate].
  now apply process_data_blank.
Qed.

Lemma search_and_process_blank (P : list Fetch -> Prop)
  (query event_name : string) (max_results : Z) :
  split_ws event_name = [] ->
  triple (fun st => P (issued st))
         (_search_and_process query event_name max_results)
         (fun l st => P (issued st) /\ l = [])
         (fun st => P (issued st)).
Proof.
  intros Hblank. unfold _search_and_process.
  eapply triple_bind; [apply (call_search_frame (fun i _ => P i)) |].
  intros [tweets |]; [| intros st HP; cbn; now split].
  destruct (Twitter.data tweets) as [[| t ts] |] eqn:Hd;
    try (intros st HP; cbn; now split).
  intros st HP. unfold lift.
  destruct (_process_tweets_fast tweets event_name) as [l |] eqn:Hl; [| exact HP].
  split; [exact HP | now apply process_tweets_blank in Hl].
Qed.

Lemma run_phase_blank (hint : Z) (event_name : string) (max_results : Z)
  (queries : list (string * string)) :
  split_ws event_name = [] ->
  triple (fun st => Forall (fun f => f_phase f = 1%nat) (issued st))
         (run_phase 1 hint event_name max_results queries (mk_found [] ∅))
         (fun found st => found = mk_found [] ∅ /\
                          Forall (fun f => f_phase f = 1%nat) (issued st))
         (fun st => Forall (fun f => f_phase f = 1%nat) (issued st)).
Proof.
  intros Hblank.
  induction queries as [| [query_type query] queries IH]; [now intros st Hst |].
  cbn [run_phase].
  destruct (len (all_attendees (mk_found [] ∅)) >=? max_results);
    [now intros st Hst |].
  apply triple_bind with
    (Q := fun _ st => Forall (fun f => f_phase f = 1%nat) (issued st)).
  { intros st Hi. cbn. apply Forall_app. split; [exact Hi |]. now repeat constructor. }
  intros []. eapply triple_bind;
    [apply (search_and_process_blank
              (fun i => Forall (fun f => f_phase f = 1%nat) i)), Hblank |].
  intros attendees.
  apply triple_bind with
    (Q := fun _ st => attendees = [] /\
                      Forall (fun f => f_phase f = 1%nat) (issued st)).
  { intros st [Hi ->]. cbn. now split. }
  intros []. intros st [-> Hi]. now apply IH.
Qed.

(** X23: for an event name that holds nothing but white space, the
    attendee discovery returns nobody, whatever the provider answers: no
    relevance can be computed and no keyword query can be built; the
    searches it makes before it gives up are those of the first phase. *)
Theorem blank_event_name_finds_nobody (event_name : string)
  (event_date : option string) (max_results : Z)
  (client : Twitter.TwitterClient) (w : Twitter.World) :
  split_ws event_name = [] ->
  exists st',
    discover_attendees event_name event_date max_results (start client w)
      = (Some [], st') /\
    Forall (fun f => f_phase f = 1%nat) (issued st').
Proof.
  intros Hblank.
  assert (Ht : triple (fun st => issued st = [])
                 (discover_attendees event_name event_date max_results)
                 (fun l st => l = [] /\
                              Forall (fun f => f_phase f = 1%nat) (issued st))
                 (fun _ => False)).
  { unfold discover_attendees. apply triple_try_except.
    apply triple_bind with (Q := fun _ st => issued st = []); [by_ret |].
    intros st0. destruct (negb _).
    { intros st Hst. cbn. rewrite Hst. now split. }
    apply triple_bind with
      (Q := fun l st => l = [] /\
                        Forall (fun f => f_phase f = 1%nat) (issued st)).
    2: { intros l st [-> Hi]. cbn. now rewrite slice_to_nil. }
    unfold _guaranteed_find_attendees.
    apply triple_bind with
      (Q := fun found st => found = mk_found [] ∅ /\
                            Forall (fun f => f_phase f = 1%nat) (issued st)).
    2: { intros found st [-> Hi]. cbn. now split. }
    unfold find_unsorted.
    apply triple_bind with
      (Q := fun found st => found = mk_found [] ∅ /\
                            Forall (fun f => f_phase f = 1%nat) (issued st)).
    { eapply triple_conseq; [| | | apply (run_phase_blank _ _ _ _ Hblank)].
      - intros st Hst. cbn. rewrite Hst. constructor.
      - intros found st Hst. exact Hst.
      - intros st Hst. cbn. split; [reflexivity | exact Hst]. }
    intros found1.
    assert (Hkw : _generate_smart_keyword_queries event_name = None).
    { unfold _generate_smart_keyword_queries.
      apply KeywordFacts.extract_keywords_None in Hblank. now rewrite Hblank. }
    destruct (Z.ltb_spec 0 max_results) as [Hpos | Hle].
    - intros st [-> Hi]. unfold bind at 1. cbn [all_attendees].
      destruct (Z.ltb_spec (len (@nil ResearchAttendee)) max_results) as [_ | Hge];
        [| unfold len in Hge; cbn in Hge; lia].
      unfold bind at 1, lift. rewrite Hkw. cbn. now split.
    - intros st [-> Hi]. unfold bind at 1. cbn [all_attendees].
      destruct (Z.ltb_spec (len (@nil ResearchAttendee)) max_results) as [Hlt | _];
        [unfold len in Hlt; cbn in Hlt; lia |].
      unfold ret at 1. cbn [all_attendees].
      destruct (Z.ltb_spec (len (@nil ResearchAttendee)) max_results) as [Hlt | _];
        [unfold len in Hlt; cbn in Hlt; lia |].
      cbn. now split. }
  specialize (Ht (start client w) eq_refl).
  destruct (discover_attendees _ _ _ _) as [[l |] st']; [| contradiction].
  destruct Ht as [-> Hi]. now exists st'.
Qed.

End Attendees.

Section Events.
Import EventEngine.
Context `{Serp}.

Lemma fetch_no_target (queries : list string) (start_dt end_dt : datetime)
  (max_results : Z) (st : St) :
  max_results <= 0 ->
  _fetch_events_with_date_filter queries start_dt end_dt max_results st
  = (Some [], st).
Proof.
  intros Hn. unfold _fetch_events_with_date_filter, bind.
  destruct queries as [| query queries]; [reflexivity |].
  cbn [fetch_loop all_events].
  destruct (Z.geb_spec (len (@nil ResearchEvent)) (max_results * 2)) as [_ | Hlt];
    [reflexivity | unfold len in Hlt; cbn in Hlt; lia].
Qed.

Lemma discover_events_no_target (self : SmartEventEngine)
  (location start_date end_date : string) (categories : list string)
  (max_results : Z) (st : St) :
  max_results <= 0 ->
  exists st',
    discover_events self location start_date end_date categories max_results st
      = (Some [], st') /\
    issued st' = issued st /\ produced st' = produced st /\ dated st' = dated st.
Proof.
  intros Hn. unfold discover_events, try_except.
  destruct (bool_decide (truthy (serp_api_key self) = None)); [now exists st |].
  unfold bind at 1, in_world at 1.
  destruct (now (world st)) as [t1 w1].
  unfold bind at 1, in_world at 1. cbn [world].
  destruct (now w1) as [t2 w2].
  destruct (_parse_user_date t1 start_date) as [start_dt |];
    [| eexists; split; [reflexivity | now cbn]].
  destruct (_parse_user_date t2 end_date) as [end_dt |];
    [| eexists; split; [reflexivity | now cbn]].
  unfold bind at 1, lift.
  destruct (_build_date_specific_queries location categories start_dt end_dt)
    as [date_queries |]; [| eexists; split; [reflexivity | now cbn]].
  unfold bind at 1. rewrite fetch_no_target by assumption.
  unfold ret. cbn [_score_events_by_hype fmap list_fmap sort_desc].
  rewrite slice_to_nil. eexists. split; [reflexivity | now cbn].
Qed.

End Events.

Section Both.
Context {serp : EventEngine.Serp} {api : Twitter.Api}.

(** X24: with a target that is zero or less, both discoveries return
    nothing and make no call to their provider: the attendee discovery
    leaves its state as it was, the event discovery does no more than read
    the clock. *)
Theorem no_target_asks_nothing (max_results : Z) :
  max_results <= 0 ->
  (forall event_name event_date st,
     AttendeeEngine.discover_attendees event_name event_date max_results st
     = (Some [], st)) /\
  (forall self location start_date end_date categories st,
     exists st',
       EventEngine.discover_events self location start_date end_date categories
         max_results st = (Some [], st') /\
       EventEngine.issued st' = EventEngine.issued st /\
       EventEngine.produced st' = EventEngine.produced st /\
       EventEngine.dated st' = EventEngine.dated st).
Proof.
  intros Hn. split.
  - intros. now apply discover_attendees_no_target.
  - intros. now apply discover_events_no_target.
Qed.

End Both.

End EdgeFacts.

(** ** Names and addresses *)

Module TextFacts.
Import PyStr PyList Notions Views PyStrFacts DateFacts.

Lemma chars_app (a b : string) :
  list_ascii_of_string (a +:+ b)
  = list_ascii_of_string a ++ list_ascii_of_string b.
Proof.
  induction a as [| c a IH]; [reflexivity |].
  change (String c a +:+ b) with (String c (a +:+ b)).
  cbn [list_ascii_of_string app]. now rewrite IH.
Qed.

Lemma strip_chars (s : string) (c : ascii) :
  c ∈ list_ascii_of_string (strip s) -> c ∈ list_ascii_of_string s.
Proof.
  unfold strip. intros Hc.
  destruct (lstrip_suffix s) as [a Ha].
  destruct (rstrip_prefix (lstrip s)) as [b Hb].
  rewrite Ha, Hb, !chars_app, !elem_of_app. right. now left.
Qed.

(** *** The star and the plus of white space *)

Lemma star_cons (p : ascii -> bool) (c : ascii) (s : string) :
  match_here [Many0 p] (String c s)
  = if p c then or_else (match_here [Many0 p] s) (Some (String c s))
    else Some (String c s).
Proof. reflexivity. Qed.

Lemma star_rest (p : ascii -> bool) (s : string) :
  exists r, match_here [Many0 p] s = Some r /\
            (String.length r <= String.length s)%nat.
Proof.
  induction s as [| c s (r & Hr & Hlen)].
  - exists EmptyString. now split.
  - rewrite star_cons. destruct (p c).
    + rewrite Hr. exists r. split; [reflexivity | cbn; lia].
    + exists (String c s). now split.
Qed.

Lemma plus_cons (p : ascii -> bool) (c : ascii) (s : string) :
  match_here (plus p) (String c s)
  = if p c then match_here [Many0 p] s else None.
Proof. reflexivity. Qed.

(** Collapsing the white space leaves single spaces and the characters
    that are no white space. *)
Lemma collapse_chars (s : string) (skip : nat) (c : ascii) :
  c ∈ list_ascii_of_string (sub_go (plus is_space) " " s skip) ->
  c = " "%char \/ (c ∈ list_ascii_of_string s /\ is_space c = false).
Proof.
  revert skip. induction s as [| a s IH]; intros skip; cbn [sub_go].
  - intros Hc. now apply elem_of_nil in Hc.
  - destruct skip as [| skip].
    + rewrite plus_cons. destruct (is_space a) eqn:Ha.
      * destruct (star_rest is_space s) as (r & -> & Hlen).
        destruct (String.length (String a s) - String.length r)%nat as [| k] eqn:Hk;
          [cbn [String.length] in Hk; lia |].
        change (" " +:+ sub_go (plus is_space) " " s k)
          with (String " " (sub_go (plus is_space) " " s k)).
        cbn [list_ascii_of_string]. intros [-> | Hc]%elem_of_cons; [now left |].
        destruct (IH _ Hc) as [-> | [Hin Hns]]; [now left | right].
        split; [now apply elem_of_cons; right | exact Hns].
      * cbn [list_ascii_of_string]. intros [-> | Hc]%elem_of_cons.
        -- right. split; [now apply elem_of_cons; left | exact Ha].
        -- destruct (IH _ Hc) as [-> | [Hin Hns]]; [now left | right].
           split; [now apply elem_of_cons; right | exact Hns].
    + intros Hc. destruct (IH _ Hc) as [-> | [Hin Hns]]; [now left | right].
      cbn [list_ascii_of_string]. split; [now apply elem_of_cons; right | exact Hns].
Qed.

Lemma map_class_chars (s : string) (c : ascii) :
  c ∈ list_ascii_of_string (map_class not_word_space " " s) ->
  c = " "%char \/ is_word c || is_space c = true.
Proof.
  induction s as [| a s IH]; cbn [map_class list_ascii_of_string].
  - intros Hc. now apply elem_of_nil in Hc.
  - intros [-> | Hc]%elem_of_cons; [| now apply IH].
    unfold not_word_space.
    destruct (is_word a || is_space a) eqn:Ha; cbn [negb]; [now right | now left].
Qed.

(** X25: the name the attendee engine puts between the quotes of its
    queries is never empty and holds nothing but letters, digits,
    underscores and spaces, whatever the event name: no quote and no
    other punctuation can come from the event name. *)
Theorem cleaned_name_is_plain (event_name : string) :
  AttendeeEngine._clean_event_name event_name <> EmptyString /\
  Forall (fun c => is_word c = true \/ c = " "%char)
         (list_ascii_of_string (AttendeeEngine._clean_event_name event_name)).
Proof.
  assert (Hevent : Forall (fun c => is_word c = true \/ c = " "%char)
                          (list_ascii_of_string "event"))
    by (repeat constructor; now left).
  unfold AttendeeEngine._clean_event_name.
  destruct (is_empty event_name); [split; [discriminate | exact Hevent] |].
  destruct (is_empty (strip _)) eqn:He; [split; [discriminate | exact Hevent] |].
  split; [now intros Hnil; rewrite Hnil in He |].
  apply Forall_forall. intros c Hc.
  apply strip_chars in Hc. apply collapse_chars in Hc as [-> | [Hc Hns]];
    [now right |].
  rewrite sub_one_class in Hc. apply map_class_chars in Hc as [-> | Hc];
    [now right |].
  left. rewrite Hns, orb_false_r in Hc. exact Hc.
Qed.

(** *** Addresses *)

Lemma no_comma_cons (c : ascii) (s : string) :
  contains "," (String c s) = false ->
  String.prefix "," (String c s) = false /\ contains "," s = false.
Proof. cbn [contains]. now intros [Hp Hs]%orb_false_elim. Qed.

Lemma split_go_no_comma (s : string) :
  contains "," s = false -> split_go "," s 0 = (s, []).
Proof.
  induction s as [| c s IH]; [reflexivity |].
  intros [Hp Hs]%no_comma_cons. cbn [split_go]. rewrite Hp, (IH Hs). reflexivity.
Qed.

Lemma split_go_comma (a b : string) :
  contains "," a = false ->
  split_go "," (a +:+ "," +:+ b) 0
  = (a, (split_go "," b 0).1 :: (split_go "," b 0).2).
Proof.
  induction a as [| c a IH].
  - intros _. change (EmptyString +:+ "," +:+ b) with (String "," b).
    cbn [split_go]. change (String.prefix "," (String "," b)) with
      (String.prefix EmptyString b).
    replace (String.prefix EmptyString b) with true by now destruct b.
    cbn [String.length Nat.sub]. now destruct (split_go "," b 0).
  - intros [Hp Ha]%no_comma_cons.
    change (String c a +:+ "," +:+ b) with (String c (a +:+ "," +:+ b)).
    cbn [split_go].
    assert (Hp' : String.prefix "," (String c (a +:+ "," +:+ b)) = false).
    { cbn [String.prefix] in *. destruct (ascii_dec "," c); [| reflexivity].
      now destruct a. }
    rewrite Hp', (IH Ha). reflexivity.
Qed.

(** X26: of an address of two parts with one comma between them, the
    venue is the first part without the white space around it (or
    ["Various Venues"] when that has three characters or less) and the
    location is the second part without the white space around it; an
    address without a comma is its own location. *)
Theorem venue_and_location_of_an_address (venue place : string) :
  contains "," venue = false ->
  contains "," place = false ->
  EventEngine._extract_venue (venue +:+ "," +:+ place)
  = (if (3 <? String.length (strip venue))%nat then strip venue
     else "Various Venues") /\
  EventEngine._extract_location (venue +:+ "," +:+ place) = strip place /\
  (venue <> EmptyString -> EventEngine._extract_location venue = venue).
Proof.
  intros Hv Hp.
  assert (Hsplit : split_on "," (venue +:+ "," +:+ place) = [venue; place]).
  { unfold split_on. rewrite (split_go_comma _ _ Hv), (split_go_no_comma _ Hp).
    reflexivity. }
  assert (Hne : is_empty (venue +:+ "," +:+ place) = false).
  { destruct venue; reflexivity. }
  unfold EventEngine._extract_venue, EventEngine._extract_location.
  rewrite Hne, Hsplit. cbn [hd length Nat.ltb Nat.leb List.last].
  split; [reflexivity |]. split; [reflexivity |].
  intros Hvenue. destruct venue as [| c venue]; [contradiction |].
  cbn [is_empty]. unfold split_on. rewrite (split_go_no_comma _ Hv). reflexivity.
Qed.

End TextFacts.

(** ** The further properties on the two small providers *)

Module MockMore.
Import PyStr PyList PyTime Notions Invariants Views Mock.

Lemma search_keeps_budget_witness :
  let self' := (@Twitter.search_recent_tweets_safe Mock.api "jazz" 10 Mock.client
                  0%nat).1.2 in
  0 <= Twitter.rate_limit_remaining self' /\
  0 <= Twitter.total_searches_used self' /\
  Twitter.rate_limit_remaining self' + Twitter.total_searches_used self' = 60 /\
  Twitter.client_v2 self' = Twitter.client_v2 Mock.client /\
  forall now,
    Twitter.searches_remaining (Twitter.get_usage_stats now self')
    + Twitter.searches_used (Twitter.get_usage_stats now self')
    = Twitter.searches_limit (Twitter.get_usage_stats now self') /\
    0 <= Twitter.searches_used (Twitter.get_usage_stats now self')
      <= Twitter.searches_limit (Twitter.get_usage_stats now self').
Proof.
  apply (@TwitterFacts.search_keeps_budget_balanced Mock.api "jazz" 10 Mock.client
           0%nat);
    cbn; lia.
Defined.

Lemma spent_budget_witness :
  (Twitter.rate_limit_remaining (Twitter.mk_client true 0 0 60) <= 0 ->
   @Twitter.search_recent_tweets_safe Mock.api "jazz" 10
     (Twitter.mk_client true 0 0 60) 5%nat
   = (None, Twitter.mk_client true 0 0 60, 5%nat)) /\
  (forall w',
     @Twitter.search_recent_tweets Mock.api "jazz" (Z.min 10 15) 5%nat = (None, w') ->
     (@Twitter.search_recent_tweets_safe Mock.api "jazz" 10
        (Twitter.mk_client true 0 0 60) 5%nat).1
     = (None, Twitter.mk_client true 0 0 60)).
Proof.
  apply (@TwitterFacts.spent_budget_blocks_search Mock.api "jazz" 10
           (Twitter.mk_client true 0 0 60) 5%nat).
  vm_compute. reflexivity.
Defined.

Lemma tweet_kept_witness :
  exists score,
    AttendeeEngine._calculate_relevance_score_fast "Going to Jazz Fest" "Jazz Fest"
      = Some score /\
    Qle_bool AttendeeEngine.relevance_threshold score
      = shows_signal "Going to Jazz Fest" "Jazz Fest" ["jazz"; "fest"] /\
    (contains (lower "Jazz Fest") (lower "Going to Jazz Fest") = true ->
     (6 # 10 <= score)%Q).
Proof.
  apply (AttendeeMore.tweet_kept_iff_it_shows_a_signal
           "Going to Jazz Fest" "Jazz Fest" ["jazz"; "fest"]).
  vm_compute. reflexivity.
Defined.

Lemma parsed_dates_witness :
  ltb (midnight 2024 11 15) (mk_datetime 2024 10 5 12 0 0 0) = false /\
  (year (midnight 2024 11 15) = 2024 \/ year (midnight 2024 11 15) = 2024 + 1) /\
  (hour (midnight 2024 11 15), minute (midnight 2024 11 15),
   second (midnight 2024 11 15), microsecond (midnight 2024 11 15)) = (0, 0, 0, 0) /\
  forall start_dt end_dt,
    ltb end_dt (mk_datetime 2024 10 5 12 0 0 0) = true ->
    EventEngine.in_date_range start_dt end_dt (Some (midnight 2024 11 15)) = false.
Proof.
  apply (DateMore.parsed_dates_never_before_the_clock
           (mk_datetime 2024 10 5 12 0 0 0) "Nov 15" (midnight 2024 11 15)).
  vm_compute. reflexivity.
Defined.

Lemma past_range_witness :
  (EventEngine._fetch_events_with_date_filter ["events NYC September 2024"]
     (midnight 2024 9 1) (midnight 2024 9 30) 5 (@EventEngine.start Mock.serp 0%nat)).1
  = Some [].
Proof.
  apply (@DateMore.past_range_finds_nothing Mock.serp ["events NYC September 2024"]
           (midnight 2024 9 1) (midnight 2024 9 30) 5
           (@EventEngine.start Mock.serp 0%nat)).
  intros w. vm_compute. reflexivity.
Defined.

Lemma month_and_year_witness :
  EventEngine._parse_user_date (mk_datetime 2024 10 5 12 0 0 0) "November 2024"
  = Some (midnight 2024 11 20).
Proof.
  destruct (DateMore.month_and_year_reads_as_the_twentieth
              (mk_datetime 2024 10 5 12 0 0 0) "November 2024" 11) as [Hyear _].
  - intros fmt _. cbn. now destruct (String.eqb fmt "%Y-%m-%d").
  - exists "nov". split; [| vm_compute; reflexivity].
    refine (bool_decide_unpack _ _). vm_compute. exact I.
  - intros name m' Hin Hc.
    repeat (apply elem_of_cons in Hin as [[= -> ->] | Hin];
            [first [reflexivity | vm_compute in Hc; discriminate Hc] |]).
    now apply elem_of_nil in Hin.
  - exact (Hyear "november " "2"%char "4"%char EmptyString
             eq_refl eq_refl eq_refl eq_refl).
Defined.

Lemma query_builder_witness :
  exists queries,
    EventEngine._build_date_specific_queries "NYC" ["music"]
      (midnight 2024 11 1) (midnight 2024 11 30) = Some queries /\
    NoDup queries /\
    (leb (midnight 2024 11 1) (midnight 2024 11 30) = true ->
     head queries
     = Some ("events " +:+ "NYC" +:+ " " +:+ fmt_B (midnight 2024 11 1) +:+ " "
             +:+ fmt_Y (midnight 2024 11 1))) /\
    ("NYC" +:+ " events " +:+ str_of_int (year (midnight 2024 11 1))) ∈ queries /\
    forall category,
      category ∈ ["music"] ->
      (category +:+ " events " +:+ "NYC" +:+ " "
       +:+ str_of_int (year (midnight 2024 11 1))) ∈ queries.
Proof.
  apply (EventMore.query_builder_gives_distinct_queries "NYC" ["music"]
           (midnight 2024 11 1) (midnight 2024 11 30)); cbn; lia.
Defined.

Lemma start_day_missing_witness :
  EventEngine._build_date_specific_queries "NYC" []
    (midnight 2025 1 31) (midnight 2025 2 5) = None /\
  forall self start_date end_date max_results st t1 w1 t2 w2,
    EventEngine.now (EventEngine.world st) = (t1, w1) ->
    EventEngine.now w1 = (t2, w2) ->
    EventEngine._parse_user_date t1 start_date = Some (midnight 2025 1 31) ->
    EventEngine._parse_user_date t2 end_date = Some (midnight 2025 2 5) ->
    EventEngine.discover_events self "NYC" start_date end_date [] max_results st
    = (Some [],
       if bool_decide (EventEngine.truthy (EventEngine.serp_api_key self) = None)
       then st
       else EventEngine.mk_st w2 (EventEngine.issued st) (EventEngine.produced st)
              (EventEngine.dated st)).
Proof.
  apply (EventMore.start_day_missing_next_month_aborts "NYC" []
           (midnight 2025 1 31) (midnight 2025 2 5)).
  - reflexivity.
  - cbn. lia.
  - cbn. lia.
  - vm_compute. reflexivity.
Defined.

Lemma event_key_witness :
  EventEngine._create_event_key
    (EventEngine.mk_event "Rock-Fest" "Nov 15" "Hall" "NYC" "music" (8 # 10)
       EmptyString "Event Search" (5 # 10) None)
  = EventEngine._create_event_key
      (EventEngine.mk_event "ROCKFEST" "Nov 15" "Arena" "NYC" "other" (8 # 10)
         EmptyString "Event Search" (5 # 10) None).
Proof.
  apply (EventMore.event_key_ignores_case_and_punctuation _ _ "Rock" "Fest" "-"%char);
    reflexivity.
Defined.

Lemma blank_event_name_witness :
  exists st',
    AttendeeEngine.discover_attendees "  " None 5
      (@AttendeeEngine.start Mock.api Mock.client 0%nat) = (Some [], st') /\
    Forall (fun f => AttendeeEngine.f_phase f = 1%nat) (AttendeeEngine.issued st').
Proof.
  apply (@EdgeFacts.blank_event_name_finds_nobody Mock.api "  " None 5 Mock.client
           0%nat).
  reflexivity.
Defined.

Lemma no_target_witness :
  (forall event_name event_date st,
     AttendeeEngine.discover_attendees event_name event_date 0 st = (Some [], st)) /\
  (forall self location start_date end_date categories st,
     exists st',
       EventEngine.discover_events self location start_date end_date categories
         0 st = (Some [], st') /\
       EventEngine.issued st' = EventEngine.issued st /\
       EventEngine.produced st' = EventEngine.produced st /\
       EventEngine.dated st' = EventEngine.dated st).
Proof.
  apply (EdgeFacts.no_target_asks_nothing 0). lia.
Defined.

Lemma venue_and_location_witness :
  EventEngine._extract_venue ("City Arena" +:+ "," +:+ " NYC")
  = (if (3 <? String.length (strip "City Arena"))%nat then strip "City Arena"
     else "Various Venues") /\
  EventEngine._extract_location ("City Arena" +:+ "," +:+ " NYC") = strip " NYC" /\
  ("City Arena" <> EmptyString -> EventEngine._extract_location "City Arena"
                                   = "City Arena").
Proof.
  apply (TextFacts.venue_and_location_of_an_address "City Arena" " NYC");
    reflexivity.
Defined.


End MockMore.
